(** * OmniUpdate: version catalog, version resolution and client update sequence

    A shallow embedding of the host (Updates-Server.js, TARer.js) and of the
    client (Updates-Client.js, update.js) of OmniUpdate, with the properties
    that the design document states about them.

    Conventions of the embedding.
    - A JS string is a [string]: the bytes of its UTF-8 form (a string
      without lone surrogates).  A character is one to four of these bytes;
      [\s], [trim] and [toUpperCase] see characters, with the white space of
      ECMAScript and the case mappings of Unicode 14; [\d], [split] and the
      other tests for ASCII characters see bytes, since a byte below 128
      never is part of a longer character.
    - A JS Number that comes out of [Number(digits)] is the integer it
      denotes, a [Z], rounded to binary64 (ties to even); [NaN] is [None].
    - The host's file system is what [fs.readdirSync(BASE_DIR)] shows: the
      entries of the package root, or nothing when the root cannot be read.
    - The client's file system is the application directory, version.txt
      and the downloads directory, three places apart from each other;
      console output is kept as a log.
    - A response reaches the client as a whole.  A download whose body
      breaks off in transit, so that the promise of [downloadVersion] never
      settles, is not among the servers of the model. *)

From Stdlib Require Import ZArith NArith Ascii String List Sorted Permutation Lia Bool.
From stdpp Require Import base option list strings pretty gmap.

Local Open Scope string_scope.

(** ** Characters and strings as the JS built-ins see them *)

Module JsString.

(** [\d] without the [u] flag: the ten ASCII digits. *)
Definition is_digit (c : ascii) : bool :=
  match c with
  | "0" | "1" | "2" | "3" | "4" | "5" | "6" | "7" | "8" | "9" => true
  | _ => false
  end%char.

Definition digit_value (c : ascii) : Z := Z.of_nat (nat_of_ascii c) - 48.

(** *** Characters *)

(** A byte of the form 10xxxxxx: it belongs to the character that an earlier
    byte began. *)
Definition is_continuation (c : ascii) : bool :=
  let n := nat_of_ascii c in
  (128 <=? n)%nat && (n <? 192)%nat.

(** The string goes on with a character that began before it. *)
Definition goes_on (s : string) : bool :=
  match s with
  | String c _ => is_continuation c
  | EmptyString => false
  end.

(** The characters of a string: each byte with the continuation bytes that
    follow it. *)
Fixpoint chars (s : string) : list string :=
  match s with
  | EmptyString => []
  | String c s' =>
      match chars s' with
      | ch :: chs =>
          if goes_on s' then String c ch :: chs
          else String c EmptyString :: ch :: chs
      | [] => [String c EmptyString]
      end
  end.

(** The pieces of a string put together again. *)
Definition join (pieces : list string) : string := foldr String.append EmptyString pieces.

(** The UTF-8 bytes of a code point. *)
Definition utf8 (cp : N) : string :=
  let byte (n : N) := ascii_of_N n in
  let tail (n : N) := byte (128 + n mod 64)%N in
  if (cp <? 128)%N then String (byte cp) ""
  else if (cp <? 2048)%N then String (byte (192 + cp / 64)%N) (String (tail cp) "")
  else if (cp <? 65536)%N then
    String (byte (224 + cp / 4096)%N) (String (tail (cp / 64)%N) (String (tail cp) ""))
  else
    String (byte (240 + cp / 262144)%N)
      (String (tail (cp / 4096)%N) (String (tail (cp / 64)%N) (String (tail cp) ""))).

(** *** White space *)

(** What [\s] matches and [trim] strips: WhiteSpace and LineTerminator of
    ECMAScript.  Tab, line feed, vertical tab, form feed, return, space,
    U+00A0, U+1680, U+2000 to U+200A, U+2028, U+2029, U+202F, U+205F, U+3000
    and U+FEFF. *)
Definition white_space_code_points : list N :=
  [ 9; 10; 11; 12; 13; 32; 160; 5760;
    8192; 8193; 8194; 8195; 8196; 8197; 8198; 8199; 8200; 8201; 8202;
    8232; 8233; 8239; 8287; 12288; 65279 ]%N.

Definition white_space : list string := Eval vm_compute in map utf8 white_space_code_points.

(** The character [ch] is white space. *)
Definition is_space (ch : string) : bool := existsb (String.eqb ch) white_space.

(** *** Upper case *)

(** [toUpperCase] on an ASCII character: the letters a to z. *)
Definition upper_ascii (c : ascii) : ascii :=
  let n := nat_of_ascii c in
  if (97 <=? n)%nat && (n <=? 122)%nat then ascii_of_nat (n - 32) else c.

(** The characters outside ASCII that [toUpperCase] changes, each with the
    characters it becomes, as code points: the upper case mappings of
    UnicodeData.txt and the unconditional ones of SpecialCasing.txt
    (Unicode 14), which the default case conversion of [toUpperCase] applies
    character by character.  So U+017F (long s) becomes S, U+00DF becomes
    SS and U+FB06 becomes ST. *)
Definition upper_case_code_points : list (N * list N) :=
  [
    (181, [924]); (223, [83; 83]); (224, [192]); (225, [193]); (226, [194]); (227, [195]);
    (228, [196]); (229, [197]); (230, [198]); (231, [199]); (232, [200]); (233, [201]);
    (234, [202]); (235, [203]); (236, [204]); (237, [205]); (238, [206]); (239, [207]);
    (240, [208]); (241, [209]); (242, [210]); (243, [211]); (244, [212]); (245, [213]);
    (246, [214]); (248, [216]); (249, [217]); (250, [218]); (251, [219]); (252, [220]);
    (253, [221]); (254, [222]); (255, [376]); (257, [256]); (259, [258]); (261, [260]);
    (263, [262]); (265, [264]); (267, [266]); (269, [268]); (271, [270]); (273, [272]);
    (275, [274]); (277, [276]); (279, [278]); (281, [280]); (283, [282]); (285, [284]);
    (287, [286]); (289, [288]); (291, [290]); (293, [292]); (295, [294]); (297, [296]);
    (299, [298]); (301, [300]); (303, [302]); (305, [73]); (307, [306]); (309, [308]);
    (311, [310]); (314, [313]); (316, [315]); (318, [317]); (320, [319]); (322, [321]);
    (324, [323]); (326, [325]); (328, [327]); (329, [700; 78]); (331, [330]); (333, [332]);
    (335, [334]); (337, [336]); (339, [338]); (341, [340]); (343, [342]); (345, [344]);
    (347, [346]); (349, [348]); (351, [350]); (353, [352]); (355, [354]); (357, [356]);
    (359, [358]); (361, [360]); (363, [362]); (365, [364]); (367, [366]); (369, [368]);
    (371, [370]); (373, [372]); (375, [374]); (378, [377]); (380, [379]); (382, [381]);
    (383, [83]); (384, [579]); (387, [386]); (389, [388]); (392, [391]); (396, [395]);
    (402, [401]); (405, [502]); (409, [408]); (410, [573]); (414, [544]); (417, [416]);
    (419, [418]); (421, [420]); (424, [423]); (429, [428]); (432, [431]); (436, [435]);
    (438, [437]); (441, [440]); (445, [444]); (447, [503]); (453, [452]); (454, [452]);
    (456, [455]); (457, [455]); (459, [458]); (460, [458]); (462, [461]); (464, [463]);
    (466, [465]); (468, [467]); (470, [469]); (472, [471]); (474, [473]); (476, [475]);
    (477, [398]); (479, [478]); (481, [480]); (483, [482]); (485, [484]); (487, [486]);
    (489, [488]); (491, [490]); (493, [492]); (495, [494]); (496, [74; 780]); (498, [497]);
    (499, [497]); (501, [500]); (505, [504]); (507, [506]); (509, [508]); (511, [510]);
    (513, [512]); (515, [514]); (517, [516]); (519, [518]); (521, [520]); (523, [522]);
    (525, [524]); (527, [526]); (529, [528]); (531, [530]); (533, [532]); (535, [534]);
    (537, [536]); (539, [538]); (541, [540]); (543, [542]); (547, [546]); (549, [548]);
    (551, [550]); (553, [552]); (555, [554]); (557, [556]); (559, [558]); (561, [560]);
    (563, [562]); (572, [571]); (575, [11390]); (576, [11391]); (578, [577]); (583, [582]);
    (585, [584]); (587, [586]); (589, [588]); (591, [590]); (592, [11375]); (593, [11373]);
    (594, [11376]); (595, [385]); (596, [390]); (598, [393]); (599, [394]); (601, [399]);
    (603, [400]); (604, [42923]); (608, [403]); (609, [42924]); (611, [404]); (613, [42893]);
    (614, [42922]); (616, [407]); (617, [406]); (618, [42926]); (619, [11362]); (620, [42925]);
    (623, [412]); (625, [11374]); (626, [413]); (629, [415]); (637, [11364]); (640, [422]);
    (642, [42949]); (643, [425]); (647, [42929]); (648, [430]); (649, [580]); (650, [433]);
    (651, [434]); (652, [581]); (658, [439]); (669, [42930]); (670, [42928]); (837, [921]);
    (881, [880]); (883, [882]); (887, [886]); (891, [1021]); (892, [1022]); (893, [1023]);
    (912, [921; 776; 769]); (940, [902]); (941, [904]); (942, [905]); (943, [906]);
    (944, [933; 776; 769]); (945, [913]); (946, [914]); (947, [915]); (948, [916]);
    (949, [917]); (950, [918]); (951, [919]); (952, [920]); (953, [921]); (954, [922]);
    (955, [923]); (956, [924]); (957, [925]); (958, [926]); (959, [927]); (960, [928]);
    (961, [929]); (962, [931]); (963, [931]); (964, [932]); (965, [933]); (966, [934]);
    (967, [935]); (968, [936]); (969, [937]); (970, [938]); (971, [939]); (972, [908]);
    (973, [910]); (974, [911]); (976, [914]); (977, [920]); (981, [934]); (982, [928]);
    (983, [975]); (985, [984]); (987, [986]); (989, [988]); (991, [990]); (993, [992]);
    (995, [994]); (997, [996]); (999, [998]); (1001, [1000]); (1003, [1002]); (1005, [1004]);
    (1007, [1006]); (1008, [922]); (1009, [929]); (1010, [1017]); (1011, [895]); (1013, [917]);
    (1016, [1015]); (1019, [1018]); (1072, [1040]); (1073, [1041]); (1074, [1042]);
    (1075, [1043]); (1076, [1044]); (1077, [1045]); (1078, [1046]); (1079, [1047]);
    (1080, [1048]); (1081, [1049]); (1082, [1050]); (1083, [1051]); (1084, [1052]);
    (1085, [1053]); (1086, [1054]); (1087, [1055]); (1088, [1056]); (1089, [1057]);
    (1090, [1058]); (1091, [1059]); (1092, [1060]); (1093, [1061]); (1094, [1062]);
    (1095, [1063]); (1096, [1064]); (1097, [1065]); (1098, [1066]); (1099, [1067]);
    (1100, [1068]); (1101, [1069]); (1102, [1070]); (1103, [1071]); (1104, [1024]);
    (1105, [1025]); (1106, [1026]); (1107, [1027]); (1108, [1028]); (1109, [1029]);
    (1110, [1030]); (1111, [1031]); (1112, [1032]); (1113, [1033]); (1114, [1034]);
    (1115, [1035]); (1116, [1036]); (1117, [1037]); (1118, [1038]); (1119, [1039]);
    (1121, [1120]); (1123, [1122]); (1125, [1124]); (1127, [1126]); (1129, [1128]);
    (1131, [1130]); (1133, [1132]); (1135, [1134]); (1137, [1136]); (1139, [1138]);
    (1141, [1140]); (1143, [1142]); (1145, [1144]); (1147, [1146]); (1149, [1148]);
    (1151, [1150]); (1153, [1152]); (1163, [1162]); (1165, [1164]); (1167, [1166]);
    (1169, [1168]); (1171, [1170]); (1173, [1172]); (1175, [1174]); (1177, [1176]);
    (1179, [1178]); (1181, [1180]); (1183, [1182]); (1185, [1184]); (1187, [1186]);
    (1189, [1188]); (1191, [1190]); (1193, [1192]); (1195, [1194]); (1197, [1196]);
    (1199, [1198]); (1201, [1200]); (1203, [1202]); (1205, [1204]); (1207, [1206]);
    (1209, [1208]); (1211, [1210]); (1213, [1212]); (1215, [1214]); (1218, [1217]);
    (1220, [1219]); (1222, [1221]); (1224, [1223]); (1226, [1225]); (1228, [1227]);
    (1230, [1229]); (1231, [1216]); (1233, [1232]); (1235, [1234]); (1237, [1236]);
    (1239, [1238]); (1241, [1240]); (1243, [1242]); (1245, [1244]); (1247, [1246]);
    (1249, [1248]); (1251, [1250]); (1253, [1252]); (1255, [1254]); (1257, [1256]);
    (1259, [1258]); (1261, [1260]); (1263, [1262]); (1265, [1264]); (1267, [1266]);
    (1269, [1268]); (1271, [1270]); (1273, [1272]); (1275, [1274]); (1277, [1276]);
    (1279, [1278]); (1281, [1280]); (1283, [1282]); (1285, [1284]); (1287, [1286]);
    (1289, [1288]); (1291, [1290]); (1293, [1292]); (1295, [1294]); (1297, [1296]);
    (1299, [1298]); (1301, [1300]); (1303, [1302]); (1305, [1304]); (1307, [1306]);
    (1309, [1308]); (1311, [1310]); (1313, [1312]); (1315, [1314]); (1317, [1316]);
    (1319, [1318]); (1321, [1320]); (1323, [1322]); (1325, [1324]); (1327, [1326]);
    (1377, [1329]); (1378, [1330]); (1379, [1331]); (1380, [1332]); (1381, [1333]);
    (1382, [1334]); (1383, [1335]); (1384, [1336]); (1385, [1337]); (1386, [1338]);
    (1387, [1339]); (1388, [1340]); (1389, [1341]); (1390, [1342]); (1391, [1343]);
    (1392, [1344]); (1393, [1345]); (1394, [1346]); (1395, [1347]); (1396, [1348]);
    (1397, [1349]); (1398, [1350]); (1399, [1351]); (1400, [1352]); (1401, [1353]);
    (1402, [1354]); (1403, [1355]); (1404, [1356]); (1405, [1357]); (1406, [1358]);
    (1407, [1359]); (1408, [1360]); (1409, [1361]); (1410, [1362]); (1411, [1363]);
    (1412, [1364]); (1413, [1365]); (1414, [1366]); (1415, [1333; 1362]); (4304, [7312]);
    (4305, [7313]); (4306, [7314]); (4307, [7315]); (4308, [7316]); (4309, [7317]);
    (4310, [7318]); (4311, [7319]); (4312, [7320]); (4313, [7321]); (4314, [7322]);
    (4315, [7323]); (4316, [7324]); (4317, [7325]); (4318, [7326]); (4319, [7327]);
    (4320, [7328]); (4321, [7329]); (4322, [7330]); (4323, [7331]); (4324, [7332]);
    (4325, [7333]); (4326, [7334]); (4327, [7335]); (4328, [7336]); (4329, [7337]);
    (4330, [7338]); (4331, [7339]); (4332, [7340]); (4333, [7341]); (4334, [7342]);
    (4335, [7343]); (4336, [7344]); (4337, [7345]); (4338, [7346]); (4339, [7347]);
    (4340, [7348]); (4341, [7349]); (4342, [7350]); (4343, [7351]); (4344, [7352]);
    (4345, [7353]); (4346, [7354]); (4349, [7357]); (4350, [7358]); (4351, [7359]);
    (5112, [5104]); (5113, [5105]); (5114, [5106]); (5115, [5107]); (5116, [5108]);
    (5117, [5109]); (7296, [1042]); (7297, [1044]); (7298, [1054]); (7299, [1057]);
    (7300, [1058]); (7301, [1058]); (7302, [1066]); (7303, [1122]); (7304, [42570]);
    (7545, [42877]); (7549, [11363]); (7566, [42950]); (7681, [7680]); (7683, [7682]);
    (7685, [7684]); (7687, [7686]); (7689, [7688]); (7691, [7690]); (7693, [7692]);
    (7695, [7694]); (7697, [7696]); (7699, [7698]); (7701, [7700]); (7703, [7702]);
    (7705, [7704]); (7707, [7706]); (7709, [7708]); (7711, [7710]); (7713, [7712]);
    (7715, [7714]); (7717, [7716]); (7719, [7718]); (7721, [7720]); (7723, [7722]);
    (7725, [7724]); (7727, [7726]); (7729, [7728]); (7731, [7730]); (7733, [7732]);
    (7735, [7734]); (7737, [7736]); (7739, [7738]); (7741, [7740]); (7743, [7742]);
    (7745, [7744]); (7747, [7746]); (7749, [7748]); (7751, [7750]); (7753, [7752]);
    (7755, [7754]); (7757, [7756]); (7759, [7758]); (7761, [7760]); (7763, [7762]);
    (7765, [7764]); (7767, [7766]); (7769, [7768]); (7771, [7770]); (7773, [7772]);
    (7775, [7774]); (7777, [7776]); (7779, [7778]); (7781, [7780]); (7783, [7782]);
    (7785, [7784]); (7787, [7786]); (7789, [7788]); (7791, [7790]); (7793, [7792]);
    (7795, [7794]); (7797, [7796]); (7799, [7798]); (7801, [7800]); (7803, [7802]);
    (7805, [7804]); (7807, [7806]); (7809, [7808]); (7811, [7810]); (7813, [7812]);
    (7815, [7814]); (7817, [7816]); (7819, [7818]); (7821, [7820]); (7823, [7822]);
    (7825, [7824]); (7827, [7826]); (7829, [7828]); (7830, [72; 817]); (7831, [84; 776]);
    (7832, [87; 778]); (7833, [89; 778]); (7834, [65; 702]); (7835, [7776]); (7841, [7840]);
    (7843, [7842]); (7845, [7844]); (7847, [7846]); (7849, [7848]); (7851, [7850]);
    (7853, [7852]); (7855, [7854]); (7857, [7856]); (7859, [7858]); (7861, [7860]);
    (7863, [7862]); (7865, [7864]); (7867, [7866]); (7869, [7868]); (7871, [7870]);
    (7873, [7872]); (7875, [7874]); (7877, [7876]); (7879, [7878]); (7881, [7880]);
    (7883, [7882]); (7885, [7884]); (7887, [7886]); (7889, [7888]); (7891, [7890]);
    (7893, [7892]); (7895, [7894]); (7897, [7896]); (7899, [7898]); (7901, [7900]);
    (7903, [7902]); (7905, [7904]); (7907, [7906]); (7909, [7908]); (7911, [7910]);
    (7913, [7912]); (7915, [7914]); (7917, [7916]); (7919, [7918]); (7921, [7920]);
    (7923, [7922]); (7925, [7924]); (7927, [7926]); (7929, [7928]); (7931, [7930]);
    (7933, [7932]); (7935, [7934]); (7936, [7944]); (7937, [7945]); (7938, [7946]);
    (7939, [7947]); (7940, [7948]); (7941, [7949]); (7942, [7950]); (7943, [7951]);
    (7952, [7960]); (7953, [7961]); (7954, [7962]); (7955, [7963]); (7956, [7964]);
    (7957, [7965]); (7968, [7976]); (7969, [7977]); (7970, [7978]); (7971, [7979]);
    (7972, [7980]); (7973, [7981]); (7974, [7982]); (7975, [7983]); (7984, [7992]);
    (7985, [7993]); (7986, [7994]); (7987, [7995]); (7988, [7996]); (7989, [7997]);
    (7990, [7998]); (7991, [7999]); (8000, [8008]); (8001, [8009]); (8002, [8010]);
    (8003, [8011]); (8004, [8012]); (8005, [8013]); (8016, [933; 787]); (8017, [8025]);
    (8018, [933; 787; 768]); (8019, [8027]); (8020, [933; 787; 769]); (8021, [8029]);
    (8022, [933; 787; 834]); (8023, [8031]); (8032, [8040]); (8033, [8041]); (8034, [8042]);
    (8035, [8043]); (8036, [8044]); (8037, [8045]); (8038, [8046]); (8039, [8047]);
    (8048, [8122]); (8049, [8123]); (8050, [8136]); (8051, [8137]); (8052, [8138]);
    (8053, [8139]); (8054, [8154]); (8055, [8155]); (8056, [8184]); (8057, [8185]);
    (8058, [8170]); (8059, [8171]); (8060, [8186]); (8061, [8187]); (8064, [7944; 921]);
    (8065, [7945; 921]); (8066, [7946; 921]); (8067, [7947; 921]); (8068, [7948; 921]);
    (8069, [7949; 921]); (8070, [7950; 921]); (8071, [7951; 921]); (8072, [7944; 921]);
    (8073, [7945; 921]); (8074, [7946; 921]); (8075, [7947; 921]); (8076, [7948; 921]);
    (8077, [7949; 921]); (8078, [7950; 921]); (8079, [7951; 921]); (8080, [7976; 921]);
    (8081, [7977; 921]); (8082, [7978; 921]); (8083, [7979; 921]); (8084, [7980; 921]);
    (8085, [7981; 921]); (8086, [7982; 921]); (8087, [7983; 921]); (8088, [7976; 921]);
    (8089, [7977; 921]); (8090, [7978; 921]); (8091, [7979; 921]); (8092, [7980; 921]);
    (8093, [7981; 921]); (8094, [7982; 921]); (8095, [7983; 921]); (8096, [8040; 921]);
    (8097, [8041; 921]); (8098, [8042; 921]); (8099, [8043; 921]); (8100, [8044; 921]);
    (8101, [8045; 921]); (8102, [8046; 921]); (8103, [8047; 921]); (8104, [8040; 921]);
    (8105, [8041; 921]); (8106, [8042; 921]); (8107, [8043; 921]); (8108, [8044; 921]);
    (8109, [8045; 921]); (8110, [8046; 921]); (8111, [8047; 921]); (8112, [8120]);
    (8113, [8121]); (8114, [8122; 921]); (8115, [913; 921]); (8116, [902; 921]);
    (8118, [913; 834]); (8119, [913; 834; 921]); (8124, [913; 921]); (8126, [921]);
    (8130, [8138; 921]); (8131, [919; 921]); (8132, [905; 921]); (8134, [919; 834]);
    (8135, [919; 834; 921]); (8140, [919; 921]); (8144, [8152]); (8145, [8153]);
    (8146, [921; 776; 768]); (8147, [921; 776; 769]); (8150, [921; 834]);
    (8151, [921; 776; 834]); (8160, [8168]); (8161, [8169]); (8162, [933; 776; 768]);
    (8163, [933; 776; 769]); (8164, [929; 787]); (8165, [8172]); (8166, [933; 834]);
    (8167, [933; 776; 834]); (8178, [8186; 921]); (8179, [937; 921]); (8180, [911; 921]);
    (8182, [937; 834]); (8183, [937; 834; 921]); (8188, [937; 921]); (8526, [8498]);
    (8560, [8544]); (8561, [8545]); (8562, [8546]); (8563, [8547]); (8564, [8548]);
    (8565, [8549]); (8566, [8550]); (8567, [8551]); (8568, [8552]); (8569, [8553]);
    (8570, [8554]); (8571, [8555]); (8572, [8556]); (8573, [8557]); (8574, [8558]);
    (8575, [8559]); (8580, [8579]); (9424, [9398]); (9425, [9399]); (9426, [9400]);
    (9427, [9401]); (9428, [9402]); (9429, [9403]); (9430, [9404]); (9431, [9405]);
    (9432, [9406]); (9433, [9407]); (9434, [9408]); (9435, [9409]); (9436, [9410]);
    (9437, [9411]); (9438, [9412]); (9439, [9413]); (9440, [9414]); (9441, [9415]);
    (9442, [9416]); (9443, [9417]); (9444, [9418]); (9445, [9419]); (9446, [9420]);
    (9447, [9421]); (9448, [9422]); (9449, [9423]); (11312, [11264]); (11313, [11265]);
    (11314, [11266]); (11315, [11267]); (11316, [11268]); (11317, [11269]); (11318, [11270]);
    (11319, [11271]); (11320, [11272]); (11321, [11273]); (11322, [11274]); (11323, [11275]);
    (11324, [11276]); (11325, [11277]); (11326, [11278]); (11327, [11279]); (11328, [11280]);
    (11329, [11281]); (11330, [11282]); (11331, [11283]); (11332, [11284]); (11333, [11285]);
    (11334, [11286]); (11335, [11287]); (11336, [11288]); (11337, [11289]); (11338, [11290]);
    (11339, [11291]); (11340, [11292]); (11341, [11293]); (11342, [11294]); (11343, [11295]);
    (11344, [11296]); (11345, [11297]); (11346, [11298]); (11347, [11299]); (11348, [11300]);
    (11349, [11301]); (11350, [11302]); (11351, [11303]); (11352, [11304]); (11353, [11305]);
    (11354, [11306]); (11355, [11307]); (11356, [11308]); (11357, [11309]); (11358, [11310]);
    (11359, [11311]); (11361, [11360]); (11365, [570]); (11366, [574]); (11368, [11367]);
    (11370, [11369]); (11372, [11371]); (11379, [11378]); (11382, [11381]); (11393, [11392]);
    (11395, [11394]); (11397, [11396]); (11399, [11398]); (11401, [11400]); (11403, [11402]);
    (11405, [11404]); (11407, [11406]); (11409, [11408]); (11411, [11410]); (11413, [11412]);
    (11415, [11414]); (11417, [11416]); (11419, [11418]); (11421, [11420]); (11423, [11422]);
    (11425, [11424]); (11427, [11426]); (11429, [11428]); (11431, [11430]); (11433, [11432]);
    (11435, [11434]); (11437, [11436]); (11439, [11438]); (11441, [11440]); (11443, [11442]);
    (11445, [11444]); (11447, [11446]); (11449, [11448]); (11451, [11450]); (11453, [11452]);
    (11455, [11454]); (11457, [11456]); (11459, [11458]); (11461, [11460]); (11463, [11462]);
    (11465, [11464]); (11467, [11466]); (11469, [11468]); (11471, [11470]); (11473, [11472]);
    (11475, [11474]); (11477, [11476]); (11479, [11478]); (11481, [11480]); (11483, [11482]);
    (11485, [11484]); (11487, [11486]); (11489, [11488]); (11491, [11490]); (11500, [11499]);
    (11502, [11501]); (11507, [11506]); (11520, [4256]); (11521, [4257]); (11522, [4258]);
    (11523, [4259]); (11524, [4260]); (11525, [4261]); (11526, [4262]); (11527, [4263]);
    (11528, [4264]); (11529, [4265]); (11530, [4266]); (11531, [4267]); (11532, [4268]);
    (11533, [4269]); (11534, [4270]); (11535, [4271]); (11536, [4272]); (11537, [4273]);
    (11538, [4274]); (11539, [4275]); (11540, [4276]); (11541, [4277]); (11542, [4278]);
    (11543, [4279]); (11544, [4280]); (11545, [4281]); (11546, [4282]); (11547, [4283]);
    (11548, [4284]); (11549, [4285]); (11550, [4286]); (11551, [4287]); (11552, [4288]);
    (11553, [4289]); (11554, [4290]); (11555, [4291]); (11556, [4292]); (11557, [4293]);
    (11559, [4295]); (11565, [4301]); (42561, [42560]); (42563, [42562]); (42565, [42564]);
    (42567, [42566]); (42569, [42568]); (42571, [42570]); (42573, [42572]); (42575, [42574]);
    (42577, [42576]); (42579, [42578]); (42581, [42580]); (42583, [42582]); (42585, [42584]);
    (42587, [42586]); (42589, [42588]); (42591, [42590]); (42593, [42592]); (42595, [42594]);
    (42597, [42596]); (42599, [42598]); (42601, [42600]); (42603, [42602]); (42605, [42604]);
    (42625, [42624]); (42627, [42626]); (42629, [42628]); (42631, [42630]); (42633, [42632]);
    (42635, [42634]); (42637, [42636]); (42639, [42638]); (42641, [42640]); (42643, [42642]);
    (42645, [42644]); (42647, [42646]); (42649, [42648]); (42651, [42650]); (42787, [42786]);
    (42789, [42788]); (42791, [42790]); (42793, [42792]); (42795, [42794]); (42797, [42796]);
    (42799, [42798]); (42803, [42802]); (42805, [42804]); (42807, [42806]); (42809, [42808]);
    (42811, [42810]); (42813, [42812]); (42815, [42814]); (42817, [42816]); (42819, [42818]);
    (42821, [42820]); (42823, [42822]); (42825, [42824]); (42827, [42826]); (42829, [42828]);
    (42831, [42830]); (42833, [42832]); (42835, [42834]); (42837, [42836]); (42839, [42838]);
    (42841, [42840]); (42843, [42842]); (42845, [42844]); (42847, [42846]); (42849, [42848]);
    (42851, [42850]); (42853, [42852]); (42855, [42854]); (42857, [42856]); (42859, [42858]);
    (42861, [42860]); (42863, [42862]); (42874, [42873]); (42876, [42875]); (42879, [42878]);
    (42881, [42880]); (42883, [42882]); (42885, [42884]); (42887, [42886]); (42892, [42891]);
    (42897, [42896]); (42899, [42898]); (42900, [42948]); (42903, [42902]); (42905, [42904]);
    (42907, [42906]); (42909, [42908]); (42911, [42910]); (42913, [42912]); (42915, [42914]);
    (42917, [42916]); (42919, [42918]); (42921, [42920]); (42933, [42932]); (42935, [42934]);
    (42937, [42936]); (42939, [42938]); (42941, [42940]); (42943, [42942]); (42945, [42944]);
    (42947, [42946]); (42952, [42951]); (42954, [42953]); (42961, [42960]); (42967, [42966]);
    (42969, [42968]); (42998, [42997]); (43859, [42931]); (43888, [5024]); (43889, [5025]);
    (43890, [5026]); (43891, [5027]); (43892, [5028]); (43893, [5029]); (43894, [5030]);
    (43895, [5031]); (43896, [5032]); (43897, [5033]); (43898, [5034]); (43899, [5035]);
    (43900, [5036]); (43901, [5037]); (43902, [5038]); (43903, [5039]); (43904, [5040]);
    (43905, [5041]); (43906, [5042]); (43907, [5043]); (43908, [5044]); (43909, [5045]);
    (43910, [5046]); (43911, [5047]); (43912, [5048]); (43913, [5049]); (43914, [5050]);
    (43915, [5051]); (43916, [5052]); (43917, [5053]); (43918, [5054]); (43919, [5055]);
    (43920, [5056]); (43921, [5057]); (43922, [5058]); (43923, [5059]); (43924, [5060]);
    (43925, [5061]); (43926, [5062]); (43927, [5063]); (43928, [5064]); (43929, [5065]);
    (43930, [5066]); (43931, [5067]); (43932, [5068]); (43933, [5069]); (43934, [5070]);
    (43935, [5071]); (43936, [5072]); (43937, [5073]); (43938, [5074]); (43939, [5075]);
    (43940, [5076]); (43941, [5077]); (43942, [5078]); (43943, [5079]); (43944, [5080]);
    (43945, [5081]); (43946, [5082]); (43947, [5083]); (43948, [5084]); (43949, [5085]);
    (43950, [5086]); (43951, [5087]); (43952, [5088]); (43953, [5089]); (43954, [5090]);
    (43955, [5091]); (43956, [5092]); (43957, [5093]); (43958, [5094]); (43959, [5095]);
    (43960, [5096]); (43961, [5097]); (43962, [5098]); (43963, [5099]); (43964, [5100]);
    (43965, [5101]); (43966, [5102]); (43967, [5103]); (64256, [70; 70]); (64257, [70; 73]);
    (64258, [70; 76]); (64259, [70; 70; 73]); (64260, [70; 70; 76]); (64261, [83; 84]);
    (64262, [83; 84]); (64275, [1348; 1350]); (64276, [1348; 1333]); (64277, [1348; 1339]);
    (64278, [1358; 1350]); (64279, [1348; 1341]); (65345, [65313]); (65346, [65314]);
    (65347, [65315]); (65348, [65316]); (65349, [65317]); (65350, [65318]); (65351, [65319]);
    (65352, [65320]); (65353, [65321]); (65354, [65322]); (65355, [65323]); (65356, [65324]);
    (65357, [65325]); (65358, [65326]); (65359, [65327]); (65360, [65328]); (65361, [65329]);
    (65362, [65330]); (65363, [65331]); (65364, [65332]); (65365, [65333]); (65366, [65334]);
    (65367, [65335]); (65368, [65336]); (65369, [65337]); (65370, [65338]); (66600, [66560]);
    (66601, [66561]); (66602, [66562]); (66603, [66563]); (66604, [66564]); (66605, [66565]);
    (66606, [66566]); (66607, [66567]); (66608, [66568]); (66609, [66569]); (66610, [66570]);
    (66611, [66571]); (66612, [66572]); (66613, [66573]); (66614, [66574]); (66615, [66575]);
    (66616, [66576]); (66617, [66577]); (66618, [66578]); (66619, [66579]); (66620, [66580]);
    (66621, [66581]); (66622, [66582]); (66623, [66583]); (66624, [66584]); (66625, [66585]);
    (66626, [66586]); (66627, [66587]); (66628, [66588]); (66629, [66589]); (66630, [66590]);
    (66631, [66591]); (66632, [66592]); (66633, [66593]); (66634, [66594]); (66635, [66595]);
    (66636, [66596]); (66637, [66597]); (66638, [66598]); (66639, [66599]); (66776, [66736]);
    (66777, [66737]); (66778, [66738]); (66779, [66739]); (66780, [66740]); (66781, [66741]);
    (66782, [66742]); (66783, [66743]); (66784, [66744]); (66785, [66745]); (66786, [66746]);
    (66787, [66747]); (66788, [66748]); (66789, [66749]); (66790, [66750]); (66791, [66751]);
    (66792, [66752]); (66793, [66753]); (66794, [66754]); (66795, [66755]); (66796, [66756]);
    (66797, [66757]); (66798, [66758]); (66799, [66759]); (66800, [66760]); (66801, [66761]);
    (66802, [66762]); (66803, [66763]); (66804, [66764]); (66805, [66765]); (66806, [66766]);
    (66807, [66767]); (66808, [66768]); (66809, [66769]); (66810, [66770]); (66811, [66771]);
    (66967, [66928]); (66968, [66929]); (66969, [66930]); (66970, [66931]); (66971, [66932]);
    (66972, [66933]); (66973, [66934]); (66974, [66935]); (66975, [66936]); (66976, [66937]);
    (66977, [66938]); (66979, [66940]); (66980, [66941]); (66981, [66942]); (66982, [66943]);
    (66983, [66944]); (66984, [66945]); (66985, [66946]); (66986, [66947]); (66987, [66948]);
    (66988, [66949]); (66989, [66950]); (66990, [66951]); (66991, [66952]); (66992, [66953]);
    (66993, [66954]); (66995, [66956]); (66996, [66957]); (66997, [66958]); (66998, [66959]);
    (66999, [66960]); (67000, [66961]); (67001, [66962]); (67003, [66964]); (67004, [66965]);
    (68800, [68736]); (68801, [68737]); (68802, [68738]); (68803, [68739]); (68804, [68740]);
    (68805, [68741]); (68806, [68742]); (68807, [68743]); (68808, [68744]); (68809, [68745]);
    (68810, [68746]); (68811, [68747]); (68812, [68748]); (68813, [68749]); (68814, [68750]);
    (68815, [68751]); (68816, [68752]); (68817, [68753]); (68818, [68754]); (68819, [68755]);
    (68820, [68756]); (68821, [68757]); (68822, [68758]); (68823, [68759]); (68824, [68760]);
    (68825, [68761]); (68826, [68762]); (68827, [68763]); (68828, [68764]); (68829, [68765]);
    (68830, [68766]); (68831, [68767]); (68832, [68768]); (68833, [68769]); (68834, [68770]);
    (68835, [68771]); (68836, [68772]); (68837, [68773]); (68838, [68774]); (68839, [68775]);
    (68840, [68776]); (68841, [68777]); (68842, [68778]); (68843, [68779]); (68844, [68780]);
    (68845, [68781]); (68846, [68782]); (68847, [68783]); (68848, [68784]); (68849, [68785]);
    (68850, [68786]); (71872, [71840]); (71873, [71841]); (71874, [71842]); (71875, [71843]);
    (71876, [71844]); (71877, [71845]); (71878, [71846]); (71879, [71847]); (71880, [71848]);
    (71881, [71849]); (71882, [71850]); (71883, [71851]); (71884, [71852]); (71885, [71853]);
    (71886, [71854]); (71887, [71855]); (71888, [71856]); (71889, [71857]); (71890, [71858]);
    (71891, [71859]); (71892, [71860]); (71893, [71861]); (71894, [71862]); (71895, [71863]);
    (71896, [71864]); (71897, [71865]); (71898, [71866]); (71899, [71867]); (71900, [71868]);
    (71901, [71869]); (71902, [71870]); (71903, [71871]); (93792, [93760]); (93793, [93761]);
    (93794, [93762]); (93795, [93763]); (93796, [93764]); (93797, [93765]); (93798, [93766]);
    (93799, [93767]); (93800, [93768]); (93801, [93769]); (93802, [93770]); (93803, [93771]);
    (93804, [93772]); (93805, [93773]); (93806, [93774]); (93807, [93775]); (93808, [93776]);
    (93809, [93777]); (93810, [93778]); (93811, [93779]); (93812, [93780]); (93813, [93781]);
    (93814, [93782]); (93815, [93783]); (93816, [93784]); (93817, [93785]); (93818, [93786]);
    (93819, [93787]); (93820, [93788]); (93821, [93789]); (93822, [93790]); (93823, [93791]);
    (125218, [125184]); (125219, [125185]); (125220, [125186]); (125221, [125187]);
    (125222, [125188]); (125223, [125189]); (125224, [125190]); (125225, [125191]);
    (125226, [125192]); (125227, [125193]); (125228, [125194]); (125229, [125195]);
    (125230, [125196]); (125231, [125197]); (125232, [125198]); (125233, [125199]);
    (125234, [125200]); (125235, [125201]); (125236, [125202]); (125237, [125203]);
    (125238, [125204]); (125239, [125205]); (125240, [125206]); (125241, [125207]);
    (125242, [125208]); (125243, [125209]); (125244, [125210]); (125245, [125211]);
    (125246, [125212]); (125247, [125213]); (125248, [125214]); (125249, [125215]);
    (125250, [125216]); (125251, [125217])
  ]%N.

Definition upper_case_mappings : list (string * string) :=
  Eval vm_compute in map (fun m => (utf8 m.1, join (map utf8 m.2))) upper_case_code_points.

(** One character in upper case. *)
Definition upper_char (ch : string) : string :=
  match ch with
  | String c EmptyString => String (upper_ascii c) EmptyString
  | _ =>
      match List.find (fun m => String.eqb m.1 ch) upper_case_mappings with
      | Some m => m.2
      | None => ch
      end
  end.

(** [s.toUpperCase()] *)
Definition toUpperCase (s : string) : string := join (map upper_char (chars s)).

(** [s.replace(/\s/g, '')] *)
Definition remove_spaces (s : string) : string :=
  join (List.filter (fun ch => negb (is_space ch)) (chars s)).

(** The characters that are left when the white space in front is taken
    off. *)
Fixpoint drop_spaces (chs : list string) : list string :=
  match chs with
  | [] => []
  | ch :: chs' => if is_space ch then drop_spaces chs' else chs
  end.

(** [s.trim()]: the white space in front and at the end is taken off. *)
Definition trim (s : string) : string :=
  join (rev (drop_spaces (rev (drop_spaces (chars s))))).

(** [s.split(sep)] for a one-character separator: never an empty array. *)
Fixpoint split (sep : ascii) (s : string) : list string :=
  match s with
  | EmptyString => [EmptyString]
  | String c s' =>
      if Ascii.eqb c sep then EmptyString :: split sep s'
      else match split sep s' with
           | seg :: segs => String c seg :: segs
           | [] => [String c EmptyString]
           end
  end.

(** [s.startsWith(p)] *)
Definition startsWith (s p : string) : bool := String.prefix p s.

(** [s.includes(p)] *)
Fixpoint includes (s p : string) : bool :=
  String.prefix p s ||
  match s with
  | EmptyString => false
  | String _ s' => includes s' p
  end.

Fixpoint all_chars (f : ascii -> bool) (s : string) : bool :=
  match s with
  | EmptyString => true
  | String c s' => f c && all_chars f s'
  end.

Fixpoint any_char (f : ascii -> bool) (s : string) : bool :=
  match s with
  | EmptyString => false
  | String c s' => f c || any_char f s'
  end.

Definition is_slash (c : ascii) : bool := Ascii.eqb c "/".

Fixpoint drop_chars (n : nat) (s : string) : string :=
  match n, s with
  | S n', String _ s' => drop_chars n' s'
  | _, _ => s
  end.

(** [s.replace(pat, rep)] for a string [pat]: the first occurrence only. *)
Fixpoint replace_first (pat rep s : string) : string :=
  if String.prefix pat s then rep +:+ drop_chars (String.length pat) s
  else match s with
       | EmptyString => EmptyString
       | String c s' => String c (replace_first pat rep s')
       end.

End JsString.

(** ** JS Numbers that come from strings of digits *)

Module JsNumber.
Import JsString.

Local Open Scope Z_scope.

(** The integer a string of decimal digits denotes. *)
Fixpoint decimal_value (acc : Z) (s : string) : Z :=
  match s with
  | EmptyString => acc
  | String c s' => decimal_value (10 * acc + digit_value c) s'
  end.

(** What stands for [Infinity]: it is above every finite binary64 value,
    so [!==] and the sign of a difference come out as they do in JS. *)
Definition infinity : Z := 2 ^ 1024.

(** Rounding of a natural number to a binary64 value: 53 significant bits,
    ties to even, overflow to [Infinity]. *)
Definition round_binary64 (n : Z) : Z :=
  if n <? 2 ^ 53 then n
  else
    let e := Z.log2 n - 52 in
    let q := n / 2 ^ e in
    let r := n mod 2 ^ e in
    let half := 2 ^ (e - 1) in
    let q' := if (half <? r) || ((r =? half) && Z.odd q) then q + 1 else q in
    let v := q' * 2 ^ e in
    if infinity <=? v then infinity else v.

(** [Number(s)] where [s] is a piece of a version name: a string of digits
    (the empty string gives 0).  Only names that passed the digit-dot filter
    are ever split and converted, so every other string is left as [NaN]. *)
Definition Number (s : string) : option Z :=
  if all_chars is_digit s then Some (round_binary64 (decimal_value 0 s)) else None.

End JsNumber.

(** ** Array.prototype.sort *)

Module JsArray.

Local Open Scope Z_scope.

Section Sort.
Context {A : Type}.
(** The comparator: negative when its first argument goes first. *)
Variable compareFn : A -> A -> Z.

(** [x] goes in front of the first element that it does not have to
    follow. *)
Fixpoint insert_before (x : A) (l : list A) : list A :=
  match l with
  | [] => [x]
  | y :: l' => if compareFn x y <=? 0 then x :: l else y :: insert_before x l'
  end.

(** [l.sort(compareFn)].  The sort of ES2019 is stable, and for a comparator
    that is a total preorder the stable sorted arrangement of a list is
    unique: this insertion sort computes it. *)
Fixpoint sort (l : list A) : list A :=
  match l with
  | [] => []
  | x :: l' => insert_before x (sort l')
  end.

(** [x] may stand in front of [y]. *)
Definition before (x y : A) : Prop := compareFn x y <= 0.

(** [x] and [y] tie. *)
Definition ties (x y : A) : bool := compareFn x y =? 0.
End Sort.

End JsArray.

(** ** The archive that travels from the host to the client *)

Module Tar.

(** What an archive entry carries. *)
Inductive entry_kind :=
| Directory
| File (content : string).

(** An entry: its path, split at the slashes, and what it carries.  Paths are
    relative and have no [.] or [..] segment. *)
Definition entry : Type := list string * entry_kind.

(** A tar.gz stream, as [tar.x] finds it.
    - [Intact entries]: the stream can be read to its end and holds these
      entries, in this order; the promise of [tar.x] resolves.  Bytes in
      which [tar.x] finds no entry at all are such a stream, without
      entries: not being strict, it reports them as a warning only.
    - [Damaged written reason]: the gzip stream is cut short or corrupt, and
      the promise of [tar.x] rejects with an error whose message is
      [reason].  [tar.x] writes its files asynchronously and the rejection
      does not wait for them: [written] are the entries that are on disk by
      then, possibly none of those that the stream held. *)
Inductive archive :=
| Intact (entries : list entry)
| Damaged (written : list entry) (reason : string).

(** The entries that [tar.x] unpacks before its promise settles. *)
Definition entries (a : archive) : list entry :=
  match a with
  | Intact entries => entries
  | Damaged written _ => written
  end.

Definition intact (a : archive) : bool :=
  match a with
  | Intact _ => true
  | Damaged _ _ => false
  end.

End Tar.

(** ** What travels over HTTP *)

Module Http.

(** The JSON bodies of the three endpoints. *)
Inductive body :=
| ErrorBody (error : string)
| VersionsBody (versions : list string) (latest : option string)
| HealthBody (versions : list string).

(** A response: JSON with its status, or the download (status 200,
    [Content-Type: application/gzip]).  Of the [Content-Disposition] header
    the model keeps the file name it quotes, which is what the client's
    [/filename="(.+)"/] reads back; [None] when the header is missing or
    carries no such name. *)
Inductive response :=
| Json (status : nat) (b : body)
| Attachment (filename : option string) (data : Tar.archive).

(** [req.query.version]: missing, a string, or the array or object that the
    query parser builds for [version[]=..]. *)
Inductive query_value :=
| Absent
| Str (s : string)
| Other.

Inductive request :=
| GetVersions
| GetUpdates (version : query_value)
| GetHealth.

(** A server as a client sees it: [None] when the request gets no response at
    all (connection refused, timeout).  A response is one that arrives as
    a whole, headers and body. *)
Definition remote : Type := request -> option response.

End Http.

(** ** The host: Updates-Server.js and TARer.js *)

Module Host.
Import JsString JsNumber JsArray Http.

(** *** The version catalog *)

(** [/^\d+(\.\d+)*$/.test(s)], as the automaton of the expression:
    [need_digit] holds at the start and right after a dot. *)
Fixpoint version_re_from (need_digit : bool) (s : string) : bool :=
  match s with
  | EmptyString => negb need_digit
  | String c s' =>
      if is_digit c then version_re_from false s'
      else if Ascii.eqb c "." then negb need_digit && version_re_from true s'
      else false
  end.

Definition version_re_test (s : string) : bool := version_re_from true s.

(** [v.split('.').map(Number)] *)
Definition parts (v : string) : list (option Z) := map Number (split "." v).

(** [ps[i] || 0]: 0 for a missing component, for [NaN] and for 0. *)
Definition part_or_0 (ps : list (option Z)) (i : nat) : Z :=
  match ps !! i with
  | Some (Some n) => n
  | _ => 0%Z
  end.

(** The [for] loop of the comparator from index [i], with [todo] rounds to go. *)
Fixpoint compare_from (partsA partsB : list (option Z)) (i todo : nat) : Z :=
  match todo with
  | O => 0%Z
  | S todo' =>
      let numA := part_or_0 partsA i in
      let numB := part_or_0 partsB i in
      if negb (numA =? numB)%Z then (numB - numA)%Z
      else compare_from partsA partsB (S i) todo'
  end.

(** The comparator given to [sort]. *)
Definition compareVersions (a b : string) : Z :=
  let partsA := parts a in
  let partsB := parts b in
  let maxLength := Nat.max (length partsA) (length partsB) in
  compare_from partsA partsB 0 maxLength.

(** What [get_versions] returns: [{ Status: true, versions }] or
    [{ Status: false, error }]. *)
Inductive V_Found :=
| StatusTrue (versions : list string)
| StatusFalse (error : string).

(** [sortVersionsDescending].  Its argument is a list of strings, so the
    [Array.isArray] and [typeof] tests hold, and neither the filter nor the
    comparator can throw. *)
Definition sortVersionsDescending (versions : list string) : V_Found :=
  let filteredAndSorted := sort compareVersions (List.filter version_re_test versions) in
  StatusTrue filteredAndSorted.

(** *** The package root on disk *)

(** What an entry of the package root is. For a directory: what a walk of it
    finds, each path relative to the directory. *)
Inductive fs_node :=
| FsFile (content : string)
| FsDirectory (walk : list Tar.entry)
| FsOther.

Record dirent := { name : string; node : fs_node }.

Definition isDirectory (d : dirent) : bool :=
  match node d with
  | FsDirectory _ => true
  | _ => false
  end.

(** The host's disk: the entries of [BASE_DIR] in the order [readdirSync]
    lists them, or [None] when reading it throws. *)
Record host := { readdirSync : option (list dirent) }.

(** [getFolders(BASE_DIR)]: an error of [readdirSync] is caught and logged,
    and the answer is then the empty array. *)
Definition getFolders (h : host) : list string :=
  match readdirSync h with
  | Some items => map name (List.filter isDirectory items)
  | None => []
  end.

(** [get_versions()]: neither callee throws, so the [catch] is never taken. *)
Definition get_versions (h : host) : V_Found :=
  let versions := getFolders h in
  let sorted := sortVersionsDescending versions in
  sorted.

(** *** Paths (POSIX [path]) *)

(** An absolute path is the list of its segments; [path_string] writes it. *)
Definition path_string (p : list string) : string :=
  match p with
  | [] => "/"
  | _ => foldr (fun seg rest => "/" +:+ seg +:+ rest) "" p
  end.

(** [normalizeString] over the segments of an absolute path: empty and [.]
    segments are dropped, [..] removes the segment before it and is dropped at
    the root.  [stack] holds the result so far, last segment first. *)
Fixpoint normalize_onto (stack segs : list string) : list string :=
  match segs with
  | [] => rev stack
  | seg :: segs' =>
      if String.eqb seg "" || String.eqb seg "." then normalize_onto stack segs'
      else if String.eqb seg ".." then normalize_onto (tail stack) segs'
      else normalize_onto (seg :: stack) segs'
  end.

Definition path_normalize (segs : list string) : list string := normalize_onto [] segs.

(** [path.join(p, ...args)] for an absolute [p]. *)
Definition path_join (p : list string) (args : list string) : list string :=
  path_normalize (p ++ flat_map (split "/") args)%list.

(** [path.resolve(p)] for an absolute [p]. *)
Definition path_resolve (p : list string) : list string := path_normalize p.

(** A segment that [normalizeString] keeps as it is. *)
Definition plain (seg : string) : Prop := seg ≠ "" ∧ seg ≠ "." ∧ seg ≠ "..".

(** [path.basename(p)] *)
Definition path_basename (p : list string) : string := List.last p "".

(** [s] is truthy *)
Definition truthy (s : string) : bool := negb (String.eqb s "").

Section Server.
(** [__dirname]: the segments of the directory that holds Updates-Server.js. *)
Variable dirname : list string.

Definition BASE_DIR : list string := path_join dirname [".."; "app"].

(** What is on disk at an absolute path.  The model knows the entries of
    [BASE_DIR]; nothing else is there. *)
Definition stat (h : host) (p : list string) : option fs_node :=
  match readdirSync h with
  | Some items =>
      if decide (p = (BASE_DIR ++ [path_basename p])%list)
      then node <$> List.find (fun d => String.eqb (name d) (path_basename p)) items
      else None
  | None => None
  end.

Definition existsSync (h : host) (p : list string) : bool :=
  match stat h p with
  | Some _ => true
  | None => false
  end.

(** [fs.statSync(p).isDirectory()], asked only after [existsSync]. *)
Definition statSync_isDirectory (h : host) (p : list string) : bool :=
  match stat h p with
  | Some (FsDirectory _) => true
  | _ => false
  end.

(** TARer.js [createTarStream(folderPath)]: [tar.create] with
    [cwd = dirname(folderPath)] over [basename(folderPath)], so every entry
    starts with the folder's name; when the folder is missing or not a
    directory, a stream that ends at once. *)
Definition createTarStream (h : host) (folderPath : list string) : Tar.archive :=
  match stat h folderPath with
  | Some (FsDirectory walk) =>
      let top := path_basename folderPath in
      Tar.Intact (([top], Tar.Directory) :: map (fun e : Tar.entry => (top :: e.1, e.2)) walk)
  | _ => Tar.Intact []
  end.

(** [GET /versions]: what the handler answers once it has [V_Found]. *)
Definition respond_versions (found : V_Found) : response :=
  match found with
  | StatusFalse error => Json 500 (ErrorBody error)
  | StatusTrue versions => Json 200 (VersionsBody versions (head versions))
  end.

(** [GET /versions] *)
Definition get_versions_endpoint (h : host) : response :=
  let V_Found := get_versions h in
  respond_versions V_Found.

(** Lines 104-119 of [GET /updates]: from the requested string to an entry
    of the non-empty catalog [versions], or to the early 404. *)
Definition find_requested (versions : list string) (first version : string)
    : response + string :=
  if String.eqb (toUpperCase version) "LATEST" then inr first
  else
    let cleanVersion := remove_spaces version in
    match List.find (fun v => String.eqb (toUpperCase v) (toUpperCase cleanVersion)) versions with
    | Some foundVersion =>
        if truthy foundVersion then inr foundVersion
        else inl (Json 404 (ErrorBody ("Version " +:+ version +:+
               " not found, try a different version or 'version=LATEST' to get the latest version")))
    | None =>
        inl (Json 404 (ErrorBody ("Version " +:+ version +:+
               " not found, try a different version or 'version=LATEST' to get the latest version")))
    end.

(** Lines 121-158 of [GET /updates]: the containment check, the check that
    the folder is there, and the download. *)
Definition send_version (h : host) (version : string) : response :=
  let folderPath := path_join BASE_DIR [version] in
  let resolvedPath := path_resolve folderPath in
  if negb (startsWith (path_string resolvedPath) (path_string BASE_DIR))
  then Json 403 (ErrorBody "Invalid version path")
  else if negb (existsSync h resolvedPath) || negb (statSync_isDirectory h resolvedPath)
  then Json 404 (ErrorBody ("Version " +:+ version +:+ " not found"))
  else
    let tarStream := createTarStream h resolvedPath in
    let filename := version +:+ ".tar.gz" in
    Attachment (Some filename) tarStream.

(** [GET /updates].  A [version] that is not a string has no
    [toUpperCase]: the [TypeError] is caught and answered with 500. *)
Definition get_updates (h : host) (q : query_value) : response :=
  let version :=
    match q with
    | Absent => Str "LATEST"
    | Str s => if truthy s then Str s else Str "LATEST"
    | Other => Other
    end in
  match get_versions h with
  | StatusFalse error => Json 403 (ErrorBody error)
  | StatusTrue versions =>
      match versions with
      | [] => Json 404 (ErrorBody "No available releases for this app")
      | first :: _ =>
          match version with
          | Str version =>
              match find_requested versions first version with
              | inl early => early
              | inr version => send_version h version
              end
          | _ => Json 500 (ErrorBody "Internal server error")
          end
      end
  end.

(** [GET /health]; the timestamp is left out. *)
Definition get_health (h : host) : response :=
  match get_versions h with
  | StatusTrue versions => Json 200 (HealthBody versions)
  | StatusFalse _ => Json 200 (HealthBody [])
  end.

(** The running server. *)
Definition serve (h : host) : remote :=
  fun req =>
    Some match req with
         | GetVersions => get_versions_endpoint h
         | GetUpdates q => get_updates h q
         | GetHealth => get_health h
         end.
End Server.

End Host.

(** ** The client: Updates-Client.js *)

Module Client.
Import JsString Http.

(** A line on the console. *)
Inductive line :=
| Log (msg : string)
| Error (msg : string).

(** The files of [this.appPath]: what is at each relative path. *)
Abbreviation directory := (gmap (list string) Tar.entry_kind).

(** The client's disk and console.
    - [app]: the application directory, [None] when it does not exist;
    - [versionFile]: the content of version.txt, [None] when there is no
      such file;
    - [downloads]: the files of the downloads directory by name (the
      directory is made when it is missing);
    - [console]: what has been printed, oldest line first. *)
Record client := {
  app : option directory;
  versionFile : option string;
  downloads : gmap string Tar.archive;
  console : list line
}.

(** What a rejected promise or a [throw] carries.  [BadArchive] is the
    error of [tar.x], with the message that the library gave it. *)
Inductive error :=
| NetworkError
| RequestFailed (status : nat)
| NoSuchFile (path : string)
| BadArchive (reason : string).

(** [error.message].  For a request without a response axios passes on the
    text of the failure in the network, which differs from failure to
    failure; the model has one text in its place, and no property below
    says what it is. *)
Definition message (e : error) : string :=
  match e with
  | NetworkError => "Network Error"
  | RequestFailed status => "Request failed with status code " +:+ pretty status
  | NoSuchFile path => "ENOENT: no such file or directory, open '" +:+ path +:+ "'"
  | BadArchive reason => reason
  end.

(** *** Running JS statements over the client's state *)

Inductive outcome (A : Type) :=
| Returns (a : A)
| Throws (e : error).
Arguments Returns {A} a.
Arguments Throws {A} e.

Definition M (A : Type) : Type := client -> outcome A * client.

Definition ret {A} (a : A) : M A := fun c => (Returns a, c).

Definition throw {A} (e : error) : M A := fun c => (Throws e, c).

Definition bind {A B} (m : M A) (k : A -> M B) : M B :=
  fun c =>
    match m c with
    | (Returns a, c') => k a c'
    | (Throws e, c') => (Throws e, c')
    end.

(** [try { m } catch (error) { handler }] *)
Definition try_catch {A} (m : M A) (handler : error -> M A) : M A :=
  fun c =>
    match m c with
    | (Returns a, c') => (Returns a, c')
    | (Throws e, c') => handler e c'
    end.

Declare Scope js_scope.
Delimit Scope js_scope with js.
Bind Scope js_scope with M.
Notation "x <- m ;; k" := (bind m (fun x => k))
  (at level 20, m at level 99, k at level 200, only parsing) : js_scope.
Notation "m ;; k" := (bind m (fun _ => k))
  (at level 100, k at level 200, only parsing, right associativity) : js_scope.
Local Open Scope js_scope.

Definition console_log (msg : string) : M unit :=
  fun c => (Returns tt,
            {| app := app c; versionFile := versionFile c; downloads := downloads c;
               console := console c ++ [Log msg] |}).

Definition console_error (msg : string) : M unit :=
  fun c => (Returns tt,
            {| app := app c; versionFile := versionFile c; downloads := downloads c;
               console := console c ++ [Error msg] |}).

Definition set_app (a : option directory) : M unit :=
  fun c => (Returns tt,
            {| app := a; versionFile := versionFile c; downloads := downloads c;
               console := console c |}).

Definition set_downloads (d : gmap string Tar.archive) : M unit :=
  fun c => (Returns tt,
            {| app := app c; versionFile := versionFile c; downloads := d;
               console := console c |}).

(** [fs.existsSync(this.appPath)] *)
Definition existsSync_app : M bool :=
  fun c => (Returns (bool_decide (is_Some (app c))), c).

(** [fs.rmSync(this.appPath, { recursive: true, force: true })] *)
Definition rmSync_app : M unit := set_app None.

(** [fs.mkdirSync(this.appPath, { recursive: true })]: a directory that is
    there is left as it is. *)
Definition mkdirSync_app : M unit :=
  fun c =>
    match app c with
    | Some _ => (Returns tt, c)
    | None => set_app (Some ∅) c
    end.

(** [fs.writeFileSync(this.versionFile, data)] *)
Definition write_versionFile (data : string) : M unit :=
  fun c => (Returns tt,
            {| app := app c; versionFile := Some data; downloads := downloads c;
               console := console c |}).

(** *** tar.x *)

(** [strip: n] on one entry: an entry with fewer than [n] segments is passed
    over, the others lose their first [n] segments. *)
Definition strip (n : nat) (e : Tar.entry) : option Tar.entry :=
  if (length e.1 <? n)%nat then None else Some (drop n e.1, e.2).

(** One entry unpacked into the directory [dir].  After the strip, a path with
    no segment left is the target directory itself: a directory entry changes
    nothing there, any other entry is passed over.  [dir] lists what the
    entries put there.  [tar.x] also makes the directories above the place
    of an entry when they are missing; [tar.create] writes the entry of a
    directory before the entries of what is in it, so in the archives of the
    host none is missing.  Of other archives the properties below say no
    more than that a path of the directory lies on the path of an entry. *)
Definition unpack (dir : directory) (e : Tar.entry) : directory :=
  match strip 1 e with
  | Some ([], _) => dir
  | Some (p, k) => <[p := k]> dir
  | None => dir
  end.

(** What the entries of [a] leave in an empty directory. *)
Definition unpacked (a : Tar.archive) : directory := foldl unpack ∅ (Tar.entries a).

(** [tar.x({ file, cwd: this.appPath, strip: 1 })].  The entries of an
    intact stream are unpacked in order and the promise resolves.  For a
    damaged stream the promise rejects with the error of the library, and the
    directory then holds what [tar.x] had written by that time. *)
Definition tar_x (file : string) : M unit :=
  fun c =>
    match downloads c !! file, app c with
    | None, _ => (Throws (NoSuchFile file), c)
    | Some _, None => (Throws (NoSuchFile "cwd"), c)
    | Some a, Some dir =>
        let c' := {| app := Some (foldl unpack dir (Tar.entries a));
                     versionFile := versionFile c; downloads := downloads c;
                     console := console c |} in
        match a with
        | Tar.Intact _ => (Returns tt, c')
        | Tar.Damaged _ reason => (Throws (BadArchive reason), c')
        end
    end.

(** *** The methods of UpdateClient *)

Section UpdateClient.
(** The server behind [this.serverUrl]. *)
Variable server : remote.

(** axios: the promise resolves for a status from 200 to 299 and rejects
    otherwise. *)
Definition request_outcome (req : request) : outcome response :=
  match server req with
  | None => Throws NetworkError
  | Some (Json status b) =>
      if (200 <=? status)%nat && (status <? 300)%nat then Returns (Json status b)
      else Throws (RequestFailed status)
  | Some (Attachment filename data) => Returns (Attachment filename data)
  end.

(** [await axios(...)]: nothing of the client changes. *)
Definition axios (req : request) : M response :=
  fun c => (request_outcome req, c).

(** [response.data && response.data.versions] *)
Definition data_versions (r : response) : option (list string) :=
  match r with
  | Json _ (VersionsBody versions _) => Some versions
  | Json _ (HealthBody versions) => Some versions
  | _ => None
  end.

(** What [response.data.pipe(writer)] leaves in the file: the archive, or,
    for a JSON answer, bytes in which [tar.x] finds no entry. *)
Definition piped (r : response) : Tar.archive :=
  match r with
  | Attachment _ data => data
  | Json _ _ => Tar.Intact []
  end.

(** [response.headers['content-disposition']] matched against
    [/filename="(.+)"/] *)
Definition disposition_filename (r : response) : option string :=
  match r with
  | Attachment filename _ => filename
  | Json _ _ => None
  end.

(** Lines 96-104 of [downloadVersion]: the name from the header, or else
    the requested version with [.tar.gz]. *)
Definition download_filename (version : string) (r : response) : string :=
  match disposition_filename r with
  | Some name => name
  | None => version +:+ ".tar.gz"
  end.

(** [getCurrentVersion()] *)
Definition getCurrentVersion : M (option string) :=
  fun c =>
    match versionFile c with
    | Some content => (Returns (Some (trim content)), c)
    | None => (Returns None, c)
    end.

(** [getAvailableVersions()] *)
Definition getAvailableVersions : M (list string) :=
  try_catch
    (response <- axios GetVersions ;;
     match data_versions response with
     | Some versions => ret versions
     | None => console_error "Invalid response format from server" ;; ret []
     end)
    (fun error =>
       console_error ("Error fetching available versions: " +:+ message error) ;;
       try_catch
         (healthResponse <- axios GetHealth ;;
          match data_versions healthResponse with
          | Some versions => ret versions
          | None => ret []
          end)
         (fun fallbackError =>
            console_error ("Fallback health check also failed: " +:+ message fallbackError) ;;
            ret [])).

(** [downloadVersion(version)].  The downloads directory of the model holds
    its files by name, and [filePath] is the name: this is
    [path.join(downloadsDir, filename)] for a [filename] that is one plain
    segment, as the host's always is.  A name with a slash or with [..]
    leads to another place of the disk ([ClientPaths.filePath] says where);
    the properties that depend on the place of the file ask for a plain
    name. *)
Definition downloadVersion (version : string) : M string :=
  try_catch
    (response <- axios (GetUpdates (Str version)) ;;
     let filename := download_filename version response in
     let filePath := filename in
     d <- (fun c => (Returns (downloads c), c)) ;;
     set_downloads (<[filePath := piped response]> d) ;;
     ret filePath)
    (fun error =>
       console_error ("Error downloading version: " +:+ message error) ;;
       throw error).

(** [extractTar(tarPath)] *)
Definition extractTar (tarPath : string) : M unit :=
  try_catch
    (there <- existsSync_app ;;
     (if there : bool then rmSync_app else ret tt) ;;
     mkdirSync_app ;;
     tar_x tarPath ;;
     console_log "Extraction completed successfully")
    (fun error =>
       console_error ("Error extracting tar file: " +:+ message error) ;;
       throw error).

(** [recordVersion(version)] *)
Definition recordVersion (version : string) : M unit :=
  try_catch
    (write_versionFile version ;;
     console_log ("Recorded version: " +:+ version))
    (fun error =>
       console_error ("Error recording version: " +:+ message error) ;;
       throw error).

(** [path.basename(tarPath)] *)
Definition basename (path : string) : string := List.last (split "/" path) "".

(** Lines 183-189 of [update]: the version that goes on record. *)
Definition actual_version (version tarPath : string) : string :=
  if String.eqb version "LATEST"
  then
    let filename := basename tarPath in
    replace_first ".tar.gz" "" filename
  else version.

(** [update(version)] *)
Definition update (version : string) : M bool :=
  try_catch
    (console_log ("Starting update to version: " +:+ version) ;;
     console_log "Downloading version..." ;;
     tarPath <- downloadVersion version ;;
     console_log "Extracting..." ;;
     extractTar tarPath ;;
     let actualVersion := actual_version version tarPath in
     recordVersion actualVersion ;;
     d <- (fun c => (Returns (downloads c), c)) ;;
     set_downloads (delete tarPath d) ;;
     console_log "Update completed successfully!" ;;
     ret true)
    (fun error =>
       console_error ("Update failed: " +:+ message error) ;;
       ret false).

(** [checkForUpdate()] *)
Definition checkForUpdate : M bool :=
  try_catch
    (currentVersion <- getCurrentVersion ;;
     availableVersions <- getAvailableVersions ;;
     ret ((0 <? length availableVersions)%nat &&
          bool_decide (head availableVersions ≠ currentVersion)))
    (fun error =>
       console_error ("Error checking for updates: " +:+ message error) ;;
       ret false).
End UpdateClient.

End Client.

(** ** The notions of the design document

    These follow the words of the design document, not the code: the
    properties below compare the code with them. *)

Module Design.
Import JsString JsNumber.

(** A run of decimal digits, at least one. *)
Definition digit_run (s : string) : Prop := s ≠ "" ∧ all_chars is_digit s = true.

(** The digit-dot grammar: runs of digits with a dot between them. *)
Definition digit_dot (v : string) : Prop :=
  ∃ runs, runs ≠ [] ∧ Forall digit_run runs ∧ v = String.concat "." runs.

(** The tuple of an identifier: the number of each component. *)
Definition version_tuple (v : string) : list Z :=
  map (fun component => default 0%Z (Number component)) (split "." v).

(** Missing components are treated as 0. *)
Definition pad (n : nat) (t : list Z) : list Z := (t ++ replicate (n - length t) 0%Z)%list.

(** Component by component, the first difference decides. *)
Fixpoint lex_compare (x y : list Z) : comparison :=
  match x, y with
  | a :: x', b :: y' =>
      match (a ?= b)%Z with
      | Eq => lex_compare x' y'
      | c => c
      end
  | _, _ => Eq
  end.

(** Tuples of unequal length are compared up to the longer length. *)
Definition tuple_compare (x y : list Z) : comparison :=
  let n := Nat.max (length x) (length y) in
  lex_compare (pad n x) (pad n y).

(** The catalog: the ordered list of the version identifiers that the host
    has on offer. *)
Definition catalog (h : Host.host) : list string :=
  match Host.get_versions h with
  | Host.StatusTrue versions => versions
  | Host.StatusFalse _ => []
  end.

Definition version_compare (a b : string) : comparison :=
  tuple_compare (version_tuple a) (version_tuple b).

(** [a] is at least as new as [b] *)
Definition version_ge (a b : string) : Prop := version_compare a b ≠ Lt.

(** [a] is newer than [b] *)
Definition version_gt (a b : string) : Prop := version_compare a b = Gt.

(** [a] and [b] have the same tuple, up to missing components *)
Definition same_version (a b : string) : bool :=
  match version_compare a b with
  | Eq => true
  | _ => false
  end.

End Design.

(** ** Hosts and servers for the examples *)

Module Scenario.
Import Http Host.

(** The listing of the design document's example. *)
Definition listing_of_the_design : host :=
  {| readdirSync := Some [ {| name := "1.0.0"; node := FsDirectory [] |};
                           {| name := "2.1.0"; node := FsDirectory [] |};
                           {| name := "v1.0"; node := FsDirectory [] |};
                           {| name := "1.0.0-beta.1"; node := FsDirectory [] |} ] |}.

(** A host whose package root cannot be read. *)
Definition unreadable : host := {| readdirSync := None |}.

(** A host with two versions of a one-file application. *)
Definition two_versions : host :=
  {| readdirSync :=
       Some [ {| name := "1.0.0"; node := FsDirectory [ (["main.js"], Tar.File "code 1.0.0") ] |};
              {| name := "2.1.0"; node := FsDirectory [ (["main.js"], Tar.File "code 2.1.0") ] |} ] |}.

(** A server whose download arrives cut short: [tar.x] rejects with the
    error of zlib, before any of its writes is on disk. *)
Definition truncating_server : remote :=
  fun req =>
    match req with
    | GetUpdates _ =>
        Some (Attachment (Some "2.1.0.tar.gz") (Tar.Damaged [] "unexpected end of file"))
    | _ => None
    end.

End Scenario.

(** ** The command lines: update.js and the last lines of Updates-Client.js *)

Module Cli.
Import JsString Http Client.

(** What the script itself prints, beside what the methods print. *)
Inductive said :=
| Said (msg : string)
| Listed (label : string) (versions : list string)
| Uncaught (e : error).

(** How a run of a script ends: the status given to [process.exit], or [None]
    when the script comes to its end without calling it; what the script
    printed; the client's disk and console. *)
Record ended := { exit : option nat; said_lines : list said; disk : client }.

(** The exit status of the process: 0 when [process.exit] was not called. *)
Definition status (e : ended) : nat := default 0 (exit e).

(** [args.includes(flag)] *)
Definition includes_arg (args : list string) (flag : string) : bool :=
  existsb (String.eqb flag) args.

(** [args[0]] is there and is not the empty string *)
Definition first_arg (args : list string) : option string :=
  match head args with
  | Some v => if Host.truthy v then Some v else None
  | None => None
  end.

Section Scripts.
(** The server behind [UPDATE_SERVER_URL]. *)
Variable server : remote.

(** update.js: [main().catch(console.error)], [args] being
    [process.argv.slice(2)]. *)
Definition update_js (args : list string) (c : client) : ended :=
  if includes_arg args "--check" then
    match checkForUpdate server c with
    | (Returns available, c') =>
        {| exit := Some (if available then 0 else 1);
           said_lines := [Said (if available then "Update available" else "No update available")];
           disk := c' |}
    | (Throws e, c') => {| exit := None; said_lines := [Uncaught e]; disk := c' |}
    end
  else if includes_arg args "--list" then
    match getAvailableVersions server c with
    | (Returns versions, c') =>
        {| exit := None; said_lines := [Listed "Available versions:" versions]; disk := c' |}
    | (Throws e, c') => {| exit := None; said_lines := [Uncaught e]; disk := c' |}
    end
  else
    match first_arg args with
    | Some v =>
        match update server v c with
        | (Returns _, c') => {| exit := None; said_lines := []; disk := c' |}
        | (Throws e, c') => {| exit := None; said_lines := [Uncaught e]; disk := c' |}
        end
    | None =>
        match update server "LATEST" c with
        | (Returns _, c') => {| exit := None; said_lines := []; disk := c' |}
        | (Throws e, c') => {| exit := None; said_lines := [Uncaught e]; disk := c' |}
        end
    end.

(** Updates-Client.js run as a script (lines 225-244).  A promise that
    rejects has no handler there: the process ends with status 1. *)
Definition client_js (args : list string) (c : client) : ended :=
  let version := default "LATEST" (first_arg args) in
  if bool_decide (head args = Some "--check") then
    match checkForUpdate server c with
    | (Returns available, c') =>
        {| exit := Some (if available then 0 else 1);
           said_lines := [Said (if available then "Update available" else "No update available")];
           disk := c' |}
    | (Throws e, c') => {| exit := Some 1; said_lines := [Uncaught e]; disk := c' |}
    end
  else
    match update server version c with
    | (Returns success, c') =>
        {| exit := Some (if success then 0 else 1); said_lines := []; disk := c' |}
    | (Throws e, c') => {| exit := Some 1; said_lines := [Uncaught e]; disk := c' |}
    end.
End Scripts.

End Cli.

(** ** The paths that the constructor of UpdateClient sets *)

Module ClientPaths.
Import JsString Host.

(** [path.resolve(p)] in a process whose working directory is [cwd]. *)
Definition resolve_from (cwd : list string) (p : string) : list string :=
  if String.prefix "/" p then path_normalize (split "/" p)
  else path_normalize (cwd ++ split "/" p)%list.

(** [path.dirname(p)] for a normalized absolute [p]. *)
Definition path_dirname (p : list string) : list string := removelast p.

(** The two paths that the constructor of [UpdateClient] sets. *)
Record paths := { appPath : list string; versionFile : list string }.

(** [new UpdateClient(serverUrl, appPath)] *)
Definition constructor (cwd : list string) (appPath_arg : string) : paths :=
  let appPath := resolve_from cwd appPath_arg in
  {| appPath := appPath;
     versionFile := path_join (path_dirname appPath) ["version.txt"] |}.

(** Line 91 of [downloadVersion]: [path.join(__dirname, 'downloads')], for
    the directory [dirname] of Updates-Client.js. *)
Definition downloadsDir (dirname : list string) : list string :=
  path_join dirname ["downloads"].

(** Line 106 of [downloadVersion]: [path.join(downloadsDir, filename)], the
    path that [fs.createWriteStream] opens.  [filename] is what the server
    wrote in [Content-Disposition]. *)
Definition filePath (dirname : list string) (filename : string) : list string :=
  path_join (downloadsDir dirname) [filename].

(** A file name that is one plain segment: no slash, and neither empty nor
    [.] nor [..]. *)
Definition plain_name (filename : string) : Prop :=
  any_char is_slash filename = false ∧ plain filename.

End ClientPaths.

(** * Properties *)

(** ** The sort *)

Module SortFacts.
Import JsArray.

Local Open Scope Z_scope.

Section Facts.
Context {A : Type}.
Variable compareFn : A -> A -> Z.

Local Abbreviation before := (JsArray.before compareFn).
Local Abbreviation ties := (JsArray.ties compareFn).

Lemma insert_before_perm (x : A) (l : list A) :
  Permutation (insert_before compareFn x l) (x :: l).
Proof.
  induction l as [|y l IH]; simpl.
  - reflexivity.
  - destruct (compareFn x y <=? 0).
    + reflexivity.
    + rewrite IH. apply perm_swap.
Qed.

Lemma sort_perm (l : list A) : Permutation (sort compareFn l) l.
Proof.
  induction l as [|x l IH]; simpl.
  - reflexivity.
  - rewrite insert_before_perm. by constructor.
Qed.

(** A consistent comparator: swapping the arguments swaps the sign, and
    [before] is transitive. *)
Hypothesis compare_flip : forall x y, Z.sgn (compareFn y x) = - Z.sgn (compareFn x y).
Hypothesis compare_trans :
  forall x y z, compareFn x y <= 0 -> compareFn y z <= 0 -> compareFn x z <= 0.

Lemma after_before (x y : A) : 0 < compareFn x y -> before y x.
Proof.
  intros H. unfold before. specialize (compare_flip x y). lia.
Qed.

Lemma insert_before_head (x : A) (l : list A) (y : A) :
  before y x -> HdRel before y l -> HdRel before y (insert_before compareFn x l).
Proof.
  intros Hyx Hl. destruct l as [|z l]; simpl.
  - by constructor.
  - destruct (compareFn x z <=? 0); constructor; [done|].
    by inversion Hl.
Qed.

Lemma insert_before_sorted (x : A) (l : list A) :
  Sorted before l -> Sorted before (insert_before compareFn x l).
Proof.
  induction 1 as [|y l Hl IH Hhd]; simpl.
  - repeat constructor.
  - destruct (Z.leb_spec (compareFn x y) 0) as [Hle|Hgt].
    + constructor; [by constructor|]. by constructor.
    + constructor; [done|]. apply insert_before_head; [|done].
      by apply after_before.
Qed.

Lemma sort_sorted (l : list A) : Sorted before (sort compareFn l).
Proof.
  induction l as [|x l IH]; simpl.
  - constructor.
  - by apply insert_before_sorted.
Qed.

Lemma sort_strongly_sorted (l : list A) : StronglySorted before (sort compareFn l).
Proof.
  apply Sorted_StronglySorted; [|apply sort_sorted].
  intros x y z. apply compare_trans.
Qed.

Lemma ties_before (z x y : A) : ties z x = true -> ties z y = true -> before x y.
Proof.
  unfold ties, before. intros Hx%Z.eqb_eq Hy%Z.eqb_eq.
  apply (compare_trans x z y); [|lia].
  specialize (compare_flip z x). lia.
Qed.

Lemma insert_before_stable (z x : A) (l : list A) :
  List.filter (ties z) (insert_before compareFn x l) = List.filter (ties z) (x :: l).
Proof.
  induction l as [|y l IH]; [done|].
  cbn [insert_before].
  destruct (Z.leb_spec (compareFn x y) 0) as [Hle|Hgt]; [done|].
  cbn [List.filter] in *. rewrite IH.
  destruct (ties z x) eqn:Hx, (ties z y) eqn:Hy; try done.
  pose proof (ties_before z x y Hx Hy) as Hb. unfold before in Hb. lia.
Qed.

(** The sort is stable: the elements that tie with [z] come out in the order
    they went in. *)
Lemma sort_stable (z : A) (l : list A) :
  List.filter (ties z) (sort compareFn l) = List.filter (ties z) l.
Proof.
  induction l as [|x l IH]; [done|].
  cbn [sort]. rewrite insert_before_stable. cbn [List.filter].
  by rewrite IH.
Qed.

Lemma ties_refl (x : A) : ties x x = true.
Proof.
  unfold JsArray.ties. specialize (compare_flip x x). apply Z.eqb_eq. lia.
Qed.

Lemma before_both_ties (x y : A) : before x y -> before y x -> ties x y = true.
Proof.
  unfold JsArray.before, JsArray.ties. intros Hxy Hyx.
  specialize (compare_flip x y). apply Z.eqb_eq. lia.
Qed.

Lemma sorted_head_before (x y : A) (l : list A) :
  StronglySorted before (x :: l) -> In y (x :: l) -> before x y.
Proof.
  intros Hsorted [<-|Hy].
  - pose proof (ties_refl x) as H%Z.eqb_eq. unfold JsArray.before. lia.
  - inversion Hsorted as [|? ? _ Hall]; subst.
    by apply (proj1 (List.Forall_forall _ _) Hall).
Qed.

Lemma filter_ties_in (z x : A) (l : list A) :
  In x (List.filter (ties z) l) <-> In x l ∧ ties z x = true.
Proof. apply filter_In. Qed.

(** Two sorted lists in which the elements that tie come in the same order
    are the same list: the result of a stable sort does not depend on how
    the sort goes about it. *)
Lemma stable_sorted_unique (l1 l2 : list A) :
  StronglySorted before l1 -> StronglySorted before l2 ->
  (∀ z, List.filter (ties z) l1 = List.filter (ties z) l2) ->
  l1 = l2.
Proof.
  revert l2. induction l1 as [|a l1 IH]; intros l2 H1 H2 Hsame.
  - destruct l2 as [|b l2]; [done|].
    specialize (Hsame b). cbn [List.filter] in Hsame. by rewrite ties_refl in Hsame.
  - destruct l2 as [|b l2].
    + specialize (Hsame a). cbn [List.filter] in Hsame. by rewrite ties_refl in Hsame.
    + assert (Ha : In a (b :: l2)).
      { apply (filter_ties_in a a). rewrite <- Hsame. apply filter_ties_in.
        split; [by left | apply ties_refl]. }
      assert (Hb : In b (a :: l1)).
      { apply (filter_ties_in b b). rewrite Hsame. apply filter_ties_in.
        split; [by left | apply ties_refl]. }
      pose proof (before_both_ties a b (sorted_head_before a b l1 H1 Hb)
                    (sorted_head_before b a l2 H2 Ha)) as Hab.
      pose proof (Hsame a) as Heq. cbn [List.filter] in Heq.
      rewrite ties_refl, Hab in Heq. injection Heq as <- _.
      f_equal. apply IH.
      * by inversion H1.
      * by inversion H2.
      * intros z. specialize (Hsame z). cbn [List.filter] in Hsame.
        destruct (ties z a); [by injection Hsame|done].
Qed.

Lemma sort_unique (l sorted : list A) :
  StronglySorted before sorted ->
  (∀ z, List.filter (ties z) sorted = List.filter (ties z) l) ->
  sorted = sort compareFn l.
Proof.
  intros Hsorted Hstable. apply stable_sorted_unique; [done|..].
  - by apply sort_strongly_sorted.
  - intros z. rewrite Hstable. symmetry. by apply sort_stable.
Qed.
End Facts.

End SortFacts.

(** ** The comparator and the order of the design document *)

Module CompareFacts.
Import JsString JsNumber JsArray Host Design.

Local Open Scope nat_scope.

Lemma lex_compare_refl (x : list Z) : lex_compare x x = Eq.
Proof.
  induction x as [|a x IH]; [done|]. simpl. by rewrite Z.compare_refl.
Qed.

Lemma lex_compare_app (x y z : list Z) :
  length x = length y -> lex_compare (x ++ z) (y ++ z) = lex_compare x y.
Proof.
  revert y. induction x as [|a x IH]; intros [|b y] Hlen; try done.
  - simpl. apply lex_compare_refl.
  - simpl. destruct (a ?= b)%Z; try done. apply IH. by injection Hlen.
Qed.

Lemma lex_compare_flip (x y : list Z) : lex_compare y x = CompOpp (lex_compare x y).
Proof.
  revert y. induction x as [|a x IH]; intros [|b y]; try done.
  simpl. rewrite (Z.compare_antisym a b).
  destruct (a ?= b)%Z; simpl; auto.
Qed.

Lemma lex_compare_trans (x y z : list Z) :
  length x = length y -> length y = length z ->
  lex_compare x y ≠ Lt -> lex_compare y z ≠ Lt -> lex_compare x z ≠ Lt.
Proof.
  revert y z. induction x as [|a x IH]; intros [|b y] [|c z] Hxy Hyz; try done.
  simpl.
  destruct (Z.compare_spec a b), (Z.compare_spec b c), (Z.compare_spec a c);
    try done; try lia.
  injection Hxy as Hxy. injection Hyz as Hyz. eauto.
Qed.

Lemma pad_length (n : nat) (t : list Z) : length t ≤ n -> length (pad n t) = n.
Proof.
  intros H. unfold pad. rewrite length_app, length_replicate. lia.
Qed.

Lemma pad_more (m n : nat) (t : list Z) :
  length t ≤ m -> m ≤ n -> pad n t = (pad m t ++ replicate (n - m) 0%Z)%list.
Proof.
  intros Ht Hmn. unfold pad. rewrite <- app_assoc. f_equal.
  rewrite <- replicate_add. f_equal. lia.
Qed.

(** Padding further than the longer length changes nothing. *)
Lemma tuple_compare_pad (n : nat) (x y : list Z) :
  length x ≤ n -> length y ≤ n ->
  lex_compare (pad n x) (pad n y) = tuple_compare x y.
Proof.
  intros Hx Hy. unfold tuple_compare.
  set (m := Nat.max (length x) (length y)).
  rewrite (pad_more m n x), (pad_more m n y) by lia.
  apply lex_compare_app. rewrite !pad_length; lia.
Qed.

Lemma pad_lookup (ps : list (option Z)) (n i : nat) :
  i < n -> length ps ≤ n ->
  pad n (map (default 0%Z) ps) !! i = Some (part_or_0 ps i).
Proof.
  revert n i. induction ps as [|p ps IH]; intros n i Hi Hn.
  - unfold pad. simpl. rewrite Nat.sub_0_r, lookup_replicate_2 by lia. done.
  - destruct n as [|n]; [simpl in Hn; lia|].
    destruct i as [|i].
    + by destruct p.
    + unfold part_or_0. simpl. apply IH; simpl in *; lia.
Qed.

Lemma compare_sub (a b : Z) : (0 ?= b - a)%Z = (a ?= b)%Z.
Proof.
  destruct (Z.compare_spec 0 (b - a)), (Z.compare_spec a b); try done; lia.
Qed.

(** The loop of the comparator walks the padded tuples. *)
Lemma compare_from_lex (todo i n : nat) (partsA partsB : list (option Z)) :
  i + todo = n -> length partsA ≤ n -> length partsB ≤ n ->
  (0 ?= compare_from partsA partsB i todo)%Z =
  lex_compare (drop i (pad n (map (default 0%Z) partsA)))
              (drop i (pad n (map (default 0%Z) partsB))).
Proof.
  revert i. induction todo as [|todo IH]; intros i Hn HA HB.
  - rewrite !drop_ge by (rewrite pad_length; rewrite ?length_map; lia). done.
  - rewrite (drop_S (pad n (map (default 0%Z) partsA)) (part_or_0 partsA i) i)
      by (apply pad_lookup; lia).
    rewrite (drop_S (pad n (map (default 0%Z) partsB)) (part_or_0 partsB i) i)
      by (apply pad_lookup; lia).
    cbn [compare_from lex_compare].
    destruct (Z.eqb_spec (part_or_0 partsA i) (part_or_0 partsB i)) as [Heq|Hne]; cbn [negb].
    + rewrite Heq, Z.compare_refl. apply IH; lia.
    + rewrite compare_sub.
      destruct (Z.compare_spec (part_or_0 partsA i) (part_or_0 partsB i)); done.
Qed.

Lemma version_tuple_parts (v : string) : version_tuple v = map (default 0%Z) (parts v).
Proof.
  unfold version_tuple, parts. by rewrite map_map.
Qed.

(** The sign of the comparator is the comparison of the design document:
    negative exactly when [a] is newer than [b]. *)
Lemma compareVersions_spec (a b : string) :
  (0 ?= compareVersions a b)%Z = version_compare a b.
Proof.
  unfold compareVersions, version_compare, tuple_compare.
  rewrite !version_tuple_parts, !length_map.
  rewrite (compare_from_lex _ 0 (Nat.max (length (parts a)) (length (parts b)))) by lia.
  done.
Qed.

Lemma version_compare_flip (a b : string) :
  version_compare b a = CompOpp (version_compare a b).
Proof.
  unfold version_compare, tuple_compare. rewrite Nat.max_comm. apply lex_compare_flip.
Qed.

Lemma version_ge_trans (a b c : string) :
  version_ge a b -> version_ge b c -> version_ge a c.
Proof.
  unfold version_ge, version_compare. intros Hab Hbc.
  set (n := Nat.max (length (version_tuple a))
              (Nat.max (length (version_tuple b)) (length (version_tuple c)))).
  rewrite <- (tuple_compare_pad n) in Hab, Hbc |- * by lia.
  apply (lex_compare_trans _ (pad n (version_tuple b))); try done;
    rewrite !pad_length; lia.
Qed.

Lemma before_version_ge (a b : string) : before compareVersions a b <-> version_ge a b.
Proof.
  unfold before, version_ge. rewrite <- compareVersions_spec.
  destruct (Z.compare_spec 0 (compareVersions a b)); split; try done; lia.
Qed.

Lemma ties_same_version (a b : string) : ties compareVersions a b = same_version a b.
Proof.
  unfold ties, same_version. rewrite <- compareVersions_spec.
  destruct (Z.compare_spec 0 (compareVersions a b)), (Z.eqb_spec (compareVersions a b) 0);
    try done; lia.
Qed.

Lemma compareVersions_flip (a b : string) :
  Z.sgn (compareVersions b a) = (- Z.sgn (compareVersions a b))%Z.
Proof.
  pose proof (version_compare_flip a b) as H.
  rewrite <- !compareVersions_spec in H.
  destruct (Z.compare_spec 0 (compareVersions a b)), (Z.compare_spec 0 (compareVersions b a));
    simpl in H; try done; lia.
Qed.

Lemma compareVersions_trans (a b c : string) :
  (compareVersions a b <= 0 -> compareVersions b c <= 0 -> compareVersions a c <= 0)%Z.
Proof.
  intros Hab Hbc. apply (before_version_ge a c).
  apply (version_ge_trans a b c); by apply before_version_ge.
Qed.

(** Below 2^53 the number of a run of digits is the integer it denotes. *)
Lemma Number_exact (s : string) :
  all_chars is_digit s = true -> (decimal_value 0 s < 2 ^ 53)%Z ->
  Number s = Some (decimal_value 0 s).
Proof.
  intros Hs Hsmall. unfold Number, round_binary64. rewrite Hs.
  by destruct (Z.ltb_spec (decimal_value 0 s) (2 ^ 53)); [|lia].
Qed.

(** From 2^53 on, distinct integers can have the same number: the two names
    tie. *)
Example rounding_tie :
  version_compare "9007199254740993" "9007199254740992" = Eq ∧
  version_compare "9007199254740992" "9007199254740991" = Gt.
Proof. vm_compute. done. Qed.

End CompareFacts.

(** ** Strings *)

Module StringFacts.
Import JsString.

Lemma append_cons (c : ascii) (s t : string) : String c s +:+ t = String c (s +:+ t).
Proof. done. Qed.

Lemma append_empty_l (t : string) : "" +:+ t = t.
Proof. done. Qed.

Lemma append_empty_r (s : string) : s +:+ "" = s.
Proof. induction s as [|c s IH]; [done|]. by rewrite append_cons, IH. Qed.

Lemma append_assoc (s t u : string) : (s +:+ t) +:+ u = s +:+ (t +:+ u).
Proof.
  induction s as [|c s IH]; [done|].
  by rewrite !append_cons, IH.
Qed.

Lemma prefix_append (p t : string) : String.prefix p (p +:+ t) = true.
Proof.
  induction p as [|c p IH]; [by destruct t|].
  rewrite append_cons. cbn [String.prefix].
  by destruct (ascii_dec c c).
Qed.

Lemma includes_dotdotslash (s : string) :
  includes s "../" = true -> any_char is_slash s = true.
Proof.
  induction s as [|c s IH]; [done|].
  cbn [includes any_char]. intros [H|H]%orb_prop.
  - destruct s as [|c1 [|c2 s]]; cbn [String.prefix] in H;
      repeat (destruct (ascii_dec _ _) as [<-|]; try done).
  - rewrite IH by done. apply orb_true_r.
Qed.

Lemma any_char_append (f : ascii -> bool) (s t : string) :
  any_char f (s +:+ t) = any_char f s || any_char f t.
Proof.
  induction s as [|c s IH]; [done|].
  rewrite append_cons. cbn [any_char]. by rewrite IH, orb_assoc.
Qed.

(** *** Characters *)

Lemma join_cons (ch : string) (chs : list string) : join (ch :: chs) = ch +:+ join chs.
Proof. done. Qed.

(** The characters of a string, put together, are the string. *)
Lemma join_chars (s : string) : join (chars s) = s.
Proof.
  induction s as [|c s IH]; [done|].
  cbn [chars]. destruct (chars s) as [|ch chs]; [by rewrite <- IH|].
  destruct (goes_on s); rewrite !join_cons in *;
    by rewrite append_cons, ?append_empty_l, IH.
Qed.

(** A byte that does not go on with the character before it begins a
    character of its own. *)
Lemma chars_cons (c : ascii) (s : string) :
  goes_on s = false -> chars (String c s) = String c "" :: chars s.
Proof. intros H. cbn [chars]. rewrite H. by destruct (chars s). Qed.

Lemma any_char_join (f : ascii -> bool) (chs : list string) :
  any_char f (join chs) = existsb (any_char f) chs.
Proof.
  induction chs as [|ch chs IH]; [done|].
  rewrite join_cons, any_char_append, IH. done.
Qed.

Lemma any_char_chars (f : ascii -> bool) (s : string) :
  existsb (any_char f) (chars s) = any_char f s.
Proof. by rewrite <- any_char_join, join_chars. Qed.

(** *** The slash is no white space and no letter *)

Lemma upper_ascii_slash (c : ascii) : is_slash (upper_ascii c) = is_slash c.
Proof. destruct c as [[] [] [] [] [] [] [] []]; done. Qed.

Lemma upper_case_mappings_no_slash :
  forallb (fun m : string * string =>
             negb (any_char is_slash m.1) && negb (any_char is_slash m.2))
          upper_case_mappings = true.
Proof. vm_compute. reflexivity. Qed.

Lemma upper_char_slash (ch : string) :
  any_char is_slash (upper_char ch) = any_char is_slash ch.
Proof.
  assert (Htable : ∀ m, List.find (fun m : string * string => String.eqb m.1 ch)
                          upper_case_mappings = Some m ->
                        any_char is_slash m.2 = any_char is_slash ch).
  { intros m [Hin Heq%String.eqb_eq]%find_some.
    pose proof upper_case_mappings_no_slash as H.
    rewrite forallb_forall in H. apply H in Hin.
    apply andb_prop in Hin as [H1%negb_true_iff H2%negb_true_iff]. congruence. }
  unfold upper_char. destruct ch as [|c [|c' ch]].
  - destruct (List.find _ _) as [m|] eqn:Hm; [by apply Htable|done].
  - cbn [any_char]. by rewrite upper_ascii_slash.
  - destruct (List.find _ _) as [m|] eqn:Hm; [by apply Htable|done].
Qed.

Lemma any_slash_toUpperCase (s : string) :
  any_char is_slash (toUpperCase s) = any_char is_slash s.
Proof.
  unfold toUpperCase. rewrite any_char_join, <- (any_char_chars is_slash s).
  induction (chars s) as [|ch chs IH]; [done|].
  cbn [map existsb]. by rewrite upper_char_slash, IH.
Qed.

Lemma white_space_no_slash :
  forallb (fun ws => negb (any_char is_slash ws)) white_space = true.
Proof. vm_compute. reflexivity. Qed.

Lemma is_space_no_slash (ch : string) : is_space ch = true -> any_char is_slash ch = false.
Proof.
  unfold is_space. intros (ws & Hin & ->%String.eqb_eq)%existsb_exists.
  pose proof white_space_no_slash as H. rewrite forallb_forall in H.
  by apply negb_true_iff, H.
Qed.

Lemma any_slash_remove_spaces (s : string) :
  any_char is_slash (remove_spaces s) = any_char is_slash s.
Proof.
  unfold remove_spaces. rewrite any_char_join, <- (any_char_chars is_slash s).
  induction (chars s) as [|ch chs IH]; [done|].
  cbn [List.filter existsb]. destruct (is_space ch) eqn:Hch; cbn [negb].
  - by rewrite IH, (is_space_no_slash ch Hch).
  - cbn [existsb]. by rewrite IH.
Qed.

(** *** Strings of digits and dots *)

Lemma digit_or_dot_upper (c : ascii) :
  is_digit c || Ascii.eqb c "." = true -> upper_ascii c = c.
Proof. destruct c as [[] [] [] [] [] [] [] []]; done. Qed.

Lemma digit_or_dot_not_slash (c : ascii) :
  is_digit c || Ascii.eqb c "." = true -> is_slash c = false.
Proof. destruct c as [[] [] [] [] [] [] [] []]; done. Qed.

Lemma digit_or_dot_not_continuation (c : ascii) :
  is_digit c || Ascii.eqb c "." = true -> is_continuation c = false.
Proof. destruct c as [[] [] [] [] [] [] [] []]; done. Qed.

Lemma digit_or_dot_not_space (c : ascii) :
  is_digit c || Ascii.eqb c "." = true -> is_space (String c "") = false.
Proof. destruct c as [[] [] [] [] [] [] [] []]; try done; intros _; vm_compute; reflexivity. Qed.

(** In a string of digits and dots every byte is a character. *)
Lemma chars_digits_dots (c : ascii) (s : string) :
  all_chars (fun c => is_digit c || Ascii.eqb c ".") s = true ->
  chars (String c s) = String c "" :: chars s.
Proof.
  intros H. apply chars_cons. destruct s as [|c' s']; [done|].
  cbn [all_chars] in H. apply andb_prop in H as [H _].
  by apply digit_or_dot_not_continuation.
Qed.

Lemma toUpperCase_digits_dots (s : string) :
  all_chars (fun c => is_digit c || Ascii.eqb c ".") s = true -> toUpperCase s = s.
Proof.
  induction s as [|c s IH]; [done|].
  cbn [all_chars]. intros [Hc Hs]%andb_prop.
  unfold toUpperCase in *. rewrite chars_digits_dots by done.
  cbn [map upper_char]. by rewrite join_cons, IH, digit_or_dot_upper.
Qed.

Lemma remove_spaces_digits_dots (s : string) :
  all_chars (fun c => is_digit c || Ascii.eqb c ".") s = true -> remove_spaces s = s.
Proof.
  induction s as [|c s IH]; [done|].
  cbn [all_chars]. intros [Hc Hs]%andb_prop.
  unfold remove_spaces in *. rewrite chars_digits_dots by done.
  cbn [List.filter]. rewrite digit_or_dot_not_space by done. cbn [negb].
  by rewrite join_cons, IH.
Qed.

Lemma no_space_digits_dots (s : string) :
  all_chars (fun c => is_digit c || Ascii.eqb c ".") s = true ->
  Forall (fun ch => is_space ch = false) (chars s).
Proof.
  induction s as [|c s IH]; [constructor|].
  cbn [all_chars]. intros [Hc Hs]%andb_prop.
  rewrite chars_digits_dots by done. constructor; [|by apply IH].
  by apply digit_or_dot_not_space.
Qed.

Lemma drop_spaces_none (chs : list string) :
  Forall (fun ch => is_space ch = false) chs -> drop_spaces chs = chs.
Proof. intros [|ch chs' Hch _]; [done|]. cbn [drop_spaces]. by rewrite Hch. Qed.

Lemma trim_digits_dots (s : string) :
  all_chars (fun c => is_digit c || Ascii.eqb c ".") s = true -> trim s = s.
Proof.
  intros H%no_space_digits_dots. unfold trim.
  rewrite (drop_spaces_none (chars s)) by done.
  rewrite drop_spaces_none by (by apply Forall_rev).
  by rewrite rev_involutive, join_chars.
Qed.

Lemma no_slash_digits_dots (s : string) :
  all_chars (fun c => is_digit c || Ascii.eqb c ".") s = true -> any_char is_slash s = false.
Proof.
  induction s as [|c s IH]; [done|].
  cbn [all_chars any_char]. intros [Hc Hs]%andb_prop.
  by rewrite digit_or_dot_not_slash, IH.
Qed.

Lemma split_no_separator (s : string) :
  any_char is_slash s = false -> split "/" s = [s].
Proof.
  induction s as [|c s IH]; [done|].
  cbn [any_char split]. intros [Hc Hs]%orb_false_elim.
  unfold is_slash in Hc. rewrite Hc, IH by done. done.
Qed.

End StringFacts.

(** ** The filter and the digit-dot grammar *)

Module GrammarFacts.
Import JsString Host Design.

Lemma is_digit_not_dot (c : ascii) : is_digit c = true -> Ascii.eqb c "." = false.
Proof.
  destruct c as [[] [] [] [] [] [] [] []]; done.
Qed.

(** A run of digits in front of [t] is read through; the automaton then needs
    no digit any more, unless the run was empty. *)
Lemma version_re_from_run (run t : string) (need_digit : bool) :
  all_chars is_digit run = true ->
  version_re_from need_digit (run +:+ t) =
  version_re_from (match run with EmptyString => need_digit | _ => false end) t.
Proof.
  revert need_digit. induction run as [|c run IH]; intros need_digit Hrun; [done|].
  simpl in Hrun. apply andb_prop in Hrun as [Hc Hrun].
  rewrite StringFacts.append_cons.
  cbn [version_re_from]. rewrite Hc, IH by done.
  by destruct run.
Qed.

Lemma concat_cons_cons (sep x y : string) (l : list string) :
  String.concat sep (x :: y :: l) = x +:+ sep +:+ String.concat sep (y :: l).
Proof. done. Qed.

Lemma version_re_from_runs (runs : list string) (run : string) (need_digit : bool) :
  all_chars is_digit run = true -> (need_digit = true -> run ≠ "") ->
  Forall digit_run runs ->
  version_re_from need_digit (String.concat "." (run :: runs)) = true.
Proof.
  revert run need_digit. induction runs as [|r runs IH]; intros run need_digit Hrun Hne Hruns.
  - cbn [String.concat]. rewrite <- (StringFacts.append_empty_r run), version_re_from_run by done.
    destruct run, need_digit; try done. by destruct Hne.
  - rewrite concat_cons_cons, version_re_from_run by done.
    inversion Hruns as [|? ? [Hr1 Hr2] Hruns']; subst.
    rewrite StringFacts.append_cons, StringFacts.append_empty_l.
    cbn [version_re_from]. change (is_digit ".") with false. cbn [Ascii.eqb Bool.eqb]. cbv iota.
    rewrite IH by done.
    destruct run, need_digit; try done. by destruct Hne.
Qed.

Lemma version_re_from_inv (s : string) (need_digit : bool) :
  version_re_from need_digit s = true ->
  ∃ run runs,
    all_chars is_digit run = true ∧ (need_digit = true -> run ≠ "") ∧
    Forall digit_run runs ∧ s = String.concat "." (run :: runs).
Proof.
  revert need_digit. induction s as [|c s IH]; intros need_digit H.
  - exists "", []. destruct need_digit; done.
  - cbn [version_re_from] in H. destruct (is_digit c) eqn:Hc.
    + destruct (IH _ H) as (run & runs & Hrun & _ & Hruns & ->).
      exists (String c run), runs. split_and!; try done.
      * simpl. by rewrite Hc.
      * by destruct runs.
    + destruct (Ascii.eqb_spec c ".") as [->|]; [|done].
      apply andb_prop in H as [Hnd H].
      destruct (IH _ H) as (run & runs & Hrun & Hne & Hruns & ->).
      exists "", (run :: runs). split_and!; try done.
      * intros ->. done.
      * constructor; [|done]. split; [by apply Hne|done].
Qed.

(** The filter of [sortVersionsDescending] accepts exactly the digit-dot
    grammar. *)
Lemma version_re_test_digit_dot (v : string) : version_re_test v = true <-> digit_dot v.
Proof.
  split.
  - intros H. destruct (version_re_from_inv _ _ H) as (run & runs & Hrun & Hne & Hruns & ->).
    exists (run :: runs). split_and!; try done.
    constructor; [|done]. split; [by apply Hne|done].
  - intros (runs & Hne & Hruns & ->).
    destruct runs as [|run runs]; [done|].
    inversion Hruns as [|? ? [Hr1 Hr2] Hruns']; subst.
    by apply version_re_from_runs.
Qed.

(** A name that passes the filter starts with a digit and holds nothing but
    digits and dots. *)
Lemma version_re_from_chars (s : string) (need_digit : bool) :
  version_re_from need_digit s = true ->
  all_chars (fun c => is_digit c || Ascii.eqb c ".") s = true.
Proof.
  revert need_digit. induction s as [|c s IH]; intros need_digit H; [done|].
  cbn [version_re_from] in H. cbn [all_chars].
  destruct (is_digit c); simpl.
  - by apply (IH false).
  - destruct (Ascii.eqb c "."); [|done]. simpl.
    apply andb_prop in H as [_ H]. by apply (IH true).
Qed.

Lemma version_re_test_head (v : string) :
  version_re_test v = true -> ∃ c v', v = String c v' ∧ is_digit c = true.
Proof.
  destruct v as [|c v]; [done|]. unfold version_re_test. cbn [version_re_from].
  destruct (is_digit c) eqn:Hc; [by eauto|].
  by destruct (Ascii.eqb c ".").
Qed.

End GrammarFacts.

(** ** The catalog *)

Module CatalogFacts.
Import JsString JsArray Host Design.

Lemma get_versions_eq (h : host) :
  get_versions h =
  StatusTrue (sort compareVersions (List.filter version_re_test (getFolders h))).
Proof. done. Qed.

Lemma sort_descending (l : list string) : StronglySorted version_ge (sort compareVersions l).
Proof.
  pose proof (SortFacts.sort_strongly_sorted compareVersions
                CompareFacts.compareVersions_flip CompareFacts.compareVersions_trans l) as H.
  induction H as [|a sorted Hsorted IH Ha]; constructor; [done|].
  eapply List.Forall_impl; [|exact Ha].
  intros b Hb. by apply CompareFacts.before_version_ge.
Qed.

Lemma sort_keeps_ties (v : string) (l : list string) :
  List.filter (same_version v) (sort compareVersions l) = List.filter (same_version v) l.
Proof.
  pose proof (SortFacts.sort_stable compareVersions
                CompareFacts.compareVersions_flip CompareFacts.compareVersions_trans v l) as H.
  rewrite <- !(filter_ext (ties compareVersions v) (same_version v)); [done|..];
    intros a; apply CompareFacts.ties_same_version.
Qed.

(** The catalog is the one arrangement of the matching names that is in
    descending order and keeps equal tuples in the order of the listing. *)
Lemma sort_descending_unique (l arranged : list string) :
  StronglySorted version_ge arranged ->
  (∀ v, List.filter (same_version v) arranged = List.filter (same_version v) l) ->
  arranged = sort compareVersions l.
Proof.
  intros Hsorted Hstable.
  apply (SortFacts.sort_unique compareVersions
           CompareFacts.compareVersions_flip CompareFacts.compareVersions_trans).
  - clear Hstable. induction Hsorted as [|a rest Hrest IH Ha]; [constructor|].
    constructor; [done|].
    eapply List.Forall_impl; [|exact Ha].
    intros b Hb. by apply CompareFacts.before_version_ge.
  - intros v.
    rewrite !(filter_ext (ties compareVersions v) (same_version v));
      [apply Hstable|..]; intros a; apply CompareFacts.ties_same_version.
Qed.

(** C1, as the code has it: for every state of the package root,
    [get_versions] succeeds with a catalog that
    - holds exactly the directory names that match the digit-dot grammar, each
      as often as it is listed (no other name, and no error for the others);
    - is in descending order of the numeric tuples, missing components counted
      as 0: every entry is at least as new as all entries after it (two
      names with equal tuples, such as 1.0 and 1.0.0, may follow each other);
    - keeps names with equal tuples in the order of the listing, and is the
      only arrangement of these names that is in descending order and does so;
    - depends on nothing but the listing of directory names. *)
Theorem catalog_filtered_and_descending (h : host) :
  ∃ versions,
    get_versions h = StatusTrue versions ∧
    Permutation versions (List.filter version_re_test (getFolders h)) ∧
    (∀ v, In v versions <-> In v (getFolders h) ∧ digit_dot v) ∧
    StronglySorted version_ge versions ∧
    (∀ v, List.filter (same_version v) versions =
          List.filter (same_version v) (List.filter version_re_test (getFolders h))) ∧
    (∀ arranged,
       StronglySorted version_ge arranged ->
       (∀ v, List.filter (same_version v) arranged =
             List.filter (same_version v) (List.filter version_re_test (getFolders h))) ->
       arranged = versions) ∧
    (∀ h', getFolders h' = getFolders h -> get_versions h' = get_versions h).
Proof.
  eexists. split; [apply get_versions_eq|].
  split_and!.
  - apply SortFacts.sort_perm.
  - intros v. rewrite <- GrammarFacts.version_re_test_digit_dot, <- filter_In.
    split; apply Permutation_in; [|symmetry]; apply SortFacts.sort_perm.
  - apply sort_descending.
  - intros v. apply sort_keeps_ties.
  - apply sort_descending_unique.
  - intros h' Heq. by rewrite !get_versions_eq, Heq.
Qed.

Lemma catalog_filtered_and_descending_witness :
  ∃ versions,
    get_versions Scenario.listing_of_the_design = StatusTrue versions ∧
    Permutation versions ["1.0.0"; "2.1.0"] ∧
    StronglySorted version_ge versions.
Proof.
  destruct (catalog_filtered_and_descending Scenario.listing_of_the_design)
    as (versions & Hget & Hperm & _ & Hsorted & _).
  exists versions. split_and!; [exact Hget | exact Hperm | exact Hsorted].
Defined.

(** The catalog of the design document's example. *)
Example catalog_of_example :
  get_versions Scenario.listing_of_the_design = StatusTrue ["2.1.0"; "1.0.0"].
Proof. vm_compute. reflexivity. Qed.

(** C1 as stated fails: with the directories 1.0 and 1.0.0 in the package
    root the catalog is not strictly descending, since neither of the two is
    newer than the other. *)
Lemma catalog_not_strictly_descending :
  ¬ (∀ h versions, get_versions h = StatusTrue versions -> StronglySorted version_gt versions).
Proof.
  intros H.
  specialize (H {| readdirSync := Some [ {| name := "1.0"; node := FsDirectory [] |};
                                         {| name := "1.0.0"; node := FsDirectory [] |} ] |}
                ["1.0"; "1.0.0"]).
  assert (Hcat : StronglySorted version_gt ["1.0"; "1.0.0"]) by (apply H; vm_compute; reflexivity).
  inversion Hcat as [|? ? _ Hall]; subst.
  inversion Hall as [|? ? Hgt _]; subst.
  vm_compute in Hgt. discriminate.
Qed.

End CatalogFacts.

(** ** Paths *)

Module PathFacts.
Import JsString Host.

Lemma normalize_onto_plain (stack segs : list string) :
  Forall plain segs -> normalize_onto stack segs = (rev stack ++ segs)%list.
Proof.
  intros H. revert stack. induction H as [|seg segs (H1 & H2 & H3) _ IH]; intros stack.
  - simpl. by rewrite app_nil_r.
  - cbn [normalize_onto].
    destruct (String.eqb_spec seg ""); [done|].
    destruct (String.eqb_spec seg "."); [done|].
    destruct (String.eqb_spec seg ".."); [done|].
    cbn [orb]. rewrite IH. cbn [rev]. by rewrite <- app_assoc.
Qed.

Lemma normalize_onto_Forall (stack segs : list string) :
  Forall plain stack -> Forall plain (normalize_onto stack segs).
Proof.
  revert stack. induction segs as [|seg segs IH]; intros stack Hstack.
  - simpl. by apply Forall_rev.
  - cbn [normalize_onto].
    destruct (String.eqb_spec seg ""); [by apply IH|].
    destruct (String.eqb_spec seg "."); [by apply IH|].
    destruct (String.eqb_spec seg ".."); cbn [orb].
    + apply IH. destruct stack; [done|]. by inversion Hstack.
    + apply IH. by constructor.
Qed.

Lemma BASE_DIR_plain (dirname : list string) : Forall plain (BASE_DIR dirname).
Proof. apply normalize_onto_Forall. constructor. Qed.

(** Joining a plain name to a normalized path appends it. *)
Lemma path_join_child (base : list string) (child : string) :
  Forall plain base -> plain child -> any_char is_slash child = false ->
  path_resolve (path_join base [child]) = (base ++ [child])%list.
Proof.
  intros Hbase Hchild Hslash.
  assert (Hall : Forall plain (base ++ [child])) by (apply Forall_app; auto).
  unfold path_resolve, path_join, path_normalize. cbn [flat_map].
  rewrite StringFacts.split_no_separator, app_nil_r by done.
  rewrite (normalize_onto_plain [] (base ++ [child])) by done.
  cbn [rev app]. by rewrite normalize_onto_plain.
Qed.

Lemma foldr_path_app (a b : list string) :
  foldr (fun seg rest => "/" +:+ seg +:+ rest) "" (a ++ b) =
  foldr (fun seg rest => "/" +:+ seg +:+ rest) "" a +:+
  foldr (fun seg rest => "/" +:+ seg +:+ rest) "" b.
Proof.
  induction a as [|seg a IH]; [done|].
  cbn [app foldr]. rewrite IH.
  by rewrite !StringFacts.append_assoc.
Qed.

(** A path below [a] starts, as a string, with the string of [a]. *)
Lemma path_string_below (a b : list string) :
  startsWith (path_string (a ++ b)) (path_string a) = true.
Proof.
  unfold startsWith. destruct a as [|seg a].
  - destruct b as [|seg b]; [done|]. cbn [app path_string foldr].
    apply StringFacts.prefix_append.
  - change (path_string ((seg :: a) ++ b))
      with (foldr (fun seg rest => "/" +:+ seg +:+ rest) "" ((seg :: a) ++ b)).
    rewrite foldr_path_app. apply StringFacts.prefix_append.
Qed.

(** A catalog entry is a plain name without a slash. *)
Lemma version_plain (v : string) :
  version_re_test v = true -> plain v ∧ any_char is_slash v = false.
Proof.
  intros H. split.
  - destruct (GrammarFacts.version_re_test_head v H) as (c & v' & -> & Hc).
    repeat split; intros [= -> _]; done.
  - apply StringFacts.no_slash_digits_dots. by apply (GrammarFacts.version_re_from_chars v true).
Qed.

(** For a name of the digit-dot grammar the resolved path is the child of
    [BASE_DIR] with that name, and the containment check passes. *)
Lemma resolved_path_of_version (dirname : list string) (v : string) :
  version_re_test v = true ->
  path_resolve (path_join (BASE_DIR dirname) [v]) = (BASE_DIR dirname ++ [v])%list ∧
  startsWith (path_string (path_resolve (path_join (BASE_DIR dirname) [v])))
             (path_string (BASE_DIR dirname)) = true.
Proof.
  intros H. destruct (version_plain v H) as [Hplain Hslash].
  rewrite path_join_child by (done || apply BASE_DIR_plain).
  split; [done|]. apply path_string_below.
Qed.

End PathFacts.

(** ** The endpoints of the host *)

Module HostFacts.
Import JsString JsArray Http Host Design.

Lemma get_versions_catalog (h : host) : get_versions h = StatusTrue (catalog h).
Proof. done. Qed.

Lemma catalog_entry (h : host) (v : string) :
  In v (catalog h) -> version_re_test v = true ∧ In v (getFolders h).
Proof.
  intros H. apply (Permutation_in _ (SortFacts.sort_perm compareVersions _)) in H.
  apply filter_In in H. tauto.
Qed.

Lemma catalog_unreadable (h : host) : readdirSync h = None -> catalog h = [].
Proof.
  intros H. unfold catalog, get_versions, getFolders. by rewrite H.
Qed.

Lemma catalog_entry_upper (h : host) (v : string) : In v (catalog h) -> toUpperCase v = v.
Proof.
  intros [H _]%catalog_entry. apply StringFacts.toUpperCase_digits_dots.
  by apply (GrammarFacts.version_re_from_chars v true).
Qed.

Lemma catalog_entry_truthy (h : host) (v : string) : In v (catalog h) -> truthy v = true.
Proof.
  intros [H _]%catalog_entry.
  by destruct (GrammarFacts.version_re_test_head v H) as (c & v' & -> & _).
Qed.

(** A name of digits and dots is not empty, has no white space and no
    letter, and is not [LATEST]. *)
Lemma version_spelling (v : string) :
  version_re_test v = true ->
  truthy v = true ∧ toUpperCase v = v ∧ remove_spaces v = v ∧ toUpperCase v ≠ "LATEST".
Proof.
  intros H.
  pose proof (GrammarFacts.version_re_from_chars v true H) as Hchars.
  destruct (GrammarFacts.version_re_test_head v H) as (c & v' & -> & Hc).
  rewrite StringFacts.toUpperCase_digits_dots, StringFacts.remove_spaces_digits_dots by done.
  split_and!; try done. intros [= -> _]. done.
Qed.

(** The entry that [find] settles on is the one entry with that spelling. *)
Lemma find_requested_found (h : host) (first s v : string) :
  String.eqb (toUpperCase s) "LATEST" = false ->
  In v (catalog h) -> toUpperCase (remove_spaces s) = toUpperCase v ->
  find_requested (catalog h) first s = inr v.
Proof.
  intros Hlatest Hin Heq. unfold find_requested. rewrite Hlatest.
  destruct (List.find _ (catalog h)) as [found|] eqn:Hfind.
  - apply find_some in Hfind as [Hfound Hsame%String.eqb_eq].
    rewrite (catalog_entry_truthy h found Hfound).
    rewrite Heq, (catalog_entry_upper h found Hfound), (catalog_entry_upper h v Hin) in Hsame.
    by subst.
  - apply (find_none _ _ Hfind) in Hin. rewrite Heq, String.eqb_refl in Hin. done.
Qed.

Lemma find_requested_none (versions : list string) (first s : string) :
  String.eqb (toUpperCase s) "LATEST" = false ->
  (∀ v, In v versions -> toUpperCase (remove_spaces s) ≠ toUpperCase v) ->
  find_requested versions first s =
  inl (Json 404 (ErrorBody ("Version " +:+ s +:+
         " not found, try a different version or 'version=LATEST' to get the latest version"))).
Proof.
  intros Hlatest Hnone. unfold find_requested. rewrite Hlatest.
  destruct (List.find _ versions) as [found|] eqn:Hfind; [|done].
  apply find_some in Hfind as [Hfound Hsame%String.eqb_eq].
  by destruct (Hnone found Hfound).
Qed.

Lemma find_requested_in (versions : list string) (first s v : string) :
  In first versions -> find_requested versions first s = inr v -> In v versions.
Proof.
  unfold find_requested. intros Hfirst.
  destruct (String.eqb _ "LATEST"); [by intros [= <-]|].
  destruct (List.find _ versions) as [found|] eqn:Hfind; [|done].
  destruct (truthy found); [|done]. intros [= <-].
  by apply find_some in Hfind as [? _].
Qed.

(** The containment check passes for every entry of the catalog. *)
Lemma send_version_catalog (dirname : list string) (h : host) (v : string) :
  In v (catalog h) ->
  send_version dirname h v =
  if negb (existsSync dirname h (BASE_DIR dirname ++ [v])) ||
     negb (statSync_isDirectory dirname h (BASE_DIR dirname ++ [v]))
  then Json 404 (ErrorBody ("Version " +:+ v +:+ " not found"))
  else Attachment (Some (v +:+ ".tar.gz")) (createTarStream dirname h (BASE_DIR dirname ++ [v])).
Proof.
  intros [Hv _]%catalog_entry. unfold send_version.
  destruct (PathFacts.resolved_path_of_version dirname v Hv) as [Hpath Hstarts].
  rewrite Hstarts, Hpath. done.
Qed.

(** What [GET /updates] can answer: one of the early answers, or what
    [send_version] answers for an entry of the catalog. *)
Lemma get_updates_cases (dirname : list string) (h : host) (q : query_value) :
  get_updates dirname h q = Json 404 (ErrorBody "No available releases for this app") ∨
  get_updates dirname h q = Json 500 (ErrorBody "Internal server error") ∨
  (∃ s, q = Str s ∧
        get_updates dirname h q =
        Json 404 (ErrorBody ("Version " +:+ s +:+
          " not found, try a different version or 'version=LATEST' to get the latest version"))) ∨
  (∃ v, In v (catalog h) ∧ get_updates dirname h q = send_version dirname h v).
Proof.
  unfold get_updates. rewrite get_versions_catalog.
  destruct (catalog h) as [|first rest] eqn:Hcat; [by left|].
  assert (Hfirst : In first (first :: rest)) by by left.
  assert (Hlatest : find_requested (first :: rest) first "LATEST" = inr first) by done.
  destruct q as [|s|].
  - rewrite Hlatest. right; right; right. eauto.
  - destruct (truthy s) eqn:Hs.
    + destruct (find_requested (first :: rest) first s) as [early|v] eqn:Hfind.
      * right; right; left. exists s. split; [done|].
        unfold find_requested in Hfind.
        destruct (String.eqb _ "LATEST"); [done|].
        destruct (List.find _ _) as [found|]; [destruct (truthy found)|]; congruence.
      * right; right; right. exists v. split; [|done].
        by apply (find_requested_in _ first s).
    + rewrite Hlatest. right; right; right. eauto.
  - right; left. done.
Qed.

(** C5, as the code has it: [get_versions] never fails.  For every state of
    the package root it returns [Status: true]; a root that cannot be read is
    reported as the empty catalog; names that do not match the grammar are
    left out without an error; [GET /versions] answers 200 with the catalog
    and, as [latest], its first entry, or [null] when it is empty.  The
    handler would answer a failure of [get_versions] with 500. *)
Theorem catalog_read_never_fails (h : host) :
  get_versions h = StatusTrue (catalog h) ∧
  (readdirSync h = None -> catalog h = []) ∧
  get_versions_endpoint h = Json 200 (VersionsBody (catalog h) (head (catalog h))) ∧
  (catalog h = [] -> head (catalog h) = None) ∧
  (∀ first rest, catalog h = first :: rest -> head (catalog h) = Some first) ∧
  (∀ error, respond_versions (StatusFalse error) = Json 500 (ErrorBody error)).
Proof.
  split_and!; try done.
  - apply catalog_unreadable.
  - by intros ->.
  - by intros first rest ->.
Qed.

(** C5 as stated fails: when the package root cannot be read, [get_versions]
    does not fail and [GET /versions] does not answer 500. *)
Lemma unreadable_root_is_not_an_error :
  ¬ (∀ h, readdirSync h = None ->
          ∃ error, get_versions h = StatusFalse error ∧
                   get_versions_endpoint h = Json 500 (ErrorBody error)).
Proof.
  intros H. destruct (H {| readdirSync := None |} eq_refl) as (error & Hfail & _).
  discriminate Hfail.
Qed.

Lemma catalog_read_never_fails_witness :
  get_versions Scenario.unreadable = StatusTrue [] ∧
  get_versions_endpoint Scenario.unreadable = Json 200 (VersionsBody [] None).
Proof.
  destruct (catalog_read_never_fails Scenario.unreadable) as (Hget & Hempty & Hanswer & _).
  rewrite Hget, Hanswer, (Hempty eq_refl). split; reflexivity.
Defined.

Lemma get_updates_no_releases (dirname : list string) (h : host) (q : query_value) :
  catalog h = [] ->
  get_updates dirname h q = Json 404 (ErrorBody "No available releases for this app").
Proof.
  unfold get_updates. rewrite get_versions_catalog. by intros ->.
Qed.

Lemma get_updates_latest (dirname : list string) (h : host) (first : string)
    (rest : list string) (s : string) :
  catalog h = first :: rest -> toUpperCase s = "LATEST" ->
  get_updates dirname h (Str s) = send_version dirname h first.
Proof.
  unfold get_updates. rewrite get_versions_catalog. intros Hcat Hs. rewrite Hcat.
  assert (Htruthy : truthy s = true) by (by destruct s).
  rewrite Htruthy. unfold find_requested. by rewrite Hs.
Qed.

Lemma get_updates_no_version (dirname : list string) (h : host) (first : string)
    (rest : list string) :
  catalog h = first :: rest ->
  get_updates dirname h Absent = send_version dirname h first ∧
  get_updates dirname h (Str "") = send_version dirname h first.
Proof.
  unfold get_updates. rewrite get_versions_catalog. by intros ->.
Qed.

Lemma get_updates_found (dirname : list string) (h : host) (s v : string) :
  truthy s = true -> toUpperCase s ≠ "LATEST" ->
  In v (catalog h) -> toUpperCase (remove_spaces s) = toUpperCase v ->
  get_updates dirname h (Str s) = send_version dirname h v.
Proof.
  unfold get_updates. rewrite get_versions_catalog.
  intros Hs Hlatest%String.eqb_neq Hin Heq. rewrite Hs.
  destruct (catalog h) as [|first rest] eqn:Hcat; [done|].
  rewrite <- Hcat in *. by rewrite (find_requested_found h first s v).
Qed.

Lemma get_updates_not_found (dirname : list string) (h : host) (s : string) :
  truthy s = true -> toUpperCase s ≠ "LATEST" -> catalog h ≠ [] ->
  (∀ v, In v (catalog h) -> toUpperCase (remove_spaces s) ≠ toUpperCase v) ->
  get_updates dirname h (Str s) =
  Json 404 (ErrorBody ("Version " +:+ s +:+
    " not found, try a different version or 'version=LATEST' to get the latest version")).
Proof.
  unfold get_updates. rewrite get_versions_catalog.
  intros Hs Hlatest%String.eqb_neq Hcat Hnone. rewrite Hs.
  destruct (catalog h) as [|first rest]; [done|].
  by rewrite find_requested_none.
Qed.

(** C4: resolution of the requested version by [GET /updates].
    - An empty catalog answers 404, whatever is asked.
    - A request that is LATEST in any mix of upper and lower case goes on
      with the first entry of the catalog; so does a request without a
      version.
    - Any other request goes on with the entry of the catalog that equals it
      once the white space is taken out of the request and both are put in
      upper case.
    - When no entry equals it in that way, the answer is 404. *)
Theorem version_resolution (dirname : list string) (h : host) :
  (catalog h = [] ->
   ∀ q, get_updates dirname h q = Json 404 (ErrorBody "No available releases for this app")) ∧
  (∀ first rest s, catalog h = first :: rest -> toUpperCase s = "LATEST" ->
     get_updates dirname h (Str s) = send_version dirname h first) ∧
  (∀ first rest, catalog h = first :: rest ->
     get_updates dirname h Absent = send_version dirname h first ∧
     get_updates dirname h (Str "") = send_version dirname h first) ∧
  (∀ s v, truthy s = true -> toUpperCase s ≠ "LATEST" ->
     In v (catalog h) -> toUpperCase (remove_spaces s) = toUpperCase v ->
     get_updates dirname h (Str s) = send_version dirname h v) ∧
  (∀ s, truthy s = true -> toUpperCase s ≠ "LATEST" -> catalog h ≠ [] ->
     (∀ v, In v (catalog h) -> toUpperCase (remove_spaces s) ≠ toUpperCase v) ->
     get_updates dirname h (Str s) =
     Json 404 (ErrorBody ("Version " +:+ s +:+
       " not found, try a different version or 'version=LATEST' to get the latest version"))).
Proof.
  split_and!.
  - intros Hcat q. by apply get_updates_no_releases.
  - intros first rest s. apply get_updates_latest.
  - intros first rest. apply get_updates_no_version.
  - intros s v. apply get_updates_found.
  - intros s. apply get_updates_not_found.
Qed.

(** The design document's examples: [" 1.0.0 "] is served as 1.0.0 and
    [latest] as the first entry; a prefix of an entry is not served. *)
Example resolution_examples :
  let h := {| readdirSync := Some [ {| name := "1.0.0"; node := FsDirectory [] |};
                                    {| name := "2.1.0"; node := FsDirectory [] |} ] |} in
  let dirname := ["srv"; "Package Updates"] in
  get_updates dirname h (Str " 1.0.0 ") = send_version dirname h "1.0.0" ∧
  get_updates dirname h (Str "latest") = send_version dirname h "2.1.0" ∧
  send_version dirname h "2.1.0" =
    Attachment (Some "2.1.0.tar.gz") (Tar.Intact [(["2.1.0"], Tar.Directory)]) ∧
  get_updates dirname h (Str "1.0") =
    Json 404 (ErrorBody
      "Version 1.0 not found, try a different version or 'version=LATEST' to get the latest version").
Proof. vm_compute. done. Qed.

(** White space and letters are those of Unicode: a no-break space is taken
    out of the request as a space is, and [late], long s, [t] is LATEST in
    upper case; with a byte order mark in front it is not, and there is no
    version of that name. *)
Example resolution_sees_characters :
  let dirname := ["srv"; "Package Updates"] in
  get_updates dirname Scenario.two_versions (Str (utf8 160 +:+ "1.0.0")) =
    send_version dirname Scenario.two_versions "1.0.0" ∧
  get_updates dirname Scenario.two_versions (Str ("late" +:+ utf8 383 +:+ "t")) =
    send_version dirname Scenario.two_versions "2.1.0" ∧
  get_updates dirname Scenario.two_versions (Str (utf8 65279 +:+ "latest")) =
    Json 404 (ErrorBody ("Version " +:+ utf8 65279 +:+ "latest" +:+
      " not found, try a different version or 'version=LATEST' to get the latest version")).
Proof. vm_compute. done. Qed.

Lemma version_resolution_witness :
  let dirname := ["srv"; "Package Updates"] in
  get_updates dirname Scenario.two_versions (Str "LaTeSt") =
    send_version dirname Scenario.two_versions "2.1.0" ∧
  get_updates dirname Scenario.two_versions (Str " 1.0.0 ") =
    send_version dirname Scenario.two_versions "1.0.0" ∧
  get_updates dirname Scenario.two_versions (Str "1.0") =
    Json 404 (ErrorBody
      "Version 1.0 not found, try a different version or 'version=LATEST' to get the latest version").
Proof.
  intros dirname.
  destruct (version_resolution dirname Scenario.two_versions)
    as (_ & Hlatest & _ & Hfound & Hnone).
  split_and!.
  - apply (Hlatest "2.1.0" ["1.0.0"]); reflexivity.
  - apply Hfound; [reflexivity | discriminate | | reflexivity].
    right. left. reflexivity.
  - apply Hnone; [reflexivity | discriminate | discriminate |].
    intros v [<-|[<-|[]]]; discriminate.
Defined.

(** C2, as the code has it: a request whose version holds [../] is turned
    down with 404, before any path is built: the answer is the 404 of the
    empty catalog or the 404 that names the requested string as it was sent.
    It is never 403, never a download, and nothing of the host's paths is in
    it. *)
Theorem traversal_request_not_found (dirname : list string) (h : host) (s : string) :
  includes s "../" = true ->
  get_updates dirname h (Str s) =
  Json 404 (ErrorBody
    (match catalog h with
     | [] => "No available releases for this app"
     | _ => "Version " +:+ s +:+
            " not found, try a different version or 'version=LATEST' to get the latest version"
     end)).
Proof.
  intros Hs%StringFacts.includes_dotdotslash.
  assert (Htruthy : truthy s = true) by (by destruct s).
  assert (Hlatest : toUpperCase s ≠ "LATEST").
  { intros Heq. rewrite <- StringFacts.any_slash_toUpperCase, Heq in Hs. done. }
  destruct (catalog h) as [|first rest] eqn:Hcat; [by apply get_updates_no_releases|].
  apply get_updates_not_found; try done; [by rewrite Hcat|].
  intros v Hv Heq.
  pose proof (catalog_entry_upper h v Hv) as Hupper.
  apply catalog_entry in Hv as [Hv _].
  apply (GrammarFacts.version_re_from_chars v true), StringFacts.no_slash_digits_dots in Hv.
  rewrite <- Hupper, <- Heq, StringFacts.any_slash_toUpperCase,
    StringFacts.any_slash_remove_spaces in Hv.
  congruence.
Qed.

Lemma traversal_request_not_found_witness :
  includes "../../etc/passwd" "../" = true ∧
  get_updates ["srv"; "Package Updates"]
    {| readdirSync := Some [ {| name := "1.0.0"; node := FsDirectory [] |} ] |}
    (Str "../../etc/passwd") =
  Json 404 (ErrorBody
    "Version ../../etc/passwd not found, try a different version or 'version=LATEST' to get the latest version").
Proof.
  split; [reflexivity|].
  apply (traversal_request_not_found ["srv"; "Package Updates"]
           {| readdirSync := Some [ {| name := "1.0.0"; node := FsDirectory [] |} ] |}
           "../../etc/passwd").
  reflexivity.
Defined.

(** C2 as stated fails: the request [../secret] is answered 404 (not found),
    not 403. *)
Lemma traversal_request_is_not_answered_403 :
  ¬ (∀ dirname h s, includes s "../" = true ->
       ∃ b, get_updates dirname h (Str s) = Json 403 b).
Proof.
  intros H.
  destruct (H ["srv"; "Package Updates"]
              {| readdirSync := Some [ {| name := "1.0.0"; node := FsDirectory [] |} ] |}
              "../secret" eq_refl) as (b & Hb).
  vm_compute in Hb. discriminate Hb.
Qed.

(** C10: whatever is requested, the version that reaches the containment
    check is an entry of the catalog; it matches the digit-dot expression,
    its resolved path is the child of [BASE_DIR] with that name, so the check
    passes, and [GET /updates] never answers 403.  A download is always that of
    an entry of the catalog. *)
Theorem containment_check_always_passes (dirname : list string) (h : host) (q : query_value) :
  (∀ v, In v (catalog h) ->
     version_re_test v = true ∧
     path_resolve (path_join (BASE_DIR dirname) [v]) = (BASE_DIR dirname ++ [v])%list ∧
     startsWith (path_string (path_resolve (path_join (BASE_DIR dirname) [v])))
                (path_string (BASE_DIR dirname)) = true) ∧
  (∀ b, get_updates dirname h q ≠ Json 403 b) ∧
  (∀ filename data, get_updates dirname h q = Attachment filename data ->
     ∃ v, In v (catalog h) ∧ get_updates dirname h q = send_version dirname h v ∧
          filename = Some (v +:+ ".tar.gz")).
Proof.
  split_and!.
  - intros v [Hv _]%catalog_entry. split; [done|].
    apply PathFacts.resolved_path_of_version, Hv.
  - intros b.
    destruct (get_updates_cases dirname h q) as [->|[->|[(s & _ & ->)|(v & Hv & ->)]]];
      try done.
    rewrite send_version_catalog by done. by destruct (_ || _).
  - intros filename data.
    destruct (get_updates_cases dirname h q) as [->|[->|[(s & _ & ->)|(v & Hv & Hsend)]]];
      try done.
    rewrite Hsend. intros Hdata. exists v. split_and!; try done.
    rewrite send_version_catalog in Hdata by done.
    destruct (_ || _); congruence.
Qed.

Lemma containment_check_always_passes_witness :
  let dirname := ["srv"; "Package Updates"] in
  path_resolve (path_join (BASE_DIR dirname) ["2.1.0"]) = ["srv"; "app"; "2.1.0"] ∧
  get_updates dirname Scenario.two_versions (Str "2.1.0") ≠
    Json 403 (ErrorBody "Invalid version path").
Proof.
  intros dirname.
  destruct (containment_check_always_passes dirname Scenario.two_versions (Str "2.1.0"))
    as (Hpath & Hnever & _).
  split.
  - destruct (Hpath "2.1.0") as (_ & Hresolved & _); [left; reflexivity|].
    exact Hresolved.
  - apply Hnever.
Defined.

End HostFacts.

(** ** The client *)

Module ClientFacts.
Import JsString Http Host Client Design Scenario.

Local Open Scope js_scope.
Local Open Scope list_scope.

(** *** Unpacking *)

Lemma unpack_below (dir : directory) (top : string) (p : list string) (k : Tar.entry_kind) :
  p ≠ [] -> unpack dir (top :: p, k) = <[p := k]> dir.
Proof. by destruct p. Qed.

Lemma unpack_top (dir : directory) (top : string) (k : Tar.entry_kind) :
  unpack dir ([top], k) = dir.
Proof. done. Qed.

Lemma unpack_lookup (dir : directory) (e : Tar.entry) (p : list string) (k : Tar.entry_kind) :
  unpack dir e !! p = Some k ->
  dir !! p = Some k ∨ (p ≠ [] ∧ ∃ top, e = (top :: p, k)).
Proof.
  destruct e as [[|top [|seg q]] k']; try (by left).
  rewrite unpack_below by done.
  destruct (decide (seg :: q = p)) as [<-|Hne].
  - rewrite lookup_insert_eq. intros [= ->]. right. eauto.
  - rewrite lookup_insert_ne by done. by left.
Qed.

Lemma foldl_unpack_lookup (es : list Tar.entry) (dir : directory)
    (p : list string) (k : Tar.entry_kind) :
  foldl unpack dir es !! p = Some k ->
  dir !! p = Some k ∨ (p ≠ [] ∧ ∃ top, In (top :: p, k) es).
Proof.
  revert dir. induction es as [|e es IH]; intros dir; [by left|].
  cbn [foldl]. intros [H|(Hp & top & Hin)]%IH.
  - apply unpack_lookup in H as [H|(Hp & top & ->)]; [by left|].
    right. split; [done|]. exists top. by left.
  - right. split; [done|]. exists top. by right.
Qed.






(** The archive that the host makes of a package unpacks to the package:
    each file and directory of the walk lands at its own relative path. *)
Lemma unpacked_package (top : string) (walk : list Tar.entry) :
  Forall (fun e : Tar.entry => e.1 ≠ []) walk ->
  unpacked (Tar.Intact (([top], Tar.Directory) ::
                        map (fun e : Tar.entry => (top :: e.1, e.2)) walk)) =
  foldl (fun (dir : directory) (e : Tar.entry) => <[e.1 := e.2]> dir) ∅ walk.
Proof.
  unfold unpacked. cbn [Tar.entries foldl]. rewrite unpack_top.
  generalize (∅ : directory). intros dir Hwalk. revert dir.
  induction Hwalk as [|[p k] walk Hp _ IH]; intros dir; [done|].
  cbn [map foldl fst snd]. rewrite unpack_below by done. apply IH.
Qed.

(** What [extractTar] does with the file [a] at [tarPath]. *)
Lemma extractTar_eq (tarPath : string) (c : client) (a : Tar.archive) :
  downloads c !! tarPath = Some a ->
  extractTar tarPath c =
  match a with
  | Tar.Intact _ =>
      (Returns tt,
       {| app := Some (unpacked a); versionFile := versionFile c; downloads := downloads c;
          console := console c ++ [Log "Extraction completed successfully"] |})
  | Tar.Damaged _ reason =>
      (Throws (BadArchive reason),
       {| app := Some (unpacked a); versionFile := versionFile c; downloads := downloads c;
          console := console c ++ [Error ("Error extracting tar file: " +:+ reason)] |})
  end.
Proof.
  intros Ha.
  unfold extractTar, try_catch, bind, existsSync_app, rmSync_app, mkdirSync_app, set_app,
    tar_x, console_log, console_error, throw, ret.
  destruct (app c) as [dir|] eqn:Happ; cbn [bool_decide decide_rel app versionFile downloads console];
    [rewrite bool_decide_eq_true_2 by eauto | rewrite bool_decide_eq_false_2 by (by intros [? ?])];
    cbn [app versionFile downloads console]; rewrite ?Happ;
    cbn [app versionFile downloads console]; rewrite Ha;
    by destruct a.
Qed.



(** *** A run of [update] *)

(** What [update] leaves, by the outcome of the request and the state of the
    archive that came. *)
Lemma update_eq (server : remote) (version : string) (c : client) :
  update server version c =
  match request_outcome server (GetUpdates (Str version)) with
  | Throws e =>
      (Returns false,
       {| app := app c; versionFile := versionFile c; downloads := downloads c;
          console := console c ++
            [ Log ("Starting update to version: " +:+ version);
              Log "Downloading version...";
              Error ("Error downloading version: " +:+ message e);
              Error ("Update failed: " +:+ message e) ] |})
  | Returns r =>
      let tarPath := download_filename version r in
      match piped r with
      | Tar.Intact _ =>
          (Returns true,
           {| app := Some (unpacked (piped r));
              versionFile := Some (actual_version version tarPath);
              downloads := delete tarPath (<[tarPath := piped r]> (downloads c));
              console := console c ++
                [ Log ("Starting update to version: " +:+ version);
                  Log "Downloading version...";
                  Log "Extracting...";
                  Log "Extraction completed successfully";
                  Log ("Recorded version: " +:+ actual_version version tarPath);
                  Log "Update completed successfully!" ] |})
      | Tar.Damaged _ reason =>
          (Returns false,
           {| app := Some (unpacked (piped r));
              versionFile := versionFile c;
              downloads := <[tarPath := piped r]> (downloads c);
              console := console c ++
                [ Log ("Starting update to version: " +:+ version);
                  Log "Downloading version...";
                  Log "Extracting...";
                  Error ("Error extracting tar file: " +:+ reason);
                  Error ("Update failed: " +:+ reason) ] |})
      end
  end.
Proof.
  unfold update, downloadVersion, recordVersion, axios.
  unfold try_catch at 1. unfold bind at 1. unfold console_log at 1.
  unfold bind at 1. unfold console_log at 1.
  unfold bind at 1. unfold try_catch at 1. unfold bind at 1.
  cbn [app versionFile downloads console].
  destruct (request_outcome server (GetUpdates (Str version))) as [r|e].
  - unfold bind at 1. unfold bind at 1. unfold set_downloads at 1. unfold ret at 1.
    cbn [app versionFile downloads console].
    unfold bind at 1. unfold console_log at 1. unfold bind at 1.
    cbn [app versionFile downloads console].
    rewrite (extractTar_eq _ _ (piped r)) by apply lookup_insert_eq.
    cbn [app versionFile downloads console].
    destruct (piped r) as [entries|written reason].
    + unfold bind, try_catch, write_versionFile, console_log, set_downloads, ret.
      cbn [app versionFile downloads console].
      by rewrite <- !app_assoc.
    + unfold bind, console_error, ret.
      cbn [app versionFile downloads console message].
      by rewrite <- !app_assoc.
  - unfold bind, console_error, throw, ret.
    cbn [app versionFile downloads console].
    by rewrite <- !app_assoc.
Qed.

(** *** From the host's disk to the client's *)

Lemma folder_in_catalog (h : host) (items : list dirent) (d : dirent) (v : string) :
  readdirSync h = Some items ->
  List.find (fun d => String.eqb (name d) v) items = Some d ->
  isDirectory d = true -> version_re_test v = true ->
  In v (catalog h).
Proof.
  intros Hitems Hfind Hdir Hv.
  apply find_some in Hfind as [Hd Hname%String.eqb_eq].
  apply (Permutation_in _ (Permutation_sym (SortFacts.sort_perm compareVersions _))).
  apply filter_In. split; [|done].
  unfold getFolders. rewrite Hitems. apply in_map_iff. exists d. split; [done|].
  by apply filter_In.
Qed.

Lemma stat_child (dirname : list string) (h : host) (items : list dirent) (v : string) :
  readdirSync h = Some items ->
  stat dirname h (BASE_DIR dirname ++ [v]) =
  node <$> List.find (fun d => String.eqb (name d) v) items.
Proof.
  intros Hitems. unfold stat, path_basename. rewrite Hitems, last_last.
  by destruct (decide _).
Qed.

(** What the host sends once the request is resolved to a version that is a
    directory of its root. *)
Lemma send_version_package (dirname : list string) (h : host) (items : list dirent)
    (d : dirent) (v : string) (walk : list Tar.entry) :
  readdirSync h = Some items ->
  List.find (fun d => String.eqb (name d) v) items = Some d ->
  node d = FsDirectory walk -> version_re_test v = true ->
  In v (catalog h) ∧
  send_version dirname h v =
  Attachment (Some (v +:+ ".tar.gz"))
    (Tar.Intact (([v], Tar.Directory) :: map (fun e : Tar.entry => (v :: e.1, e.2)) walk)).
Proof.
  intros Hitems Hfind Hnode Hv.
  assert (Hdir : isDirectory d = true) by (unfold isDirectory; by rewrite Hnode).
  pose proof (folder_in_catalog h items d v Hitems Hfind Hdir Hv) as Hin.
  split; [done|].
  rewrite HostFacts.send_version_catalog by done.
  unfold existsSync, statSync_isDirectory, createTarStream, path_basename.
  rewrite (stat_child dirname h items v Hitems), Hfind. cbn [fmap option_fmap option_map].
  rewrite Hnode, last_last. done.
Qed.

(** What the host sends for a version that is a directory of its root. *)
Lemma get_updates_package (dirname : list string) (h : host) (items : list dirent)
    (d : dirent) (v : string) (walk : list Tar.entry) :
  readdirSync h = Some items ->
  List.find (fun d => String.eqb (name d) v) items = Some d ->
  node d = FsDirectory walk -> version_re_test v = true ->
  get_updates dirname h (Str v) =
  Attachment (Some (v +:+ ".tar.gz"))
    (Tar.Intact (([v], Tar.Directory) :: map (fun e : Tar.entry => (v :: e.1, e.2)) walk)).
Proof.
  intros Hitems Hfind Hnode Hv.
  destruct (send_version_package dirname h items d v walk) as [Hin <-]; try done.
  destruct (HostFacts.version_spelling v Hv) as (Htruthy & Hupper & Hclean & Hlatest).
  apply HostFacts.get_updates_found; try done. by rewrite Hclean.
Qed.

(** Every JSON answer of [GET /updates] has status 404 or 500. *)
Lemma get_updates_json_status (dirname : list string) (h : host) (q : query_value)
    (status : nat) (b : body) :
  get_updates dirname h q = Json status b -> status = 404 ∨ status = 500.
Proof.
  destruct (HostFacts.get_updates_cases dirname h q)
    as [->|[->|[(s & _ & ->)|(v & Hv & ->)]]]; try (intros [= <- _]; tauto).
  rewrite HostFacts.send_version_catalog by done.
  destruct (_ || _); [|done]. intros [= <- _]. tauto.
Qed.

Lemma request_outcome_host (dirname : list string) (h : host) (version : string) :
  request_outcome (serve dirname h) (GetUpdates (Str version)) =
  match get_updates dirname h (Str version) with
  | Attachment filename data => Returns (Attachment filename data)
  | Json status _ => Throws (RequestFailed status)
  end.
Proof.
  unfold request_outcome, serve.
  destruct (get_updates dirname h (Str version)) as [status b|filename data] eqn:Hget; [|done].
  by destruct (get_updates_json_status dirname h _ status b Hget) as [-> | ->].
Qed.

(** *** The version on record *)

Lemma basename_plain (s : string) : any_char is_slash s = false -> basename s = s.
Proof.
  intros H. unfold basename. by rewrite StringFacts.split_no_separator.
Qed.

Lemma digit_or_dot_not_t (c : ascii) :
  is_digit c || Ascii.eqb c "." = true -> c ≠ "t"%char.
Proof. by intros H ->. Qed.

(** In [v.tar.gz], for [v] of digits and dots, the first [.tar.gz] is the one
    at the end. *)
Lemma replace_first_extension (v : string) :
  all_chars (fun c => is_digit c || Ascii.eqb c ".") v = true ->
  replace_first ".tar.gz" "" (v +:+ ".tar.gz") = v.
Proof.
  induction v as [|c v IH]; [done|].
  cbn [all_chars]. intros [Hc Hv]%andb_prop.
  rewrite StringFacts.append_cons. cbn [replace_first].
  replace (String.prefix ".tar.gz" (String c (v +:+ ".tar.gz"))) with false.
  - by rewrite IH.
  - cbn [String.prefix]. destruct (ascii_dec "." c); [|done].
    destruct v as [|c' v]; [done|].
    rewrite StringFacts.append_cons. cbn [String.prefix].
    destruct (ascii_dec "t" c') as [<-|]; [|done].
    cbn [all_chars] in Hv. done.
Qed.

Lemma actual_version_latest (v : string) :
  version_re_test v = true -> actual_version "LATEST" (v +:+ ".tar.gz") = v.
Proof.
  intros H%(GrammarFacts.version_re_from_chars v true).
  unfold actual_version. cbn [String.eqb Ascii.eqb Bool.eqb]. cbv iota.
  rewrite basename_plain.
  - by apply replace_first_extension.
  - rewrite StringFacts.any_char_append, StringFacts.no_slash_digits_dots by done. done.
Qed.

Lemma actual_version_verbatim (v tarPath : string) :
  version_re_test v = true -> actual_version v tarPath = v.
Proof.
  intros H. unfold actual_version.
  destruct (String.eqb_spec v "LATEST") as [->|]; done.
Qed.

(** What [update] leaves when the download is the package of the version
    [v], under the name that the host gives it. *)
Lemma update_of_package (server : remote) (version v : string) (walk : list Tar.entry)
    (c : client) :
  request_outcome server (GetUpdates (Str version)) =
    Returns (Attachment (Some (v +:+ ".tar.gz"))
               (Tar.Intact (([v], Tar.Directory) ::
                            map (fun e : Tar.entry => (v :: e.1, e.2)) walk))) ->
  Forall (fun e : Tar.entry => e.1 ≠ []) walk ->
  ∃ d,
    update server version c =
    (Returns true,
     {| app := Some (foldl (fun (dir : directory) (e : Tar.entry) => <[e.1 := e.2]> dir) ∅ walk);
        versionFile := Some (actual_version version (v +:+ ".tar.gz"));
        downloads := d;
        console := console c ++
          [ Log ("Starting update to version: " +:+ version);
            Log "Downloading version...";
            Log "Extracting...";
            Log "Extraction completed successfully";
            Log ("Recorded version: " +:+ actual_version version (v +:+ ".tar.gz"));
            Log "Update completed successfully!" ] |}) ∧
    d !! (v +:+ ".tar.gz") = None.
Proof.
  intros Hrequest Hwalk. rewrite update_eq, Hrequest.
  cbn [piped download_filename disposition_filename]. cbn zeta.
  rewrite unpacked_package by done.
  eexists. split; [reflexivity|]. apply lookup_delete_eq.
Qed.

(** When the request is [LATEST] as the client spells it, or an entry of the
    catalog letter by letter, a run that succeeds puts on record the version
    that the host sent. *)
Lemma update_records_served_version (dirname : list string) (h : host) (c : client)
    (version v : string) (data : Tar.archive) :
  version = "LATEST" ∨ version = v ->
  In v (catalog h) ->
  get_updates dirname h (Str version) = Attachment (Some (v +:+ ".tar.gz")) data ->
  Tar.intact data = true ->
  (update (serve dirname h) version c).1 = Returns true ∧
  versionFile (update (serve dirname h) version c).2 = Some v ∧
  app (update (serve dirname h) version c).2 = Some (unpacked data).
Proof.
  intros Hversion [Hv _]%HostFacts.catalog_entry Hget Hdata.
  rewrite update_eq. unfold request_outcome, serve. rewrite Hget.
  cbn [piped download_filename disposition_filename].
  destruct data as [entries|written reason]; [|done]. cbn zeta.
  split_and!; try done. cbn [versionFile snd]. f_equal.
  destruct Hversion as [->| ->].
  - by apply actual_version_latest.
  - by apply actual_version_verbatim.
Qed.

(** C9: [update] of a version that the host has, run a second time right
    after the first.  The request is one that the host resolves to the
    version [v]: LATEST in any case when [v] is the first of the catalog, or
    a string that is the name [v] once its white space is taken out.  Both
    runs succeed; after each of them the application directory holds the
    files and directories of the package, each at its path inside the
    package, and nothing else, and version.txt holds the same record: the
    second run leaves what the first left.  The record is [v] when the
    request is the name itself or LATEST as the client spells it.  The
    second run does not look at what is installed: it prints the lines of a
    whole update again, and so does a run from any other state of the
    client, whatever the application directory and version.txt hold before
    it. *)
Theorem update_twice_same_as_once (dirname : list string) (h : host)
    (items : list dirent) (d : dirent) (v : string) (walk : list Tar.entry)
    (version : string) (c : client) :
  readdirSync h = Some items ->
  List.find (fun d => String.eqb (name d) v) items = Some d ->
  node d = FsDirectory walk ->
  version_re_test v = true ->
  Forall (fun e : Tar.entry => e.1 ≠ []) walk ->
  (toUpperCase version = "LATEST" ∧ head (catalog h) = Some v) ∨
  (version ≠ "" ∧ toUpperCase version ≠ "LATEST" ∧ toUpperCase (remove_spaces version) = v) ->
  let package :=
    foldl (fun (dir : directory) (e : Tar.entry) => <[e.1 := e.2]> dir) ∅ walk in
  let record := actual_version version (v +:+ ".tar.gz") in
  let lines :=
    [ Log ("Starting update to version: " +:+ version);
      Log "Downloading version...";
      Log "Extracting...";
      Log "Extraction completed successfully";
      Log ("Recorded version: " +:+ record);
      Log "Update completed successfully!" ] in
  let once := update (serve dirname h) version c in
  let twice := update (serve dirname h) version once.2 in
  (once.1 = Returns true ∧ app once.2 = Some package ∧ versionFile once.2 = Some record) ∧
  (twice.1 = Returns true ∧ app twice.2 = Some package ∧ versionFile twice.2 = Some record ∧
   console twice.2 = console once.2 ++ lines) ∧
  (∀ c', (update (serve dirname h) version c').1 = Returns true ∧
         app (update (serve dirname h) version c').2 = Some package ∧
         versionFile (update (serve dirname h) version c').2 = Some record ∧
         console (update (serve dirname h) version c').2 = console c' ++ lines) ∧
  (version = v ∨ version = "LATEST" -> record = v).
Proof.
  intros Hitems Hfind Hnode Hv Hwalk Hversion. cbn zeta.
  destruct (send_version_package dirname h items d v walk) as [Hin Hsend]; try done.
  destruct (HostFacts.version_spelling v Hv) as (Htruthy & Hupper & Hclean & Hlatest).
  assert (Hget : get_updates dirname h (Str version) =
                 Attachment (Some (v +:+ ".tar.gz"))
                   (Tar.Intact (([v], Tar.Directory) ::
                                map (fun e : Tar.entry => (v :: e.1, e.2)) walk))).
  { rewrite <- Hsend. destruct Hversion as [[Hs Hhead]|(Hne & Hs & Hname)].
    - destruct (catalog h) as [|first rest] eqn:Hcat; [done|].
      injection Hhead as ->. by apply (HostFacts.get_updates_latest dirname h v rest).
    - apply HostFacts.get_updates_found; try done; [|by rewrite Hupper].
      unfold truthy. by destruct (String.eqb_spec version ""). }
  assert (Hrun : ∀ c', (update (serve dirname h) version c').1 = Returns true ∧
                       app (update (serve dirname h) version c').2 =
                         Some (foldl (fun (dir : directory) (e : Tar.entry) =>
                                        <[e.1 := e.2]> dir) ∅ walk) ∧
                       versionFile (update (serve dirname h) version c').2 =
                         Some (actual_version version (v +:+ ".tar.gz")) ∧
                       console (update (serve dirname h) version c').2 =
                         console c' ++
                         [ Log ("Starting update to version: " +:+ version);
                           Log "Downloading version...";
                           Log "Extracting...";
                           Log "Extraction completed successfully";
                           Log ("Recorded version: " +:+
                                actual_version version (v +:+ ".tar.gz"));
                           Log "Update completed successfully!" ]).
  { intros c'.
    by destruct (update_of_package (serve dirname h) version v walk c') as (dl & -> & _);
      [by rewrite request_outcome_host, Hget | done |]. }
  split_and!; try apply Hrun.
  intros [->| ->].
  - by apply actual_version_verbatim.
  - by apply actual_version_latest.
Qed.

Lemma update_twice_same_as_once_witness :
  let server := serve ["srv"; "Package Updates"] Scenario.two_versions in
  let c := {| app := Some {[ ["stale.js"] := Tar.File "old" ]};
              versionFile := None; downloads := ∅; console := [] |} in
  (update server "2.1.0" c).1 = Returns true ∧
  app (update server "2.1.0" c).2 = Some {[ ["main.js"] := Tar.File "code 2.1.0" ]} ∧
  (update server "2.1.0" (update server "2.1.0" c).2).1 = Returns true ∧
  app (update server "2.1.0" (update server "2.1.0" c).2).2 =
    Some {[ ["main.js"] := Tar.File "code 2.1.0" ]} ∧
  versionFile (update server "2.1.0" (update server "2.1.0" c).2).2 = Some "2.1.0".
Proof.
  intros server c.
  destruct (update_twice_same_as_once ["srv"; "Package Updates"] Scenario.two_versions
              _ {| name := "2.1.0"; node := FsDirectory [ (["main.js"], Tar.File "code 2.1.0") ] |}
              "2.1.0" [ (["main.js"], Tar.File "code 2.1.0") ] "2.1.0" c
              eq_refl eq_refl eq_refl eq_refl)
    as ((Hfirst & Happ1 & _) & (Hsecond & Happ2 & Hrecord & _) & _ & Hname).
  - by repeat constructor.
  - right. split_and!; [discriminate | discriminate | reflexivity].
  - rewrite (Hname (or_introl eq_refl)) in Hrecord.
    split_and!; [exact Hfirst | exact Happ1 | exact Hsecond | exact Happ2 | exact Hrecord].
Defined.

(** *** [checkForUpdate] *)

Lemma getAvailableVersions_host (dirname : list string) (h : host) (c : client) :
  getAvailableVersions (serve dirname h) c = (Returns (catalog h), c).
Proof. done. Qed.

(** [getAvailableVersions] and [getCurrentVersion] write no file. *)
Lemma getAvailableVersions_files (server : remote) (c : client) :
  ∃ versions c',
    getAvailableVersions server c = (Returns versions, c') ∧
    app c' = app c ∧ versionFile c' = versionFile c ∧ downloads c' = downloads c.
Proof.
  unfold getAvailableVersions, try_catch, bind, axios.
  destruct (request_outcome server GetVersions) as [r|e].
  - destruct (data_versions r); cbn; eauto 10.
  - cbn. destruct (request_outcome server GetHealth) as [r|e'].
    + destruct (data_versions r); cbn; eauto 10.
    + cbn. eauto 10.
Qed.

(** C8, as the code has it.  Against a host, [checkForUpdate] changes nothing
    of the client, not even the console, and returns false when the catalog
    is empty or when its first entry equals what version.txt holds once the
    white space around it is trimmed off; it returns true otherwise, also
    when there is no version.txt.  The comparison is that of strings.
    Against any server, the result is the same function of the versions
    that [getAvailableVersions] returns and of version.txt, and the
    application directory, version.txt and the downloads are left as they
    were; when the server does not answer, the result is false. *)
Theorem checkForUpdate_compares_strings (dirname : list string) (h : host) (c : client) :
  checkForUpdate (serve dirname h) c =
    (Returns match catalog h with
             | [] => false
             | first :: _ => bool_decide (Some first ≠ trim <$> versionFile c)
             end, c) ∧
  (∀ server, ∃ versions c',
     getAvailableVersions server c = (Returns versions, c') ∧
     checkForUpdate server c =
       (Returns match versions with
                | [] => false
                | first :: _ => bool_decide (Some first ≠ trim <$> versionFile c)
                end, c') ∧
     app c' = app c ∧ versionFile c' = versionFile c ∧ downloads c' = downloads c) ∧
  (∀ server, server GetVersions = None -> server GetHealth = None ->
             (checkForUpdate server c).1 = Returns false).
Proof.
  split_and!.
  - unfold checkForUpdate, try_catch, bind, getCurrentVersion.
    destruct (versionFile c) as [content|] eqn:Hfile;
      rewrite getAvailableVersions_host; unfold ret;
      by destruct (catalog h).
  - intros server.
    destruct (getAvailableVersions_files server c) as (versions & c' & Heq & Happ & Hfile & Hdl).
    exists versions, c'. split_and!; try done.
    unfold checkForUpdate, try_catch, bind, getCurrentVersion.
    destruct (versionFile c); rewrite Heq; unfold ret; by destruct versions.
  - intros server Hversions Hhealth.
    unfold checkForUpdate, try_catch, bind, getCurrentVersion, getAvailableVersions,
      try_catch, bind, axios, request_outcome.
    rewrite Hversions, Hhealth. by destruct (versionFile c).
Qed.

Lemma checkForUpdate_compares_strings_witness :
  let c := {| app := None; versionFile := Some "2.1.0"; downloads := ∅; console := [] |} in
  checkForUpdate (serve ["srv"; "Package Updates"] Scenario.two_versions) c = (Returns false, c).
Proof.
  intros c.
  destruct (checkForUpdate_compares_strings ["srv"; "Package Updates"] Scenario.two_versions c)
    as (Hcheck & _ & _).
  exact Hcheck.
Defined.

(** The record is compared without the white space around it: spaces, line
    ends, and also the byte order mark U+FEFF and the no-break space
    U+00A0. *)
Example checkForUpdate_trims_record :
  let installed record :=
    {| app := None; versionFile := Some record; downloads := ∅; console := [] |} in
  let server := serve ["srv"; "Package Updates"] Scenario.two_versions in
  (checkForUpdate server (installed (" 2.1.0" +:+ utf8 10))).1 = Returns false ∧
  (checkForUpdate server (installed (utf8 65279 +:+ "2.1.0" +:+ utf8 160))).1 = Returns false ∧
  (checkForUpdate server (installed "2.1 .0")).1 = Returns true.
Proof. vm_compute. done. Qed.

(** The check knows no order of versions: with 10.0.0 installed and 2.0.0 the
    newest on the host it reports an update, and so it does for 1.0 installed
    and 1.0.0 on the host. *)
Example checkForUpdate_is_not_semantic :
  let host_with name := {| readdirSync := Some [ {| name := name; node := FsDirectory [] |} ] |} in
  let installed v := {| app := None; versionFile := Some v; downloads := ∅; console := [] |} in
  (checkForUpdate (serve ["srv"] (host_with "2.0.0")) (installed "10.0.0")).1 = Returns true ∧
  (checkForUpdate (serve ["srv"] (host_with "1.0.0")) (installed "1.0")).1 = Returns true ∧
  (checkForUpdate (serve ["srv"] (host_with "2.0.0")) (installed "2.0.0")).1 = Returns false.
Proof. vm_compute. done. Qed.

(** C8 as stated fails: with no version on the host, the record 1.0.0 does
    not equal a first entry of the catalog, and yet [checkForUpdate] returns
    false. *)
Lemma checkForUpdate_false_on_empty_catalog :
  ¬ (∀ dirname h c record, versionFile c = Some record ->
       ((checkForUpdate (serve dirname h) c).1 = Returns false <->
        head (catalog h) = Some record)).
Proof.
  intros H.
  destruct (H ["srv"] {| readdirSync := Some [] |}
              {| app := None; versionFile := Some "1.0.0"; downloads := ∅; console := [] |}
              "1.0.0" eq_refl) as [Hfalse _].
  discriminate (Hfalse eq_refl).
Qed.

(** *** What goes on record *)

(** C7 fails on the code.  The host serves [latest] as 2.1.0 and [" 1.0.0 "]
    as 1.0.0, as it does for every spelling that differs in case or white
    space; the client applies what it is sent, and puts the string of the
    request on record, not the version it applied. *)
Lemma update_records_request_not_applied_version :
  let server := serve ["srv"; "Package Updates"] two_versions in
  let fresh := {| app := None; versionFile := None; downloads := ∅; console := [] |} in
  ((update server "latest" fresh).1 = Returns true ∧
   app (update server "latest" fresh).2 = Some {[ ["main.js"] := Tar.File "code 2.1.0" ]} ∧
   versionFile (update server "latest" fresh).2 = Some "latest") ∧
  ((update server " 1.0.0 " fresh).1 = Returns true ∧
   app (update server " 1.0.0 " fresh).2 = Some {[ ["main.js"] := Tar.File "code 1.0.0" ]} ∧
   versionFile (update server " 1.0.0 " fresh).2 = Some " 1.0.0 ") ∧
  ((update server "LATEST" fresh).1 = Returns true ∧
   versionFile (update server "LATEST" fresh).2 = Some "2.1.0").
Proof. vm_compute. done. Qed.

End ClientFacts.

(** ** More on the catalog *)

Module CatalogMore.
Import JsString JsNumber JsArray Http Host Design.

Local Open Scope list_scope.

Lemma split_nonempty (sep : ascii) (s : string) : split sep s ≠ [].
Proof.
  destruct s as [|c s]; [done|]. cbn [split].
  destruct (Ascii.eqb c sep); [done|]. by destruct (split sep s).
Qed.

Lemma split_append_component (s t : string) :
  any_char (fun c => Ascii.eqb c ".") t = false ->
  split "." (s +:+ "." +:+ t) = split "." s ++ [t].
Proof.
  intros Ht. induction s as [|c s IH].
  - rewrite StringFacts.append_empty_l, StringFacts.append_cons, StringFacts.append_empty_l.
    cbn [split Ascii.eqb Bool.eqb]. cbv iota. f_equal.
    clear -Ht. induction t as [|c t IH]; [done|].
    cbn [any_char] in Ht. apply orb_false_elim in Ht as [Hc Ht].
    cbn [split]. rewrite Hc, IH by done. done.
  - rewrite StringFacts.append_cons. cbn [split]. rewrite IH.
    destruct (Ascii.eqb c "."); [done|].
    pose proof (split_nonempty "." s) as Hne.
    by destruct (split "." s).
Qed.

Lemma lex_compare_pad_zero (t : list Z) :
  tuple_compare t (t ++ [0%Z]) = Eq.
Proof.
  unfold tuple_compare. rewrite length_app. cbn [length].
  replace (Nat.max (length t) (length t + 1)) with (length t + 1)%nat by lia.
  unfold pad. rewrite length_app. cbn [length].
  replace (length t + 1 - length t)%nat with 1%nat by lia.
  replace (length t + 1 - (length t + 1))%nat with 0%nat by lia.
  cbn [replicate]. rewrite app_nil_r. apply CompareFacts.lex_compare_refl.
Qed.

(** X2: a name and the same name with one more component 0 tie: the
    comparator returns 0 for them, in either order. *)
Theorem compareVersions_trailing_zero (v : string) :
  compareVersions v (v +:+ ".0") = 0%Z ∧ compareVersions (v +:+ ".0") v = 0%Z.
Proof.
  assert (H : compareVersions v (v +:+ ".0") = 0%Z).
  { pose proof (CompareFacts.compareVersions_spec v (v +:+ ".0")) as Hspec.
    unfold version_compare, version_tuple in Hspec.
    change (v +:+ ".0") with (v +:+ "." +:+ "0") in Hspec.
    rewrite (split_append_component v "0") in Hspec by done.
    rewrite map_app in Hspec. cbn [map] in Hspec.
    change (default 0%Z (Number "0")) with 0%Z in Hspec.
    rewrite lex_compare_pad_zero in Hspec.
    by apply Z.compare_eq in Hspec. }
  split; [done|].
  pose proof (CompareFacts.compareVersions_flip v (v +:+ ".0")) as Hflip.
  rewrite H in Hflip. cbn in Hflip. by apply Z.sgn_null_iff.
Qed.

(** X1: the comparator is consistent, as [Array.prototype.sort] needs it: a
    name ties with itself, swapping the arguments swaps the sign, and the
    relation "does not come after" is transitive. *)
Theorem compareVersions_consistent :
  (∀ a, compareVersions a a = 0%Z) ∧
  (∀ a b, Z.sgn (compareVersions b a) = (- Z.sgn (compareVersions a b))%Z) ∧
  (∀ a b c, (compareVersions a b <= 0)%Z -> (compareVersions b c <= 0)%Z ->
            (compareVersions a c <= 0)%Z).
Proof.
  split_and!.
  - intros a. pose proof (CompareFacts.compareVersions_flip a a) as H.
    apply Z.sgn_null_iff. lia.
  - apply CompareFacts.compareVersions_flip.
  - apply CompareFacts.compareVersions_trans.
Qed.

Lemma filter_all {A} (f : A -> bool) (l : list A) :
  Forall (fun x => f x = true) l -> List.filter f l = l.
Proof.
  induction 1 as [|x l Hx _ IH]; [done|]. cbn [List.filter]. by rewrite Hx, IH.
Qed.

Lemma sorted_before_version_ge (l : list string) :
  StronglySorted version_ge l -> StronglySorted (before compareVersions) l.
Proof.
  induction 1 as [|a rest Hrest IH Ha]; [constructor|].
  constructor; [done|].
  eapply List.Forall_impl; [|exact Ha].
  intros b Hb. by apply CompareFacts.before_version_ge.
Qed.

Lemma sort_of_sorted (l : list string) :
  StronglySorted (before compareVersions) l -> sort compareVersions l = l.
Proof.
  intros H. symmetry.
  by apply (SortFacts.sort_unique compareVersions
              CompareFacts.compareVersions_flip CompareFacts.compareVersions_trans).
Qed.

(** X3: sorting a catalog again changes nothing: what
    [sortVersionsDescending] returns is a fixed point of it. *)
Theorem sortVersionsDescending_idempotent (versions : list string) :
  ∃ sorted, sortVersionsDescending versions = StatusTrue sorted ∧
            sortVersionsDescending sorted = StatusTrue sorted.
Proof.
  eexists. split; [done|]. unfold sortVersionsDescending. f_equal.
  rewrite filter_all.
  - apply sort_of_sorted.
    apply (SortFacts.sort_strongly_sorted compareVersions
             CompareFacts.compareVersions_flip CompareFacts.compareVersions_trans).
  - apply List.Forall_forall. intros v Hv.
    apply (Permutation_in _ (SortFacts.sort_perm compareVersions _)) in Hv.
    by apply filter_In in Hv as [_ Hv].
Qed.

Lemma filter_Permutation_bool {A} (f : A -> bool) (l l' : list A) :
  Permutation l l' -> Permutation (List.filter f l) (List.filter f l').
Proof.
  induction 1 as [|x l l' _ IH|x y l|l l' l'' _ IH1 _ IH2]; cbn [List.filter].
  - done.
  - destruct (f x); [by constructor|done].
  - destruct (f x), (f y); try done. apply perm_swap.
  - by etrans.
Qed.

(** Lists with the same elements, all of them equal, are equal. *)
Lemma Permutation_all_equal {A} (l l' : list A) :
  Permutation l l' -> (∀ a b, In a l -> In b l -> a = b) -> l = l'.
Proof.
  induction 1 as [|x l l' Hperm IH|x y l|l l' l'' Hperm1 IH1 Hperm2 IH2]; intros Heq.
  - done.
  - f_equal. apply IH. intros a b Ha Hb. apply Heq; by right.
  - assert (Hxy : x = y) by (apply Heq; cbn; tauto).
    by rewrite Hxy.
  - pose proof (IH1 Heq) as <-. by apply IH2.
Qed.

(** X4: the order in which the directory is listed plays no role for the
    catalog, as long as no two different names that match the expression
    tie. *)
Theorem catalog_independent_of_listing_order (listing listing' : list string) :
  Permutation listing listing' ->
  (∀ a b, In a listing -> In b listing ->
          version_re_test a = true -> version_re_test b = true ->
          same_version a b = true -> a = b) ->
  sortVersionsDescending listing = sortVersionsDescending listing'.
Proof.
  intros Hperm Hties. unfold sortVersionsDescending. f_equal.
  apply (SortFacts.sort_unique compareVersions
           CompareFacts.compareVersions_flip CompareFacts.compareVersions_trans).
  - apply (SortFacts.sort_strongly_sorted compareVersions
             CompareFacts.compareVersions_flip CompareFacts.compareVersions_trans).
  - intros z.
    rewrite (SortFacts.sort_stable compareVersions
               CompareFacts.compareVersions_flip CompareFacts.compareVersions_trans).
    apply Permutation_all_equal.
    + by apply filter_Permutation_bool, filter_Permutation_bool.
    + intros a b [[Ha Hra]%filter_In Hza]%filter_In [[Hb Hrb]%filter_In Hzb]%filter_In.
      apply Hties; try done.
      rewrite <- CompareFacts.ties_same_version.
      apply (SortFacts.before_both_ties compareVersions CompareFacts.compareVersions_flip).
      * by apply (SortFacts.ties_before compareVersions CompareFacts.compareVersions_flip
                    CompareFacts.compareVersions_trans z).
      * by apply (SortFacts.ties_before compareVersions CompareFacts.compareVersions_flip
                    CompareFacts.compareVersions_trans z).
Qed.

Lemma catalog_independent_of_listing_order_witness :
  sortVersionsDescending ["1.0.0"; "10.0.0"; "beta"; "2.1.0"] =
  sortVersionsDescending ["2.1.0"; "beta"; "1.0.0"; "10.0.0"].
Proof.
  apply catalog_independent_of_listing_order.
  - apply (Permutation_trans (l' := ["2.1.0"; "1.0.0"; "10.0.0"; "beta"])).
    + change (Permutation (["1.0.0"; "10.0.0"; "beta"] ++ ["2.1.0"])
                          (["2.1.0"] ++ ["1.0.0"; "10.0.0"; "beta"])).
      apply Permutation_app_comm.
    + constructor.
      change (Permutation (["1.0.0"; "10.0.0"] ++ ["beta"]) (["beta"] ++ ["1.0.0"; "10.0.0"])).
      apply Permutation_app_comm.
  - intros a b Ha Hb Hra Hrb Hsame.
    cbn [In] in Ha, Hb.
    destruct Ha as [<-|[<-|[<-|[<-|[]]]]], Hb as [<-|[<-|[<-|[<-|[]]]]];
      try reflexivity; vm_compute in Hsame; discriminate.
Defined.

(** X5: the [latest] of [GET /versions] is at least as new as every version
    of the catalog. *)
Theorem latest_is_newest (h : host) (v : string) :
  In v (catalog h) ->
  ∃ latest,
    get_versions_endpoint h = Json 200 (VersionsBody (catalog h) (Some latest)) ∧
    In latest (catalog h) ∧
    version_ge latest v.
Proof.
  intros Hv.
  pose proof (CatalogFacts.sort_descending (List.filter version_re_test (getFolders h))) as Hsorted.
  change (sort compareVersions (List.filter version_re_test (getFolders h)))
    with (catalog h) in Hsorted.
  unfold get_versions_endpoint, respond_versions. rewrite HostFacts.get_versions_catalog.
  destruct (catalog h) as [|first rest]; [done|].
  exists first. split_and!; [done|by left|].
  inversion Hsorted as [|? ? _ Hall]; subst.
  destruct Hv as [<-|Hv].
  - unfold version_ge, version_compare, tuple_compare.
    by rewrite CompareFacts.lex_compare_refl.
  - by apply (proj1 (List.Forall_forall _ _) Hall).
Qed.

Lemma latest_is_newest_witness :
  ∃ latest,
    get_versions_endpoint Scenario.two_versions =
      Json 200 (VersionsBody ["2.1.0"; "1.0.0"] (Some latest)) ∧
    version_ge latest "1.0.0".
Proof.
  destruct (latest_is_newest Scenario.two_versions "1.0.0") as (latest & Hget & _ & Hge).
  - right. left. reflexivity.
  - exists latest. split; [exact Hget | exact Hge].
Defined.

(** X6: directory names are listed once, and so each version is in the
    catalog once. *)
Theorem catalog_without_duplicates (h : host) :
  List.NoDup (getFolders h) -> List.NoDup (catalog h).
Proof.
  intros H.
  apply (Permutation_NoDup (l := List.filter version_re_test (getFolders h))).
  - symmetry. apply SortFacts.sort_perm.
  - by apply List.NoDup_filter.
Qed.

Lemma catalog_without_duplicates_witness : List.NoDup (catalog Scenario.two_versions).
Proof.
  apply catalog_without_duplicates.
  repeat constructor; cbn; intuition discriminate.
Defined.

End CatalogMore.

(** ** More on the endpoints of the host *)

Module HostMore.
Import JsString JsArray Http Host Design.

Local Open Scope list_scope.

(** X8: [LATEST] with white space around or inside it is not taken for
    [LATEST]: the test for it comes before the white space is removed, and the
    request is then looked up in the catalog, where no entry has that name:
    the answer is 404. *)
Theorem latest_with_spaces_not_found (dirname : list string) (h : host) (s : string) :
  toUpperCase s ≠ "LATEST" ->
  toUpperCase (remove_spaces s) = "LATEST" ->
  get_updates dirname h (Str s) =
  Json 404 (ErrorBody
    (match catalog h with
     | [] => "No available releases for this app"
     | _ => "Version " +:+ s +:+
            " not found, try a different version or 'version=LATEST' to get the latest version"
     end)).
Proof.
  intros Hs Hclean.
  assert (Htruthy : truthy s = true) by (by destruct s).
  destruct (catalog h) as [|first rest] eqn:Hcat;
    [by apply HostFacts.get_updates_no_releases|].
  apply HostFacts.get_updates_not_found; try done; [by rewrite Hcat|].
  intros v [Hv _]%HostFacts.catalog_entry. rewrite Hclean.
  destruct (HostFacts.version_spelling v Hv) as (_ & _ & _ & Hne). congruence.
Qed.

Lemma latest_with_spaces_not_found_witness :
  get_updates ["srv"; "Package Updates"] Scenario.two_versions (Str " latest ") =
  Json 404 (ErrorBody
    "Version  latest  not found, try a different version or 'version=LATEST' to get the latest version").
Proof.
  apply (latest_with_spaces_not_found ["srv"; "Package Updates"] Scenario.two_versions " latest ").
  - discriminate.
  - reflexivity.
Defined.

(** X10: a request for a name of the digit-dot form that is no directory of
    the package root (there is nothing of that name, or it is a plain file)
    is answered 404. *)
Theorem version_without_directory_not_found (dirname : list string) (h : host) (v : string) :
  version_re_test v = true ->
  ¬ In v (getFolders h) ->
  get_updates dirname h (Str v) =
  Json 404 (ErrorBody
    (match catalog h with
     | [] => "No available releases for this app"
     | _ => "Version " +:+ v +:+
            " not found, try a different version or 'version=LATEST' to get the latest version"
     end)).
Proof.
  intros Hv Hnot.
  destruct (HostFacts.version_spelling v Hv) as (Htruthy & Hupper & Hclean & Hlatest).
  destruct (catalog h) as [|first rest] eqn:Hcat;
    [by apply HostFacts.get_updates_no_releases|].
  apply HostFacts.get_updates_not_found; try done; [by rewrite Hcat|].
  intros e He. rewrite Hclean, Hupper, (HostFacts.catalog_entry_upper h e He).
  intros ->. by apply HostFacts.catalog_entry in He as [_ He].
Qed.

Lemma version_without_directory_not_found_witness :
  let h := {| readdirSync := Some [ {| name := "1.0.0"; node := FsDirectory [] |};
                                    {| name := "3.0.0"; node := FsFile "notes" |} ] |} in
  get_updates ["srv"; "Package Updates"] h (Str "3.0.0") =
  Json 404 (ErrorBody
    "Version 3.0.0 not found, try a different version or 'version=LATEST' to get the latest version").
Proof.
  intros h.
  apply (version_without_directory_not_found ["srv"; "Package Updates"] h "3.0.0").
  - reflexivity.
  - cbn. intuition discriminate.
Defined.

(** *** The containment check *)

Lemma normalize_onto_snoc (stack segs : list string) (seg : string) :
  plain seg -> normalize_onto stack (segs ++ [seg]) = normalize_onto stack segs ++ [seg].
Proof.
  intros (H1 & H2 & H3). revert stack. induction segs as [|s segs IH]; intros stack.
  - cbn [app normalize_onto].
    destruct (String.eqb_spec seg ""); [done|].
    destruct (String.eqb_spec seg "."); [done|].
    destruct (String.eqb_spec seg ".."); [done|]. done.
  - cbn [app normalize_onto].
    by destruct (String.eqb s "" || String.eqb s "."), (String.eqb s "..").
Qed.

Lemma normalize_onto_app (stack a b : list string) :
  Forall plain a -> normalize_onto stack (a ++ b) = normalize_onto (rev a ++ stack) b.
Proof.
  intros H. revert stack. induction H as [|seg a (H1 & H2 & H3) _ IH]; intros stack; [done|].
  cbn [app normalize_onto].
  destruct (String.eqb_spec seg ""); [done|].
  destruct (String.eqb_spec seg "."); [done|].
  destruct (String.eqb_spec seg ".."); [done|].
  cbn [orb]. rewrite IH. cbn [rev]. by rewrite <- app_assoc.
Qed.

(** [BASE_DIR] is the directory [app] beside the directory of the script. *)
Lemma BASE_DIR_parent (dirname : list string) :
  BASE_DIR dirname = path_normalize (dirname ++ [".."]) ++ ["app"].
Proof.
  unfold BASE_DIR, path_join, path_normalize.
  change (flat_map (split "/") [".."; "app"]) with ([".."] ++ ["app"]).
  rewrite app_assoc. apply normalize_onto_snoc. by repeat split.
Qed.

Lemma split_climb (sibling : string) :
  any_char is_slash sibling = false -> split "/" ("../" +:+ sibling) = [".."; sibling].
Proof.
  intros H.
  change ("../" +:+ sibling) with (String "." (String "." (String "/" sibling))).
  cbn [split Ascii.eqb Bool.eqb]. cbv iota.
  by rewrite StringFacts.split_no_separator.
Qed.

(** Where a request that climbs out of [BASE_DIR] to a sibling resolves. *)
Lemma resolved_path_of_sibling (dirname : list string) (sibling : string) :
  plain sibling -> any_char is_slash sibling = false ->
  path_resolve (path_join (BASE_DIR dirname) ["../" +:+ sibling]) =
  path_normalize (dirname ++ [".."]) ++ [sibling].
Proof.
  intros Hplain Hslash.
  assert (Hparent : Forall plain (normalize_onto [] (dirname ++ [".."])))
    by (apply PathFacts.normalize_onto_Forall; constructor).
  unfold path_resolve, path_join. cbn [flat_map].
  rewrite split_climb, app_nil_r, BASE_DIR_parent by done.
  fold (path_normalize (dirname ++ [".."])) in Hparent.
  set (parent := path_normalize (dirname ++ [".."])) in *.
  unfold path_normalize at 2.
  rewrite normalize_onto_app by (apply Forall_app; split; [done|]; by repeat constructor).
  rewrite rev_app_distr, app_nil_r. cbn [rev app normalize_onto String.eqb Ascii.eqb Bool.eqb orb tail].
  cbv iota. cbn [tail].
  destruct Hplain as (H1 & H2 & H3).
  destruct (String.eqb_spec sibling ""); [done|].
  destruct (String.eqb_spec sibling "."); [done|].
  destruct (String.eqb_spec sibling ".."); [done|].
  cbn [orb rev]. rewrite rev_involutive.
  unfold path_normalize. rewrite PathFacts.normalize_onto_plain; [done|].
  apply Forall_app; split; [done|]. by repeat constructor.
Qed.

Lemma prefix_append_cancel (a b c : string) :
  String.prefix (a +:+ b) (a +:+ c) = String.prefix b c.
Proof.
  induction a as [|x a IH]; [done|].
  rewrite !StringFacts.append_cons. cbn [String.prefix].
  by destruct (ascii_dec x x).
Qed.

Lemma path_string_snoc (p : list string) (seg : string) :
  path_string (p ++ [seg]) =
  foldr (fun seg rest => "/" +:+ seg +:+ rest) "" p +:+ "/" +:+ seg.
Proof.
  transitivity (foldr (fun seg rest => "/" +:+ seg +:+ rest) "" (p ++ [seg])).
  - by destruct p.
  - rewrite PathFacts.foldr_path_app. cbn [foldr].
    by rewrite StringFacts.append_empty_r.
Qed.

Lemma sibling_check (parent : list string) (sibling : string) :
  startsWith (path_string (parent ++ [sibling])) (path_string (parent ++ ["app"])) =
  String.prefix "app" sibling.
Proof.
  unfold startsWith. rewrite !path_string_snoc, prefix_append_cancel.
  change (String.prefix (String "/" "app") (String "/" sibling) = String.prefix "app" sibling).
  cbn [String.prefix]. by destruct (ascii_dec "/" "/").
Qed.

(** X9: the containment check compares the two paths as strings.  A request
    that climbs to a sibling of [BASE_DIR] is turned down with 403 exactly
    when the name of the sibling does not begin with [app]: a sibling such
    as app-old passes the check. *)
Theorem containment_check_is_a_string_prefix (dirname : list string) (h : host)
    (sibling : string) :
  plain sibling -> any_char is_slash sibling = false ->
  send_version dirname h ("../" +:+ sibling) = Json 403 (ErrorBody "Invalid version path")
  <-> String.prefix "app" sibling = false.
Proof.
  intros Hplain Hslash. unfold send_version.
  rewrite resolved_path_of_sibling by done.
  rewrite BASE_DIR_parent, sibling_check.
  destruct (String.prefix "app" sibling); cbn [negb].
  - split; [|done]. by destruct (_ || _).
  - done.
Qed.

Lemma containment_check_is_a_string_prefix_witness :
  send_version ["srv"; "Package Updates"] Scenario.two_versions "../etc" =
    Json 403 (ErrorBody "Invalid version path") ∧
  send_version ["srv"; "Package Updates"] Scenario.two_versions "../app-old" ≠
    Json 403 (ErrorBody "Invalid version path").
Proof.
  split.
  - apply (containment_check_is_a_string_prefix ["srv"; "Package Updates"]
             Scenario.two_versions "etc"); [by repeat split | reflexivity | reflexivity].
  - intros H.
    apply (containment_check_is_a_string_prefix ["srv"; "Package Updates"]
             Scenario.two_versions "app-old") in H; [discriminate H | by repeat split | reflexivity].
Defined.

End HostMore.

(** ** More on the client *)

Module ClientMore.
Import JsString JsArray Http Host Client Design HostMore.

Local Open Scope js_scope.
Local Open Scope list_scope.

(** X7: [getAvailableVersions] never throws and writes no file.  It returns
    the versions of [GET /versions] when that answer is accepted (none if the
    answer has no list of versions); when it is not, the versions of
    [GET /health]; and the empty list when neither request is answered. *)
Theorem getAvailableVersions_falls_back (server : remote) (c : client) :
  ∃ versions c',
    getAvailableVersions server c = (Returns versions, c') ∧
    app c' = app c ∧ versionFile c' = versionFile c ∧ downloads c' = downloads c ∧
    versions =
      match request_outcome server GetVersions with
      | Returns r => default [] (data_versions r)
      | Throws _ =>
          match request_outcome server GetHealth with
          | Returns r => default [] (data_versions r)
          | Throws _ => []
          end
      end.
Proof.
  unfold getAvailableVersions, try_catch, bind, axios.
  destruct (request_outcome server GetVersions) as [r|e].
  - destruct (data_versions r); cbn; eauto 10.
  - cbn. destruct (request_outcome server GetHealth) as [r|e'].
    + destruct (data_versions r); cbn; eauto 10.
    + cbn. eauto 10.
Qed.

(** X12: when the request is not accepted (no answer, or a status outside
    200-299), [update] returns false and leaves the application directory,
    version.txt and the downloads as they were. *)
Theorem rejected_download_changes_nothing (server : remote) (version : string) (c : client)
    (e : error) :
  request_outcome server (GetUpdates (Str version)) = Throws e ->
  (update server version c).1 = Returns false ∧
  app (update server version c).2 = app c ∧
  versionFile (update server version c).2 = versionFile c ∧
  downloads (update server version c).2 = downloads c.
Proof.
  intros H. by rewrite ClientFacts.update_eq, H.
Qed.

Lemma rejected_download_changes_nothing_witness :
  let c := {| app := Some {[ ["main.js"] := Tar.File "old" ]};
              versionFile := Some "1.0.0"; downloads := ∅; console := [] |} in
  (update (fun _ => None) "2.1.0" c).1 = Returns false ∧
  app (update (fun _ => None) "2.1.0" c).2 = Some {[ ["main.js"] := Tar.File "old" ]}.
Proof.
  intros c.
  destruct (rejected_download_changes_nothing (fun _ => None) "2.1.0" c NetworkError eq_refl)
    as (Hfalse & Happ & _).
  split; [exact Hfalse | exact Happ].
Defined.

(** X13: against a host, whenever the answer to the request is not a
    download, [update] returns false and changes no file; the console names
    the status of the answer. *)
Theorem update_without_download_changes_nothing (dirname : list string) (h : host)
    (version : string) (c : client) (status : nat) (b : body) :
  get_updates dirname h (Str version) = Json status b ->
  update (serve dirname h) version c =
  (Returns false,
   {| app := app c; versionFile := versionFile c; downloads := downloads c;
      console := console c ++
        [ Log ("Starting update to version: " +:+ version);
          Log "Downloading version...";
          Error ("Error downloading version: " +:+ message (RequestFailed status));
          Error ("Update failed: " +:+ message (RequestFailed status)) ] |}).
Proof.
  intros H. by rewrite ClientFacts.update_eq, ClientFacts.request_outcome_host, H.
Qed.

Lemma update_without_download_changes_nothing_witness :
  let c := {| app := None; versionFile := Some "1.0.0"; downloads := ∅; console := [] |} in
  (update (serve ["srv"; "Package Updates"] Scenario.two_versions) "9.9.9" c).1 = Returns false ∧
  versionFile (update (serve ["srv"; "Package Updates"] Scenario.two_versions) "9.9.9" c).2 =
    Some "1.0.0".
Proof.
  intros c.
  rewrite (update_without_download_changes_nothing ["srv"; "Package Updates"]
             Scenario.two_versions "9.9.9" c 404
             (ErrorBody "Version 9.9.9 not found, try a different version or 'version=LATEST' to get the latest version")
             eq_refl).
  split; reflexivity.
Defined.

(** X14: the downloaded file, when the server names it by one plain
    segment, so that it lies in the downloads directory.  After a run that
    succeeds it is removed from the downloads; after a run whose extraction
    fails it is left there.  No other file of the downloads is touched. *)
Theorem downloaded_file_after_update (server : remote) (version : string) (c : client)
    (filename : option string) (data : Tar.archive) :
  request_outcome server (GetUpdates (Str version)) = Returns (Attachment filename data) ->
  ClientPaths.plain_name (download_filename version (Attachment filename data)) ->
  downloads (update server version c).2 !! download_filename version (Attachment filename data) =
    (if Tar.intact data then None else Some data) ∧
  (∀ other, other ≠ download_filename version (Attachment filename data) ->
     downloads (update server version c).2 !! other = downloads c !! other).
Proof.
  intros H _. rewrite ClientFacts.update_eq, H. cbn zeta. cbn [piped].
  destruct data as [entries|written reason]; cbn [downloads snd Tar.intact]; split.
  - apply lookup_delete_eq.
  - intros other Hother. by rewrite lookup_delete_ne, lookup_insert_ne.
  - apply lookup_insert_eq.
  - intros other Hother. by rewrite lookup_insert_ne.
Qed.

Lemma downloaded_file_after_update_witness :
  let c := {| app := None; versionFile := None;
              downloads := {[ "notes.txt" := Tar.Intact [] ]}; console := [] |} in
  downloads (update Scenario.truncating_server "2.1.0" c).2 !! "2.1.0.tar.gz" =
    Some (Tar.Damaged [] "unexpected end of file") ∧
  downloads (update Scenario.truncating_server "2.1.0" c).2 !! "notes.txt" =
    Some (Tar.Intact []).
Proof.
  intros c.
  destruct (downloaded_file_after_update Scenario.truncating_server "2.1.0" c
              (Some "2.1.0.tar.gz") (Tar.Damaged [] "unexpected end of file") eq_refl)
    as [Hfile Hother].
  - by repeat split.
  - split; [exact Hfile|]. rewrite Hother by discriminate. reflexivity.
Defined.

(** X15: a failed extraction.  When the archive that came is damaged (and
    the server named the file by one plain segment), [update] returns
    false; the console shows that the run got as far as the extraction and
    stopped there with the error of [tar.x], with no line about recording;
    version.txt is as it was.  The old application is not kept: the
    application directory holds what [tar.x] had written when it gave up,
    and every path in it lies on the path of such an entry. *)
Theorem failed_extraction_loses_old_application (server : remote) (version : string)
    (c : client) (filename : option string) (written : list Tar.entry) (reason : string) :
  request_outcome server (GetUpdates (Str version)) =
    Returns (Attachment filename (Tar.Damaged written reason)) ->
  ClientPaths.plain_name
    (download_filename version (Attachment filename (Tar.Damaged written reason))) ->
  (update server version c).1 = Returns false ∧
  versionFile (update server version c).2 = versionFile c ∧
  console (update server version c).2 =
    console c ++
    [ Log ("Starting update to version: " +:+ version);
      Log "Downloading version...";
      Log "Extracting...";
      Error ("Error extracting tar file: " +:+ reason);
      Error ("Update failed: " +:+ reason) ] ∧
  ∃ dir,
    app (update server version c).2 = Some dir ∧
    (∀ p k, dir !! p = Some k -> p ≠ [] ∧ ∃ top q k', In (top :: p ++ q, k') written) ∧
    (written = [] -> dir = ∅).
Proof.
  intros H _. rewrite ClientFacts.update_eq, H. cbn zeta. cbn [piped].
  split_and!; try done.
  exists (unpacked (Tar.Damaged written reason)). split_and!; try done.
  - intros p k [Hk|(Hp & top & Hin)]%ClientFacts.foldl_unpack_lookup;
      [by rewrite lookup_empty in Hk|].
    split; [done|]. exists top, [], k. by rewrite app_nil_r.
  - by intros ->.
Qed.

Lemma failed_extraction_loses_old_application_witness :
  let c := {| app := Some {[ ["main.js"] := Tar.File "old"; ["data.db"] := Tar.File "rows" ]};
              versionFile := Some "1.0.0"; downloads := ∅; console := [] |} in
  (update Scenario.truncating_server "2.1.0" c).1 = Returns false ∧
  versionFile (update Scenario.truncating_server "2.1.0" c).2 = Some "1.0.0" ∧
  app (update Scenario.truncating_server "2.1.0" c).2 = Some ∅.
Proof.
  intros c.
  destruct (failed_extraction_loses_old_application Scenario.truncating_server "2.1.0" c
              (Some "2.1.0.tar.gz") [] "unexpected end of file" eq_refl)
    as (Hfalse & Hrecord & _ & dir & Happ & _ & Hempty).
  - by repeat split.
  - split_and!; [exact Hfalse | exact Hrecord |]. rewrite Happ, (Hempty eq_refl). reflexivity.
Defined.

(** *** From the host's disk to the client's *)

(** X16: the round trip of a package.  When the host has the directory [v]
    in its package root, [update(v)] succeeds and the application directory
    then holds the files and directories of that package, each at its path
    inside the package, and nothing else; version.txt holds [v], and the
    downloaded file is gone. *)
Theorem update_installs_the_package (dirname : list string) (h : host)
    (items : list dirent) (d : dirent) (v : string) (walk : list Tar.entry) (c : client) :
  readdirSync h = Some items ->
  List.find (fun d => String.eqb (name d) v) items = Some d ->
  node d = FsDirectory walk ->
  version_re_test v = true ->
  Forall (fun e : Tar.entry => e.1 ≠ []) walk ->
  (update (serve dirname h) v c).1 = Returns true ∧
  app (update (serve dirname h) v c).2 =
    Some (foldl (fun (dir : directory) (e : Tar.entry) => <[e.1 := e.2]> dir) ∅ walk) ∧
  versionFile (update (serve dirname h) v c).2 = Some v ∧
  downloads (update (serve dirname h) v c).2 !! (v +:+ ".tar.gz") = None.
Proof.
  intros Hitems Hfind Hnode Hv Hwalk.
  rewrite ClientFacts.update_eq, ClientFacts.request_outcome_host.
  rewrite (ClientFacts.get_updates_package dirname h items d v walk) by done.
  cbn [piped download_filename disposition_filename Tar.intact].
  cbn zeta. cbn [fst snd app versionFile downloads].
  split_and!.
  - done.
  - f_equal. by apply ClientFacts.unpacked_package.
  - f_equal. by apply ClientFacts.actual_version_verbatim.
  - apply lookup_delete_eq.
Qed.

Lemma update_installs_the_package_witness :
  let c := {| app := Some {[ ["stale.js"] := Tar.File "old" ]};
              versionFile := Some "1.0.0"; downloads := ∅; console := [] |} in
  let run := update (serve ["srv"; "Package Updates"] Scenario.two_versions) "2.1.0" c in
  run.1 = Returns true ∧
  app run.2 = Some {[ ["main.js"] := Tar.File "code 2.1.0" ]} ∧
  versionFile run.2 = Some "2.1.0".
Proof.
  intros c run.
  destruct (update_installs_the_package ["srv"; "Package Updates"] Scenario.two_versions
              _ {| name := "2.1.0"; node := FsDirectory [ (["main.js"], Tar.File "code 2.1.0") ] |}
              "2.1.0" [ (["main.js"], Tar.File "code 2.1.0") ] c
              eq_refl eq_refl eq_refl eq_refl)
    as (Htrue & Happ & Hrecord & _).
  - by repeat constructor.
  - split_and!; [exact Htrue | exact Happ | exact Hrecord].
Defined.

(** *** [update] and then [checkForUpdate] *)

Lemma checkForUpdate_on_host (dirname : list string) (h : host) (c : client) :
  checkForUpdate (serve dirname h) c =
  (Returns match catalog h with
           | [] => false
           | first :: _ => bool_decide (Some first ≠ trim <$> versionFile c)
           end, c).
Proof.
  unfold checkForUpdate, try_catch, bind, getCurrentVersion.
  destruct (versionFile c) as [content|] eqn:Hfile;
    rewrite ClientFacts.getAvailableVersions_host; unfold ret;
    by destruct (catalog h).
Qed.

(** X17: after [update('LATEST')], or [update] of the first entry of the
    catalog by its name, has succeeded against a host, [checkForUpdate]
    against the same host reports that there is no update. *)
Theorem no_update_after_updating_to_latest (dirname : list string) (h : host)
    (version : string) (c : client) :
  version = "LATEST" ∨ head (catalog h) = Some version ->
  (update (serve dirname h) version c).1 = Returns true ->
  (checkForUpdate (serve dirname h) (update (serve dirname h) version c).2).1 = Returns false.
Proof.
  intros Hversion Hsuccess. rewrite checkForUpdate_on_host.
  destruct (catalog h) as [|first rest] eqn:Hcat; [done|].
  assert (Hfirst : In first (catalog h)) by (rewrite Hcat; by left).
  destruct (HostFacts.catalog_entry h first Hfirst) as [Hre _].
  destruct (HostFacts.version_spelling first Hre) as (Htruthy & Hupper & Hclean & Hlatest).
  assert (Hget : get_updates dirname h (Str version) = send_version dirname h first).
  { destruct Hversion as [->|[= <-]].
    - by apply (HostFacts.get_updates_latest dirname h first rest).
    - apply HostFacts.get_updates_found; try done. by rewrite Hclean. }
  rewrite HostFacts.send_version_catalog in Hget by done.
  rewrite ClientFacts.update_eq, ClientFacts.request_outcome_host, Hget in Hsuccess |- *.
  destruct (_ || _); [done|].
  cbn [piped download_filename disposition_filename] in Hsuccess |- *.
  cbn zeta in Hsuccess |- *.
  destruct (createTarStream _ _ _); [|done].
  cbn [fst snd versionFile fmap option_fmap option_map].
  assert (Hrecorded : actual_version version (first +:+ ".tar.gz") = first).
  { destruct Hversion as [->|[= <-]].
    - by apply ClientFacts.actual_version_latest.
    - by apply ClientFacts.actual_version_verbatim. }
  rewrite Hrecorded, StringFacts.trim_digits_dots.
  - by rewrite bool_decide_eq_false_2 by (by intros []).
  - by apply (GrammarFacts.version_re_from_chars first true).
Qed.

Lemma no_update_after_updating_to_latest_witness :
  let server := serve ["srv"; "Package Updates"] Scenario.two_versions in
  let c := {| app := None; versionFile := Some "1.0.0"; downloads := ∅; console := [] |} in
  (checkForUpdate server c).1 = Returns true ∧
  (checkForUpdate server (update server "LATEST" c).2).1 = Returns false.
Proof.
  intros server c. split; [vm_compute; reflexivity|].
  apply (no_update_after_updating_to_latest ["srv"; "Package Updates"] Scenario.two_versions
           "LATEST" c).
  - left. reflexivity.
  - vm_compute. reflexivity.
Defined.

End ClientMore.

(** ** The command lines *)

Module CliFacts.
Import JsString Http Host Client Design Cli.

Local Open Scope list_scope.

(** [checkForUpdate] never throws and writes no file. *)
Lemma checkForUpdate_returns (server : remote) (c : client) :
  ∃ available c',
    checkForUpdate server c = (Returns available, c') ∧
    app c' = app c ∧ versionFile c' = versionFile c ∧ downloads c' = downloads c.
Proof.
  unfold checkForUpdate, try_catch, bind, getCurrentVersion.
  destruct (ClientFacts.getAvailableVersions_files server c)
    as (versions & c' & Heq & Happ & Hfile & Hdl).
  destruct (versionFile c); rewrite Heq; cbn; eauto 10.
Qed.

Lemma includes_arg_In (args : list string) (flag : string) :
  includes_arg args flag = true <-> In flag args.
Proof.
  unfold includes_arg. rewrite existsb_exists. split.
  - by intros (x & Hx & ->%String.eqb_eq).
  - intros H. exists flag. by rewrite String.eqb_refl.
Qed.

(** Without [--check] and [--list], update.js runs [update] with the first
    argument, or with LATEST, and does not call [process.exit]. *)
Lemma update_js_updates (server : remote) (args : list string) (c : client) (success : bool) :
  ¬ In "--check" args -> ¬ In "--list" args ->
  (update server (default "LATEST" (first_arg args)) c).1 = Returns success ->
  update_js server args c =
  {| exit := None; said_lines := [];
     disk := (update server (default "LATEST" (first_arg args)) c).2 |}.
Proof.
  intros Hcheck Hlist.
  assert (Hc : includes_arg args "--check" = false).
  { apply not_true_is_false. by rewrite includes_arg_In. }
  assert (Hl : includes_arg args "--list" = false).
  { apply not_true_is_false. by rewrite includes_arg_In. }
  unfold update_js. rewrite Hc, Hl.
  destruct (first_arg args) as [v|]; cbn [default];
    by destruct (update server _ c) as [[ok|e] c'].
Qed.

(** With a first argument other than [--check], Updates-Client.js runs
    [update] with it, or with LATEST, and exits with 0 or 1 by the
    result. *)
Lemma client_js_updates (server : remote) (args : list string) (c : client) (success : bool) :
  head args ≠ Some "--check" ->
  (update server (default "LATEST" (first_arg args)) c).1 = Returns success ->
  client_js server args c =
  {| exit := Some (if success then 0 else 1); said_lines := [];
     disk := (update server (default "LATEST" (first_arg args)) c).2 |}.
Proof.
  intros Hhead. unfold client_js. rewrite bool_decide_eq_false_2 by done.
  destruct (update server _ c) as [[ok|e] c']; [|done]. by intros [= ->].
Qed.

(** X18: update.js with [--check] anywhere among its arguments only checks:
    whatever else is given, no file of the client is changed, and the exit
    status is 0 when [checkForUpdate] finds an update and 1 when it does
    not. *)
Theorem update_js_check_only (server : remote) (args : list string) (c : client) :
  In "--check" args ->
  ∃ available,
    (checkForUpdate server c).1 = Returns available ∧
    status (update_js server args c) = (if available then 0 else 1) ∧
    app (disk (update_js server args c)) = app c ∧
    versionFile (disk (update_js server args c)) = versionFile c ∧
    downloads (disk (update_js server args c)) = downloads c.
Proof.
  intros Hcheck%includes_arg_In. unfold update_js. rewrite Hcheck.
  destruct (checkForUpdate_returns server c) as (available & c' & -> & Happ & Hfile & Hdl).
  exists available. by destruct available.
Qed.

Lemma update_js_check_only_witness :
  let c := {| app := None; versionFile := Some "2.1.0"; downloads := ∅; console := [] |} in
  status (update_js (serve ["srv"; "Package Updates"] Scenario.two_versions)
            ["1.0.0"; "--check"] c) = 1 ∧
  versionFile (disk (update_js (serve ["srv"; "Package Updates"] Scenario.two_versions)
                       ["1.0.0"; "--check"] c)) = Some "2.1.0".
Proof.
  intros c.
  destruct (update_js_check_only (serve ["srv"; "Package Updates"] Scenario.two_versions)
              ["1.0.0"; "--check"] c) as (available & Hcheck & Hstatus & _ & Hfile & _).
  - right. left. reflexivity.
  - injection Hcheck as <-. split; [exact Hstatus | exact Hfile].
Defined.

(** X19: the two command lines differ in what they report of an update that
    fails.  Without [--check] and [--list] both run [update] with the first
    argument, or with LATEST.
    - When the request is not accepted, the files are left as they were;
      update.js ends with status 0, Updates-Client.js with status 1.
    - When an intact archive comes (under a name of one plain segment), both
      leave the files of that update and end with status 0.
    - When a damaged archive comes, update.js ends with status 0 and
      Updates-Client.js with status 1. *)
Theorem exit_status_of_an_update (server : remote) (args : list string) (c : client) :
  ¬ In "--check" args -> ¬ In "--list" args ->
  let version := default "LATEST" (first_arg args) in
  (∀ e, request_outcome server (GetUpdates (Str version)) = Throws e ->
     status (update_js server args c) = 0 ∧
     status (client_js server args c) = 1 ∧
     disk (update_js server args c) = disk (client_js server args c) ∧
     app (disk (update_js server args c)) = app c ∧
     versionFile (disk (update_js server args c)) = versionFile c ∧
     downloads (disk (update_js server args c)) = downloads c) ∧
  (∀ filename entries,
     request_outcome server (GetUpdates (Str version)) =
       Returns (Attachment filename (Tar.Intact entries)) ->
     ClientPaths.plain_name
       (download_filename version (Attachment filename (Tar.Intact entries))) ->
     status (update_js server args c) = 0 ∧
     status (client_js server args c) = 0 ∧
     disk (update_js server args c) = (update server version c).2 ∧
     disk (client_js server args c) = (update server version c).2 ∧
     (update server version c).1 = Returns true) ∧
  (∀ filename written reason,
     request_outcome server (GetUpdates (Str version)) =
       Returns (Attachment filename (Tar.Damaged written reason)) ->
     ClientPaths.plain_name
       (download_filename version (Attachment filename (Tar.Damaged written reason))) ->
     status (update_js server args c) = 0 ∧
     status (client_js server args c) = 1).
Proof.
  intros Hcheck Hlist. cbn zeta.
  assert (Hhead : head args ≠ Some "--check").
  { intros H. apply Hcheck. destruct args as [|a args]; [done|].
    injection H as ->. by left. }
  split_and!.
  - intros e He.
    assert (Hrun : (update server (default "LATEST" (first_arg args)) c).1 = Returns false)
      by (by rewrite ClientFacts.update_eq, He).
    rewrite (update_js_updates server args c false), (client_js_updates server args c false)
      by done.
    cbn [status exit disk default]. split_and!; try done;
      by rewrite ClientFacts.update_eq, He.
  - intros filename entries Hr _.
    assert (Hrun : (update server (default "LATEST" (first_arg args)) c).1 = Returns true)
      by (by rewrite ClientFacts.update_eq, Hr).
    rewrite (update_js_updates server args c true), (client_js_updates server args c true)
      by done.
    done.
  - intros filename written reason Hr _.
    assert (Hrun : (update server (default "LATEST" (first_arg args)) c).1 = Returns false)
      by (by rewrite ClientFacts.update_eq, Hr).
    rewrite (update_js_updates server args c false), (client_js_updates server args c false)
      by done.
    done.
Qed.

Lemma exit_status_of_an_update_witness :
  let c := {| app := None; versionFile := Some "1.0.0"; downloads := ∅; console := [] |} in
  status (update_js (fun _ => None) ["2.1.0"] c) = 0 ∧
  status (client_js (fun _ => None) ["2.1.0"] c) = 1.
Proof.
  intros c.
  destruct (exit_status_of_an_update (fun _ => None) ["2.1.0"] c) as (Hrejected & _ & _).
  - cbn. intuition discriminate.
  - cbn. intuition discriminate.
  - destruct (Hrejected NetworkError eq_refl) as (Hjs & Hclient & _).
    split; [exact Hjs | exact Hclient].
Defined.

(** X20: Updates-Client.js looks for [--check] in the first argument only.
    Any other first argument is taken for a version, [--list] and a later
    [--check] included: what follows the first argument makes no
    difference, and the script runs [update] with the first argument.  When
    the request for it is not accepted, the script ends with status 1 and
    leaves the files as they were. *)
Theorem client_js_first_argument_is_the_version (server : remote) (args : list string)
    (v : string) (c : client) :
  head args = Some v -> v ≠ "--check" -> v ≠ "" ->
  client_js server args c = client_js server [v] c ∧
  (∀ e, request_outcome server (GetUpdates (Str v)) = Throws e ->
     status (client_js server args c) = 1 ∧
     disk (client_js server args c) = (update server v c).2 ∧
     app (disk (client_js server args c)) = app c ∧
     versionFile (disk (client_js server args c)) = versionFile c ∧
     downloads (disk (client_js server args c)) = downloads c).
Proof.
  intros Hhead Hcheck Hempty.
  assert (Hfirst : first_arg args = Some v).
  { unfold first_arg, truthy. rewrite Hhead.
    by destruct (String.eqb_spec v ""). }
  assert (Hone : first_arg [v] = Some v).
  { unfold first_arg, truthy. cbn [head].
    by destruct (String.eqb_spec v ""). }
  split.
  - unfold client_js. rewrite Hfirst, Hone, Hhead. done.
  - intros e He.
    assert (Hrun : (update server v c).1 = Returns false)
      by (by rewrite ClientFacts.update_eq, He).
    pose proof (client_js_updates server args c false) as Hjs.
    rewrite Hfirst, Hhead in Hjs. change (default "LATEST" (Some v)) with v in Hjs.
    rewrite Hjs by (done || congruence).
    cbn [status exit disk default]. split_and!; try done;
      by rewrite ClientFacts.update_eq, He.
Qed.

Lemma client_js_first_argument_is_the_version_witness :
  let c := {| app := None; versionFile := Some "1.0.0"; downloads := ∅; console := [] |} in
  let server := serve ["srv"; "Package Updates"] Scenario.two_versions in
  client_js server ["--list"; "--check"] c = client_js server ["--list"] c ∧
  status (client_js server ["--list"; "--check"] c) = 1 ∧
  versionFile (disk (client_js server ["--list"; "--check"] c)) = Some "1.0.0".
Proof.
  intros c server.
  destruct (client_js_first_argument_is_the_version server ["--list"; "--check"] "--list" c)
    as (Hsame & Hrejected); [reflexivity | discriminate | discriminate |].
  destruct (Hrejected (RequestFailed 404) eq_refl) as (Hstatus & _ & _ & Hfile & _).
  split_and!; [exact Hsame | exact Hstatus | exact Hfile].
Defined.

End CliFacts.

(** ** The paths of the client *)

Module ClientPathFacts.
Import JsString Host ClientPaths HostMore.
Local Open Scope list_scope.

Lemma resolve_from_plain (cwd : list string) (p : string) : Forall plain (resolve_from cwd p).
Proof.
  unfold resolve_from, path_normalize.
  destruct (String.prefix "/" p); apply PathFacts.normalize_onto_Forall; constructor.
Qed.

Lemma Forall_removelast {A} (P : A -> Prop) (l : list A) :
  Forall P l -> Forall P (removelast l).
Proof.
  induction 1 as [|x l Hx Hl IH]; [done|].
  cbn [removelast]. destruct l; [constructor|]. by constructor.
Qed.

Lemma versionFile_beside (cwd : list string) (arg : string) :
  versionFile (constructor cwd arg) = removelast (appPath (constructor cwd arg)) ++ ["version.txt"].
Proof.
  cbn [versionFile appPath constructor]. unfold path_join, path_dirname, path_normalize.
  change (flat_map (split "/") ["version.txt"]) with ["version.txt"].
  rewrite PathFacts.normalize_onto_plain; [done|].
  apply Forall_app. split.
  - apply Forall_removelast, resolve_from_plain.
  - by repeat constructor.
Qed.

(** X21: version.txt lies beside the application directory, not in it: its
    path is the parent of [appPath] followed by version.txt, and [appPath] is
    not a prefix of it, unless the application directory is the root or is
    itself named version.txt.  So removing and unpacking the application
    directory does not touch the record. *)
Theorem versionFile_outside_appPath (cwd : list string) (arg : string) :
  appPath (constructor cwd arg) ≠ [] ->
  path_basename (appPath (constructor cwd arg)) ≠ "version.txt" ->
  versionFile (constructor cwd arg) =
    removelast (appPath (constructor cwd arg)) ++ ["version.txt"] ∧
  ¬ (appPath (constructor cwd arg) `prefix_of` versionFile (constructor cwd arg)).
Proof.
  intros Hne Hname. split; [apply versionFile_beside|].
  rewrite versionFile_beside. set (p := appPath (constructor cwd arg)) in *.
  intros [k Hk].
  rewrite (app_removelast_last "" Hne) in Hk at 2.
  fold (path_basename p) in Hk.
  assert (Hlen : length k = 0).
  { apply (f_equal length) in Hk. rewrite !length_app in Hk. cbn in Hk. lia. }
  destruct k; [|done]. rewrite app_nil_r in Hk.
  apply app_inj_tail in Hk as [_ Hk]. congruence.
Qed.

Lemma versionFile_outside_appPath_witness :
  appPath (constructor ["home"; "me"; "Package Updates client"] "../app") = ["home"; "me"; "app"] ∧
  versionFile (constructor ["home"; "me"; "Package Updates client"] "../app") =
    ["home"; "me"; "version.txt"].
Proof.
  split; [reflexivity|].
  destruct (versionFile_outside_appPath ["home"; "me"; "Package Updates client"] "../app")
    as [Hfile _]; [discriminate | discriminate |].
  exact Hfile.
Defined.

(** *** Where the download is written *)

Lemma rev_tail_rev {A} (l : list A) : rev (tail (rev l)) = removelast l.
Proof.
  induction l as [|x l _] using rev_ind; [done|].
  rewrite rev_app_distr, removelast_last. cbn [rev app tail]. apply rev_involutive.
Qed.

Lemma length_removelast_le {A} (l : list A) : (length (removelast l) <= length l)%nat.
Proof.
  induction l as [|x l IH]; [done|].
  cbn [removelast]. destruct l; cbn [length] in *; lia.
Qed.

Lemma downloadsDir_plain (dirname : list string) :
  Forall plain dirname -> downloadsDir dirname = dirname ++ ["downloads"].
Proof.
  intros H. unfold downloadsDir, path_join, path_normalize.
  change (flat_map (split "/") ["downloads"]) with ["downloads"].
  rewrite PathFacts.normalize_onto_plain; [done|].
  apply Forall_app. split; [done|]. by repeat constructor.
Qed.

(** A name of one plain segment is the name of a file of the downloads
    directory. *)
Lemma filePath_plain_name (dirname : list string) (filename : string) :
  Forall plain dirname -> plain_name filename ->
  filePath dirname filename = downloadsDir dirname ++ [filename].
Proof.
  intros H [Hslash Hplain]. unfold filePath, path_join, path_normalize.
  cbn [flat_map]. rewrite StringFacts.split_no_separator, app_nil_r by done.
  rewrite PathFacts.normalize_onto_plain; [done|].
  rewrite downloadsDir_plain by done.
  apply Forall_app. split; [|by constructor].
  apply Forall_app. split; [done|]. by repeat constructor.
Qed.

(** Two [..] lead out of the downloads directory and out of the directory of
    the script. *)
Lemma filePath_climbs (dirname : list string) (name : string) :
  Forall plain dirname -> plain_name name ->
  filePath dirname ("../../" +:+ name) = removelast dirname ++ [name].
Proof.
  intros H [Hslash (H1 & H2 & H3)]. unfold filePath, path_join, path_normalize.
  rewrite downloadsDir_plain by done. cbn [flat_map].
  change ("../../" +:+ name)
    with (String "." (String "." (String "/" (String "." (String "." (String "/" name)))))).
  cbn [split Ascii.eqb Bool.eqb]. cbv iota.
  rewrite StringFacts.split_no_separator, app_nil_r by done.
  rewrite normalize_onto_app
    by (apply Forall_app; split; [done|]; by repeat constructor).
  rewrite rev_app_distr, app_nil_r.
  cbn [rev app normalize_onto String.eqb Ascii.eqb Bool.eqb orb tail]. cbv iota.
  cbn [tail].
  destruct (String.eqb_spec name ""); [done|].
  destruct (String.eqb_spec name "."); [done|].
  destruct (String.eqb_spec name ".."); [done|].
  cbn [orb rev]. by rewrite rev_tail_rev.
Qed.

(** With the default [appPath] and the script run from its own directory,
    version.txt lies beside the directory of the script. *)
Lemma versionFile_default (dirname : list string) :
  Forall plain dirname ->
  versionFile (constructor dirname "../app") = removelast dirname ++ ["version.txt"].
Proof.
  intros H. rewrite versionFile_beside. f_equal.
  cbn [appPath constructor]. unfold resolve_from, path_normalize.
  change (String.prefix "/" "../app") with false. cbv iota.
  change (split "/" "../app") with [".."; "app"].
  rewrite normalize_onto_app by done. rewrite app_nil_r.
  cbn [normalize_onto String.eqb Ascii.eqb Bool.eqb orb]. cbv iota.
  cbn [rev]. by rewrite removelast_last, rev_tail_rev.
Qed.

(** C3 fails on the code: the download can be written over the record.
    [downloadVersion] joins the file name that the server sent in
    [Content-Disposition] to the downloads directory just as it came.  With
    the script run from its own directory and the default [appPath], the
    name [../../version.txt] makes [filePath], where the body of the
    response is written, the path of version.txt: the record is
    overwritten by the download, before the extraction begins and whether or
    not it fails.  A name of one plain segment, such as the host sends,
    stays in the downloads directory and is never the record. *)
Theorem download_can_overwrite_the_record (dirname : list string) :
  Forall plain dirname ->
  filePath dirname "../../version.txt" = versionFile (constructor dirname "../app") ∧
  (∀ filename, plain_name filename ->
     filePath dirname filename = downloadsDir dirname ++ [filename] ∧
     filePath dirname filename ≠ versionFile (constructor dirname "../app")).
Proof.
  intros H. rewrite versionFile_default by done. split.
  - apply (filePath_climbs dirname "version.txt"); [done|]. by repeat split.
  - intros filename Hname. rewrite filePath_plain_name, downloadsDir_plain by done.
    split; [done|]. intros Heq. apply (f_equal length) in Heq.
    rewrite !length_app in Heq. cbn [length] in Heq.
    pose proof (length_removelast_le dirname). lia.
Qed.

Lemma download_can_overwrite_the_record_witness :
  filePath ["home"; "me"; "Package Updates client"] "../../version.txt" =
    ["home"; "me"; "version.txt"] ∧
  versionFile (constructor ["home"; "me"; "Package Updates client"] "../app") =
    ["home"; "me"; "version.txt"] ∧
  filePath ["home"; "me"; "Package Updates client"] "2.1.0.tar.gz" =
    ["home"; "me"; "Package Updates client"; "downloads"; "2.1.0.tar.gz"].
Proof.
  destruct (download_can_overwrite_the_record ["home"; "me"; "Package Updates client"])
    as [Hrecord Hplain]; [by repeat constructor|].
  split_and!.
  - reflexivity.
  - rewrite <- Hrecord. reflexivity.
  - destruct (Hplain "2.1.0.tar.gz") as [Hfile _]; [by repeat split|].
    rewrite Hfile. reflexivity.
Defined.

End ClientPathFacts.
